(** * Atomic import/export transactions of the EVM plugin

    A shallow embedding of the import and export transactions of
    [peer/waiting_handler.go] ([UnsignedImportTx], [UnsignedExportTx]),
    together with the expectations of the import tests of
    [plugin/evm/factory.go].

    Conventions.
    - [uint64] values are integers in [Z]; every place where Go checks or
      wraps the 64-bit range is written out.
    - [*big.Int] values are unbounded integers in [Z].
    - [ids.ID], [ids.ShortID] and [common.Address] are byte strings.
    - a Go [error] result is [option error] ([None] is [nil]); a pair
      [(v, error)] is a [result].
    - objects mutated in place (the state database) are threaded
      explicitly, and a failing call returns the object as it left it. *)

From Stdlib Require Import ZArith List Lia Bool Sorted.
From stdpp Require Import gmap list.

Local Open Scope Z_scope.

(** ** Byte strings and identifiers *)

Abbreviation Bytes := (list N).
Abbreviation ID := (list N).
Abbreviation Address := (list N).

(** [bytes.Compare]: lexicographic order on byte strings. *)
Fixpoint bytes_compare (a b : Bytes) : comparison :=
  match a, b with
  | [], [] => Eq
  | [], _ :: _ => Lt
  | _ :: _, [] => Gt
  | x :: a', y :: b' =>
      match N.compare x y with
      | Eq => bytes_compare a' b'
      | c => c
      end
  end.

(** ** Errors *)

Inductive error : Type :=
  | errNilTx
  | errNoImportInputs
  | errNoExportOutputs
  | errWrongNetworkID
  | errWrongBlockchainID
  | errNoEVMOutputs
  | errWrongChainID
  | errInputsNotSortedUnique
  | errOutputsNotSortedUnique
  | errOutputsNotSorted
  | errInsufficientFunds
  | errInvalidNonce
  | errAssetIDMismatch
  | errPublicKeySignatureMismatch
  | errOverflow                       (* math.Add64 / math.Mul64 *)
  | errFeeOverflow                    (* calculateDynamicFee *)
  | errLibrary (code : nat)           (* an error made by a collaborator *)
  | ErrEVMOutputVerify (e : error)    (* "EVM Output failed verification: %w" *)
  | ErrAtomicInputVerify (e : error)  (* "atomic input failed verification: %w" *)
  | ErrImportFlowCheck (e : error)    (* "import tx flow check failed due to: %w" *)
  | ErrExportFlowCheck (e : error)    (* "export tx flow check failed due to: %w" *)
  | ErrImportCredCount (ins creds : nat)
  | ErrExportCredCount (ins creds : nat)
  | ErrFetchUTXOs (chain : ID) (e : error)
  | ErrUnmarshalUTXO (e : error)
  | ErrTransferVerify (e : error)
  | ErrExpectedSecpCredential
  | ErrExpectedOneSignature (found : nat)
  | ErrExpectedSecpPublicKey
  | panicIndexOutOfRange.             (* a run-time panic, not an error value *)

Inductive result (A : Type) : Type :=
  | Ok (a : A)
  | Err (e : error).
Arguments Ok {A} a.
Arguments Err {A} e.

(** Error propagation, [if err != nil { return ..., err }]. *)
#[global] Instance result_bind : MBind result :=
  fun A B (k : A -> result B) (r : result A) =>
    match r with
    | Ok a => k a
    | Err e => Err e
    end.

(** ** Checked 64-bit arithmetic ([utils/math]) *)

Definition MaxUint64 : Z := 2 ^ 64 - 1.

Definition is_uint64 (n : Z) : Prop := 0 <= n <= MaxUint64.

(** [math.Add64]: the sum, or an error when it leaves the 64-bit range. *)
Definition Add64 (a b : Z) : result Z :=
  if b >? MaxUint64 - a then Err errOverflow else Ok (a + b).

(** [math.Mul64]: the product, or an error when it leaves the 64-bit range. *)
Definition Mul64 (a b : Z) : result Z :=
  if (b =? 0) then Ok (a * b)
  else if a >? MaxUint64 / b then Err errOverflow else Ok (a * b).

(** ** Protocol constants

    Modelled from the spec: the packages [params] and [secp256k1fx] that
    declare these constants are not part of the sources.  The values are
    the ones the test tables fix: a fixed fee of 1,000,000 from phase 2 on,
    10,000 gas between the fixed-fee and plain rows of TestImportTxGasCost,
    1,000 gas per signature, and a native-unit rate of 10^9. *)
Definition AxiaAtomicTxFee : Z := 1000000.
Definition AtomicTxBaseCost : Z := 10000.
Definition CostPerSignature : Z := 1000.
Definition x2cRate : Z := 1000000000.
Definition GWei : Z := 1000000000.

(** ** Rule set ([params.Rules]) *)

Record Rules : Type := {
  IsApricotPhase1 : bool;
  IsApricotPhase2 : bool;
  IsApricotPhase3 : bool;
  IsApricotPhase4 : bool;
  IsApricotPhase5 : bool
}.

Definition apricotRulesPhase0 : Rules := Build_Rules false false false false false.
Definition apricotRulesPhase1 : Rules := Build_Rules true false false false false.
Definition apricotRulesPhase2 : Rules := Build_Rules true true false false false.
Definition apricotRulesPhase3 : Rules := Build_Rules true true true false false.
Definition apricotRulesPhase4 : Rules := Build_Rules true true true true false.
Definition apricotRulesPhase5 : Rules := Build_Rules true true true true true.

(** ** Dynamic fee

    Modelled from the spec: [calculateDynamicFee] is declared in
    [plugin/evm/tx.go], which is not part of the sources; only its callers
    and its test table are.  The spec gives the product gasUsed x baseFee;
    the table of TestImportTxGasCost fixes the unit of the result: the
    product is in the ledger's base unit and the fee is returned in the
    native unit, that is divided by [x2cRate] and rounded up (1230 gas at a
    base fee of 1 costs 1).  The product is a [big.Int]; only the final
    value is range-checked. *)
Definition calculateDynamicFee (cost baseFee : Z) : result Z :=
  let fee := cost * baseFee in
  let feeToRoundUp := fee + (x2cRate - 1) in
  let feeInNAXC := feeToRoundUp / x2cRate in
  if (0 <=? feeInNAXC) && (feeInNAXC <=? MaxUint64)
  then Ok feeInNAXC
  else Err errFeeOverflow.

(** The formula in the words of the specification: the plain product,
    range-checked. *)
Definition calculateDynamicFee_spec (gasUsed baseFee : Z) : result Z :=
  let fee := gasUsed * baseFee in
  if (0 <=? fee) && (fee <=? MaxUint64) then Ok fee else Err errFeeOverflow.

(** The rows of TestImportTxGasCost: expected gas, base fee, expected fee. *)
Definition importTxGasCostRows : list (Z * Z * Z) :=
  [ (1230, 25 * GWei, 30750);
    (1230, 1, 1);
    (11230, 1, 1);
    (2318, 25 * GWei, 57950);
    (2378, 25 * GWei, 59450);
    (2234, 25 * GWei, 55850);
    (11022, 25 * GWei, 275550) ].

Definition feeRowHolds (f : Z -> Z -> result Z) (row : Z * Z * Z) : bool :=
  match row with
  | (gas, base, expected) =>
      match f gas base with
      | Ok fee => fee =? expected
      | Err _ => false
      end
  end.

(** ** Chain context ([snow.Context]) *)

Module snow.
Record Context : Type := {
  NetworkID : Z;          (* uint32 *)
  ChainID : ID;
  SwapChainID : ID;
  AXCAssetID : ID
}.
End snow.

(** ** UTXO-side data ([vms/components/axc], [vms/secp256k1fx]) *)

Module axc.
(** The embedded [axc.Metadata]: the bytes fixed when the transaction is
    signed, and the transaction ID derived from the signed bytes. *)
Record Metadata : Type := {
  unsignedBytes : Bytes;
  id : ID
}.

Record UTXOID : Type := {
  TxID : ID;
  OutputIndex : Z         (* uint32 *)
}.

(** [secp256k1fx.TransferInput], the [axc.TransferableIn] of the tests. *)
Record TransferableIn : Type := {
  Amt : Z;                (* uint64 *)
  SigIndices : list Z
}.

Record TransferableInput : Type := {
  UTXOID_ : UTXOID;
  Asset : ID;
  In : TransferableIn
}.

(** [secp256k1fx.TransferOutput], the [axc.TransferableOut] of the
    sources. *)
Record TransferableOut : Type := {
  OutAmt : Z;             (* uint64 *)
  Locktime : Z;
  Threshold : Z;
  Addrs : list ID
}.

Record TransferableOutput : Type := {
  OutAsset : ID;
  Out : TransferableOut
}.

Record UTXO : Type := {
  utxoID : UTXOID;
  utxoAsset : ID;
  utxoOut : TransferableOut
}.

(** [in.AssetID()], [in.Input().Amount()], [out.AssetID()],
    [out.Output().Amount()]. *)
Definition AssetID (i : TransferableInput) : ID := Asset i.
Definition Amount (i : TransferableInput) : Z := Amt (In i).
Definition OutAssetID (o : TransferableOutput) : ID := OutAsset o.
Definition OutAmount (o : TransferableOutput) : Z := OutAmt (Out o).
End axc.

(** ** Account-side data ([EVMOutput], [EVMInput]) *)

Module EVMOutput.
Record t : Type := {
  Address : Address;
  Amount : Z;             (* uint64 *)
  AssetID : ID
}.
End EVMOutput.

Module EVMInput.
Record t : Type := {
  Address : Address;
  Amount : Z;             (* uint64 *)
  AssetID : ID;
  Nonce : Z               (* uint64 *)
}.
End EVMInput.

(** ** Credentials and keys *)

Inductive Credential : Type :=
  | secp256k1fx_Credential (Sigs : list Bytes)
  | other_Credential (kind : nat).

Inductive PublicKey : Type :=
  | PublicKeySECP256K1R (key : Bytes)
  | other_PublicKey (kind : nat).

(** ** Collaborators

    Functions the two transaction files call and that are declared outside
    the sources: library packages ([verify], [axc], [secp256k1fx],
    [constants]) and [plugin/evm/tx.go].  They are parameters of the
    development. *)
Class Collaborators : Type := {
  (* constants.PlatformChainID *)
  PlatformChainID : ID;
  (* verify.SameSubnet(ctx, peerChainID), called by the import path *)
  SameSubnet : snow.Context -> ID -> option error;
  (* verify.SameAllychain(ctx, peerChainID), called by the export path *)
  SameAllychain : snow.Context -> ID -> option error;
  (* Verify of axc.TransferableInput and of axc.TransferableOutput *)
  TransferableInput_Verify : axc.TransferableInput -> option error;
  TransferableOutput_Verify : axc.TransferableOutput -> option error;
  axc_IsSortedAndUniqueTransferableInputs : list axc.TransferableInput -> bool;
  axc_IsSortedTransferableOutputs : list axc.TransferableOutput -> bool;
  (* in.In.Cost() *)
  TransferableIn_Cost : axc.TransferableIn -> result Z;
  (* InputID of axc.UTXOID *)
  InputID : axc.UTXOID -> ID;
  (* Verify of EVMOutput and of EVMInput, IsSortedAndUniqueEVMInputs,
     calcBytesCost, PublicKeyToEthAddress: plugin/evm/tx.go *)
  EVMOutput_Verify : EVMOutput.t -> option error;
  EVMInput_Verify : EVMInput.t -> option error;
  IsSortedAndUniqueEVMInputs : list EVMInput.t -> bool;
  calcBytesCost : nat -> Z;
  PublicKeyToEthAddress : Bytes -> Address;
  (* Verify of secp256k1fx.Credential *)
  secp256k1fx_Credential_Verify : list Bytes -> option error
}.

(** ** Canonical order of EVM outputs

    Modelled from the spec: [IsSortedEVMOutputs] and
    [IsSortedAndUniqueEVMOutputs] are declared in [plugin/evm/tx.go], which
    is not part of the sources.  The spec gives the canonical key of an
    output as (address bytes, assetID bytes), compared lexicographically;
    the middle policy accepts a list with no descending neighbours, the
    late policy one whose neighbours strictly ascend. *)
Definition EVMOutput_Less (a b : EVMOutput.t) : bool :=
  match bytes_compare (EVMOutput.Address a) (EVMOutput.Address b) with
  | Lt => true
  | Gt => false
  | Eq =>
      match bytes_compare (EVMOutput.AssetID a) (EVMOutput.AssetID b) with
      | Lt => true
      | _ => false
      end
  end.

(** [sort.IsSorted]: no element is less than its predecessor. *)
Fixpoint sort_IsSorted {A} (less : A -> A -> bool) (l : list A) : bool :=
  match l with
  | a :: (b :: _) as tl => negb (less b a) && sort_IsSorted less tl
  | _ => true
  end.

(** [utils.IsSortedAndUnique]: every element is less than its successor. *)
Fixpoint utils_IsSortedAndUnique {A} (less : A -> A -> bool) (l : list A) : bool :=
  match l with
  | a :: (b :: _) as tl => less a b && utils_IsSortedAndUnique less tl
  | _ => true
  end.

Definition IsSortedEVMOutputs (outputs : list EVMOutput.t) : bool :=
  sort_IsSorted EVMOutput_Less outputs.

Definition IsSortedAndUniqueEVMOutputs (outputs : list EVMOutput.t) : bool :=
  utils_IsSortedAndUnique EVMOutput_Less outputs.

(** ** Ledger ([state.StateDB])

    Modelled from the spec: the state database is an external collaborator,
    a key-value store with balance get/add/sub per address, a second
    balance per (address, asset), and nonce get/set.  An absent account
    reads as zero. *)
Record StateDB : Type := {
  balances : gmap Address Z;
  multiCoin : gmap (Address * ID) Z;
  nonces : gmap Address Z
}.

Definition GetBalance (s : StateDB) (a : Address) : Z :=
  default 0 (balances s !! a).

Definition AddBalance (s : StateDB) (a : Address) (amount : Z) : StateDB :=
  {| balances := <[a := GetBalance s a + amount]> (balances s);
     multiCoin := multiCoin s;
     nonces := nonces s |}.

Definition SubBalance (s : StateDB) (a : Address) (amount : Z) : StateDB :=
  {| balances := <[a := GetBalance s a - amount]> (balances s);
     multiCoin := multiCoin s;
     nonces := nonces s |}.

Definition GetBalanceMultiCoin (s : StateDB) (a : Address) (coin : ID) : Z :=
  default 0 (multiCoin s !! (a, coin)).

Definition AddBalanceMultiCoin (s : StateDB) (a : Address) (coin : ID) (amount : Z) : StateDB :=
  {| balances := balances s;
     multiCoin := <[(a, coin) := GetBalanceMultiCoin s a coin + amount]> (multiCoin s);
     nonces := nonces s |}.

Definition SubBalanceMultiCoin (s : StateDB) (a : Address) (coin : ID) (amount : Z) : StateDB :=
  {| balances := balances s;
     multiCoin := <[(a, coin) := GetBalanceMultiCoin s a coin - amount]> (multiCoin s);
     nonces := nonces s |}.

Definition GetNonce (s : StateDB) (a : Address) : Z :=
  default 0 (nonces s !! a).

Definition SetNonce (s : StateDB) (a : Address) (n : Z) : StateDB :=
  {| balances := balances s;
     multiCoin := multiCoin s;
     nonces := <[a := n]> (nonces s) |}.

(** ** Flow checker ([axc.FlowChecker])

    Modelled from the spec: the flow checker is a library type.  It keeps
    the produced and the consumed amount of every asset, adds with a range
    check, remembers the first failure, and its [Verify] fails when an
    addition left the range or some asset has more produced than
    consumed. *)
Record FlowChecker : Type := {
  consumed : gmap ID Z;
  produced : gmap ID Z;
  errs : option error
}.

Definition NewFlowChecker : FlowChecker :=
  {| consumed := ∅; produced := ∅; errs := None |}.

(** [errs.Add(err)]: the first error is kept. *)
Definition errs_Add (errs : option error) (err : option error) : option error :=
  match errs with
  | Some e => Some e
  | None => err
  end.

(** [fc.add(value, assetID, amount)]: the checked addition into one of the
    two maps; a failed addition stores zero and records the error. *)
Definition FlowChecker_add (value : gmap ID Z) (errs : option error)
    (assetID : ID) (amount : Z) : gmap ID Z * option error :=
  match Add64 (default 0 (value !! assetID)) amount with
  | Ok v => (<[assetID := v]> value, errs)
  | Err e => (<[assetID := 0]> value, errs_Add errs (Some e))
  end.

Definition Produce (fc : FlowChecker) (assetID : ID) (amount : Z) : FlowChecker :=
  let '(value, errs') := FlowChecker_add (produced fc) (errs fc) assetID amount in
  {| consumed := consumed fc; produced := value; errs := errs' |}.

Definition Consume (fc : FlowChecker) (assetID : ID) (amount : Z) : FlowChecker :=
  let '(value, errs') := FlowChecker_add (consumed fc) (errs fc) assetID amount in
  {| consumed := value; produced := produced fc; errs := errs' |}.

(** Some asset has more produced than consumed. *)
Definition flow_short (fc : FlowChecker) : bool :=
  existsb (fun kv => snd kv >? default 0 (consumed fc !! fst kv))
          (map_to_list (produced fc)).

Definition FlowChecker_Verify (fc : FlowChecker) : option error :=
  match errs fc with
  | Some e => Some e
  | None => if flow_short fc then Some errInsufficientFunds else None
  end.

(** ** Signed transactions and the virtual machine *)

(** The [UnsignedAtomicTx] interface as [Tx] uses it: [stx.GasUsed] is the
    method of the embedded unsigned transaction. *)
Record UnsignedAtomicTx : Type := {
  atomic_GasUsed : bool -> result Z
}.

Record Tx : Type := {
  UnsignedAtomicTx_ : UnsignedAtomicTx;
  Creds : list Credential
}.

Record Block : Type := {
  blockID : ID
}.

Record VM : Type := {
  ctx : snow.Context;
  (* vm.ctx.SharedMemory.Get(peerChain, keys); the store is kept beside the
     plain fields of the context *)
  SharedMemory_Get : ID -> list Bytes -> result (list Bytes);
  bootstrapped : bool;
  (* vm.codec.Unmarshal(utxoBytes, utxo) *)
  codec_Unmarshal : Bytes -> result axc.UTXO;
  (* vm.fx.VerifyTransfer(tx, in.In, cred, utxo.Out); the transaction is
     passed as the bytes that were signed *)
  fx_VerifyTransfer :
    Bytes -> axc.TransferableIn -> Credential -> axc.TransferableOut -> option error;
  (* vm.conflicts(inputs, parent) *)
  conflicts : gset ID -> option Block -> option error;
  (* vm.secpFactory.RecoverPublicKey(msg, sig) *)
  secpFactory_RecoverPublicKey : Bytes -> Bytes -> result PublicKey
}.

(** ** Control-flow helpers *)

(** A check that returns its error, followed by the rest of the function. *)
Definition check (c : option error) (rest : option error) : option error :=
  match c with
  | Some e => Some e
  | None => rest
  end.

Infix ">>?" := check (at level 65, right associativity).

Definition fail_if (b : bool) (e : error) : option error :=
  if b then Some e else None.

(** [for _, x := range l { if err := f(x); err != nil { return err } }] *)
Fixpoint range_verify {A} (f : A -> option error) (l : list A) : option error :=
  match l with
  | [] => None
  | x :: rest =>
      match f x with
      | Some e => Some e
      | None => range_verify f rest
      end
  end.

(** [for i, x := range l { arr[i] = f(x) }], from index [i] on. *)
Fixpoint range_assign {A B} (f : A -> B) (i : nat) (l : list A) (arr : list B) : list B :=
  match l with
  | [] => arr
  | x :: rest => range_assign f (S i) rest (<[i := f x]> arr)
  end.

(** [atomic.Requests] and [atomic.Element]. *)
Record Element : Type := {
  Key : Bytes;
  Value : Bytes;
  Traits : list Bytes
}.

Record Requests : Type := {
  RemoveRequests : list Bytes;
  PutRequests : list Element
}.

(** ** UnsignedImportTx *)

Module UnsignedImportTx.
Section WithCollaborators.
Context `{Collaborators}.

(** The imported inputs are pointers in the source; they are values here:
    the codec allocates every element it decodes, and a nil element built
    by hand is what [in.Verify] rejects. *)
Record t : Type := {
  Metadata : axc.Metadata;
  NetworkID : Z;          (* uint32 *)
  BlockchainID : ID;
  SourceChain : ID;
  ImportedInputs : list axc.TransferableInput;
  Outs : list EVMOutput.t
}.

Definition UnsignedBytes (tx : t) : Bytes := axc.unsignedBytes (Metadata tx).

(** [InputUTXOs] *)
Definition InputUTXOs (tx : t) : gset ID :=
  foldl (fun set i => set ∪ {[ InputID (axc.UTXOID_ i) ]}) ∅ (ImportedInputs tx).

(** [Verify]; the receiver may be nil. *)
Definition Verify (tx : option t) (ctx : snow.Context) (rules : Rules) : option error :=
  match tx with
  | None => Some errNilTx
  | Some tx =>
      fail_if (bool_decide (length (ImportedInputs tx) = 0%nat)) errNoImportInputs >>?
      fail_if (negb (NetworkID tx =? snow.NetworkID ctx)) errWrongNetworkID >>?
      fail_if (negb (bool_decide (snow.ChainID ctx = BlockchainID tx))) errWrongBlockchainID >>?
      fail_if (IsApricotPhase3 rules && bool_decide (length (Outs tx) = 0%nat)) errNoEVMOutputs >>?
      (if IsApricotPhase5 rules
       then match SameSubnet ctx (SourceChain tx) with
            | Some _ => Some errWrongChainID
            | None => None
            end
       else fail_if (negb (bool_decide (SourceChain tx = snow.SwapChainID ctx))) errWrongChainID) >>?
      range_verify (fun out => ErrEVMOutputVerify <$> EVMOutput_Verify out) (Outs tx) >>?
      range_verify (fun i => ErrAtomicInputVerify <$> TransferableInput_Verify i) (ImportedInputs tx) >>?
      fail_if (negb (axc_IsSortedAndUniqueTransferableInputs (ImportedInputs tx))) errInputsNotSortedUnique >>?
      (if IsApricotPhase2 rules
       then fail_if (negb (IsSortedAndUniqueEVMOutputs (Outs tx))) errOutputsNotSortedUnique
       else if IsApricotPhase1 rules
       then fail_if (negb (IsSortedEVMOutputs (Outs tx))) errOutputsNotSorted
       else None)
  end.

(** The loop of [GasUsed] over the imported inputs. *)
Fixpoint addInputCosts (ins : list axc.TransferableInput) (cost : Z) : result Z :=
  match ins with
  | [] => Ok cost
  | i :: rest =>
      inCost ← TransferableIn_Cost (axc.In i);
      cost' ← Add64 cost inCost;
      addInputCosts rest cost'
  end.

Definition GasUsed (tx : t) (fixedFee : bool) : result Z :=
  let cost := calcBytesCost (length (UnsignedBytes tx)) in
  cost ← addInputCosts (ImportedInputs tx) cost;
  if fixedFee then Add64 cost AtomicTxBaseCost else Ok cost.

(** The unsigned transaction behind the [UnsignedAtomicTx] interface. *)
Definition asAtomicTx (tx : t) : UnsignedAtomicTx :=
  {| atomic_GasUsed := GasUsed tx |}.

(** The fee step of [SemanticVerify]: the [switch] on the rule set. *)
Definition produceFee (vm : VM) (stx : Tx) (baseFee : Z) (rules : Rules)
    (fc : FlowChecker) : result FlowChecker :=
  if IsApricotPhase3 rules then
    gasUsed ← atomic_GasUsed (UnsignedAtomicTx_ stx) (IsApricotPhase5 rules);
    txFee ← calculateDynamicFee gasUsed baseFee;
    Ok (Produce fc (snow.AXCAssetID (ctx vm)) txFee)
  else if IsApricotPhase2 rules then
    Ok (Produce fc (snow.AXCAssetID (ctx vm)) AxiaAtomicTxFee)
  else Ok fc.

(** The flow checker as it stands when [fc.Verify()] is called. *)
Definition flowOf (vm : VM) (stx : Tx) (tx : t) (baseFee : Z) (rules : Rules)
    : result FlowChecker :=
  fc ← produceFee vm stx baseFee rules NewFlowChecker;
  let fc := foldl (fun fc out => Produce fc (EVMOutput.AssetID out) (EVMOutput.Amount out))
                  fc (Outs tx) in
  let fc := foldl (fun fc i => Consume fc (axc.AssetID i) (axc.Amount i))
                  fc (ImportedInputs tx) in
  Ok fc.

(** The loop over the fetched UTXOs, from index [i] on.  An index outside
    [allUTXOBytes] or [stx.Creds] is a run-time panic. *)
Fixpoint verifyUTXOs (vm : VM) (stx : Tx) (tx : t) (allUTXOBytes : list Bytes)
    (i : nat) (ins : list axc.TransferableInput) : option error :=
  match ins with
  | [] => None
  | input :: rest =>
      match allUTXOBytes !! i, Creds stx !! i with
      | Some utxoBytes, Some cred =>
          match codec_Unmarshal vm utxoBytes with
          | Err e => Some (ErrUnmarshalUTXO e)
          | Ok utxo =>
              if negb (bool_decide (axc.utxoAsset utxo = axc.AssetID input))
              then Some errAssetIDMismatch
              else
                match fx_VerifyTransfer vm (UnsignedBytes tx) (axc.In input) cred
                                        (axc.utxoOut utxo) with
                | Some e => Some (ErrTransferVerify e)
                | None => verifyUTXOs vm stx tx allUTXOBytes (S i) rest
                end
          end
      | _, _ => Some panicIndexOutOfRange
      end
  end.

(** [SemanticVerify] *)
Definition SemanticVerify (tx : t) (vm : VM) (stx : Tx) (parent : option Block)
    (baseFee : Z) (rules : Rules) : option error :=
  Verify (Some tx) (ctx vm) rules >>?
  match flowOf vm stx tx baseFee rules with
  | Err e => Some e
  | Ok fc =>
      (ErrImportFlowCheck <$> FlowChecker_Verify fc) >>?
      fail_if (negb (bool_decide (length (Creds stx) = length (ImportedInputs tx))))
              (ErrImportCredCount (length (ImportedInputs tx)) (length (Creds stx))) >>?
      if negb (bootstrapped vm) then None
      else
        let utxoIDs :=
          range_assign (fun i => InputID (axc.UTXOID_ i)) 0 (ImportedInputs tx)
                       (replicate (length (ImportedInputs tx)) []) in
        match SharedMemory_Get vm (SourceChain tx) utxoIDs with
        | Err e => Some (ErrFetchUTXOs (SourceChain tx) e)
        | Ok allUTXOBytes =>
            verifyUTXOs vm stx tx allUTXOBytes 0 (ImportedInputs tx) >>?
            conflicts vm (InputUTXOs tx) parent
        end
  end.

(** [AtomicOps] *)
Definition AtomicOps (tx : t) : result (ID * Requests) :=
  let utxoIDs :=
    range_assign (fun i => InputID (axc.UTXOID_ i)) 0 (ImportedInputs tx)
                 (replicate (length (ImportedInputs tx)) []) in
  Ok (SourceChain tx, {| RemoveRequests := utxoIDs; PutRequests := [] |}).

(** [EVMStateTransfer]: the state object is changed in place. *)
Definition EVMStateTransfer (tx : t) (ctx : snow.Context) (state : StateDB)
    : StateDB * option error :=
  (foldl (fun state to =>
            if bool_decide (EVMOutput.AssetID to = snow.AXCAssetID ctx)
            then AddBalance state (EVMOutput.Address to) (EVMOutput.Amount to * x2cRate)
            else AddBalanceMultiCoin state (EVMOutput.Address to) (EVMOutput.AssetID to)
                                     (EVMOutput.Amount to))
         state (Outs tx),
   None).
End WithCollaborators.
End UnsignedImportTx.

(** ** UnsignedExportTx *)

Module UnsignedExportTx.
Section WithCollaborators.
Context `{Collaborators}.

Record t : Type := {
  Metadata : axc.Metadata;
  NetworkID : Z;          (* uint32 *)
  BlockchainID : ID;
  DestinationChain : ID;
  Ins : list EVMInput.t;
  ExportedOutputs : list axc.TransferableOutput
}.

Definition UnsignedBytes (tx : t) : Bytes := axc.unsignedBytes (Metadata tx).

(** The body of the loop of [Verify] over the exported outputs. *)
Definition verifyExportedOutput (tx : t) (ctx : snow.Context)
    (out : axc.TransferableOutput) : option error :=
  TransferableOutput_Verify out >>?
  let assetID := axc.OutAssetID out in
  fail_if (negb (bool_decide (assetID = snow.AXCAssetID ctx))
           && bool_decide (DestinationChain tx = PlatformChainID))
          errWrongChainID.

(** [Verify]; the receiver may be nil. *)
Definition Verify (tx : option t) (ctx : snow.Context) (rules : Rules) : option error :=
  match tx with
  | None => Some errNilTx
  | Some tx =>
      fail_if (bool_decide (length (ExportedOutputs tx) = 0%nat)) errNoExportOutputs >>?
      fail_if (negb (NetworkID tx =? snow.NetworkID ctx)) errWrongNetworkID >>?
      fail_if (negb (bool_decide (snow.ChainID ctx = BlockchainID tx))) errWrongBlockchainID >>?
      (if IsApricotPhase5 rules
       then match SameAllychain ctx (DestinationChain tx) with
            | Some _ => Some errWrongChainID
            | None => None
            end
       else fail_if (negb (bool_decide (DestinationChain tx = snow.SwapChainID ctx)))
                    errWrongChainID) >>?
      range_verify EVMInput_Verify (Ins tx) >>?
      range_verify (verifyExportedOutput tx ctx) (ExportedOutputs tx) >>?
      fail_if (negb (axc_IsSortedTransferableOutputs (ExportedOutputs tx))) errOutputsNotSorted >>?
      fail_if (IsApricotPhase1 rules && negb (IsSortedAndUniqueEVMInputs (Ins tx)))
              errInputsNotSortedUnique
  end.

(** [GasUsed] *)
Definition GasUsed (tx : t) (fixedFee : bool) : result Z :=
  let byteCost := calcBytesCost (length (UnsignedBytes tx)) in
  let numSigs := Z.of_nat (length (Ins tx)) in
  sigCost ← Mul64 numSigs CostPerSignature;
  cost ← Add64 byteCost sigCost;
  if fixedFee then Add64 cost AtomicTxBaseCost else Ok cost.

Definition asAtomicTx (tx : t) : UnsignedAtomicTx :=
  {| atomic_GasUsed := GasUsed tx |}.

(** The fee step of [SemanticVerify]: the [switch] on the rule set. *)
Definition produceFee (vm : VM) (stx : Tx) (baseFee : Z) (rules : Rules)
    (fc : FlowChecker) : result FlowChecker :=
  if IsApricotPhase3 rules then
    gasUsed ← atomic_GasUsed (UnsignedAtomicTx_ stx) (IsApricotPhase5 rules);
    txFee ← calculateDynamicFee gasUsed baseFee;
    Ok (Produce fc (snow.AXCAssetID (ctx vm)) txFee)
  else
    Ok (Produce fc (snow.AXCAssetID (ctx vm)) AxiaAtomicTxFee).

Definition flowOf (vm : VM) (stx : Tx) (tx : t) (baseFee : Z) (rules : Rules)
    : result FlowChecker :=
  fc ← produceFee vm stx baseFee rules NewFlowChecker;
  let fc := foldl (fun fc out => Produce fc (axc.OutAssetID out) (axc.OutAmount out))
                  fc (ExportedOutputs tx) in
  let fc := foldl (fun fc i => Consume fc (EVMInput.AssetID i) (EVMInput.Amount i))
                  fc (Ins tx) in
  Ok fc.

(** The body of the credential loop for the input at index [i]. *)
Definition verifyCredential (vm : VM) (tx : t) (input : EVMInput.t)
    (cred : Credential) : option error :=
  match cred with
  | other_Credential _ => Some ErrExpectedSecpCredential
  | secp256k1fx_Credential Sigs =>
      secp256k1fx_Credential_Verify Sigs >>?
      match Sigs with
      | [sig] =>
          match secpFactory_RecoverPublicKey vm (UnsignedBytes tx) sig with
          | Err e => Some e
          | Ok (other_PublicKey _) => Some ErrExpectedSecpPublicKey
          | Ok (PublicKeySECP256K1R pubKey) =>
              fail_if (negb (bool_decide
                         (EVMInput.Address input = PublicKeyToEthAddress pubKey)))
                      errPublicKeySignatureMismatch
          end
      | _ => Some (ErrExpectedOneSignature (length Sigs))
      end
  end.

(** The credential loop, from index [i] on.  An index outside [stx.Creds]
    is a run-time panic. *)
Fixpoint verifyCredentials (vm : VM) (stx : Tx) (tx : t) (i : nat)
    (ins : list EVMInput.t) : option error :=
  match ins with
  | [] => None
  | input :: rest =>
      match Creds stx !! i with
      | None => Some panicIndexOutOfRange
      | Some cred =>
          verifyCredential vm tx input cred >>?
          verifyCredentials vm stx tx (S i) rest
      end
  end.

(** [SemanticVerify] *)
Definition SemanticVerify (tx : t) (vm : VM) (stx : Tx) (parent : option Block)
    (baseFee : Z) (rules : Rules) : option error :=
  Verify (Some tx) (ctx vm) rules >>?
  match flowOf vm stx tx baseFee rules with
  | Err e => Some e
  | Ok fc =>
      (ErrExportFlowCheck <$> FlowChecker_Verify fc) >>?
      fail_if (negb (bool_decide (length (Ins tx) = length (Creds stx))))
              (ErrExportCredCount (length (Ins tx)) (length (Creds stx))) >>?
      verifyCredentials vm stx tx 0 (Ins tx)
  end.

(** One round of the first loop of [EVMStateTransfer]: the debit of one
    input, then the comparison of its nonce. *)
Definition transferInput (ctx : snow.Context) (state : StateDB) (from : EVMInput.t)
    : StateDB * option error :=
  let debited :=
    if bool_decide (EVMInput.AssetID from = snow.AXCAssetID ctx) then
      let amount := EVMInput.Amount from * x2cRate in
      if GetBalance state (EVMInput.Address from) <? amount
      then (state, Some errInsufficientFunds)
      else (SubBalance state (EVMInput.Address from) amount, None)
    else
      let amount := EVMInput.Amount from in
      if GetBalanceMultiCoin state (EVMInput.Address from) (EVMInput.AssetID from) <? amount
      then (state, Some errInsufficientFunds)
      else (SubBalanceMultiCoin state (EVMInput.Address from) (EVMInput.AssetID from) amount,
            None)
  in
  match debited with
  | (state, Some e) => (state, Some e)
  | (state, None) =>
      if negb (GetNonce state (EVMInput.Address from) =? EVMInput.Nonce from)
      then (state, Some errInvalidNonce)
      else (state, None)
  end.

(** The first loop: the state and the [addrs] map are threaded. *)
Fixpoint transferInputs (ctx : snow.Context) (ins : list EVMInput.t)
    (state : StateDB) (addrs : gmap Address Z)
    : StateDB * result (gmap Address Z) :=
  match ins with
  | [] => (state, Ok addrs)
  | from :: rest =>
      match transferInput ctx state from with
      | (state, Some e) => (state, Err e)
      | (state, None) =>
          transferInputs ctx rest state
                         (<[EVMInput.Address from := EVMInput.Nonce from]> addrs)
      end
  end.

(** [EVMStateTransfer]: the state object is changed in place, so the
    state is returned with the error. *)
Definition EVMStateTransfer (tx : t) (ctx : snow.Context) (state : StateDB)
    : StateDB * option error :=
  match transferInputs ctx (Ins tx) state ∅ with
  | (state, Err e) => (state, Some e)
  | (state, Ok addrs) =>
      (map_fold (fun addr nonce state =>
                   SetNonce state addr ((nonce + 1) mod 2 ^ 64))
                state addrs,
       None)
  end.
End WithCollaborators.
End UnsignedExportTx.

(** ** Specification-side definitions

    The notions the properties below are stated with.  None of them is
    used by the model above. *)

Definition sumZ (l : list Z) : Z := foldr Z.add 0 l.

(** The canonical key order of EVM outputs: (address, assetID),
    lexicographic on the bytes. *)
Definition bytes_lt (a b : Bytes) : Prop := bytes_compare a b = Lt.

Definition key_lt (a b : EVMOutput.t) : Prop :=
  bytes_lt (EVMOutput.Address a) (EVMOutput.Address b)
  \/ (EVMOutput.Address a = EVMOutput.Address b
      /\ bytes_lt (EVMOutput.AssetID a) (EVMOutput.AssetID b)).

Definition key_eq (a b : EVMOutput.t) : Prop :=
  EVMOutput.Address a = EVMOutput.Address b
  /\ EVMOutput.AssetID a = EVMOutput.AssetID b.

Definition key_le (a b : EVMOutput.t) : Prop := key_lt a b \/ key_eq a b.

(** The total amount a list of (asset, amount) entries holds of an asset. *)
Definition assetTotal (entries : list (ID * Z)) (asset : ID) : Z :=
  sumZ (map snd (filter (fun entry => fst entry = asset) entries)).

(** What a map of the flow checker holds of an asset. *)
Definition held (value : gmap ID Z) (asset : ID) : Z := default 0 (value !! asset).

(** The additions of a list of entries into one map of the flow checker. *)
Definition addAll (st : gmap ID Z * option error) (entries : list (ID * Z))
    : gmap ID Z * option error :=
  foldl (fun st entry => FlowChecker_add (fst st) (snd st) (fst entry) (snd entry))
        st entries.

(** The check of the structural verification of an import that an error
    value names. *)
Definition importCheckOf (e : error) : option nat :=
  match e with
  | errNoImportInputs => Some 0%nat
  | errWrongNetworkID => Some 1%nat
  | errWrongBlockchainID => Some 2%nat
  | errNoEVMOutputs => Some 3%nat
  | errWrongChainID => Some 4%nat
  | ErrEVMOutputVerify _ => Some 5%nat
  | ErrAtomicInputVerify _ => Some 6%nat
  | errInputsNotSortedUnique => Some 7%nat
  | errOutputsNotSortedUnique | errOutputsNotSorted => Some 8%nat
  | _ => None
  end.

(** The first failure of a list of check outcomes. *)
Definition first_failure (checks : list (option error)) : option error :=
  head (omap id checks).

(** The rule set with the output-order policy switched off. *)
Definition noOutputOrder (rules : Rules) : Rules :=
  {| IsApricotPhase1 := false;
     IsApricotPhase2 := false;
     IsApricotPhase3 := IsApricotPhase3 rules;
     IsApricotPhase4 := IsApricotPhase4 rules;
     IsApricotPhase5 := IsApricotPhase5 rules |}.

(** The virtual machine with its stores and verifiers replaced. *)
Definition withStores (vm : VM)
    (get : ID -> list Bytes -> result (list Bytes))
    (unmarshal : Bytes -> result axc.UTXO)
    (verifyTransfer :
       Bytes -> axc.TransferableIn -> Credential -> axc.TransferableOut -> option error)
    (conflicts : gset ID -> option Block -> option error) : VM :=
  {| ctx := ctx vm;
     SharedMemory_Get := get;
     bootstrapped := bootstrapped vm;
     codec_Unmarshal := unmarshal;
     fx_VerifyTransfer := verifyTransfer;
     conflicts := conflicts;
     secpFactory_RecoverPublicKey := secpFactory_RecoverPublicKey vm |}.

Module ImportSpec.
Section WithCollaborators.
Context `{Collaborators}.

(** The checks of the structural verification of a non-nil import
    transaction, in the order of the specification. *)
Definition importChecks (tx : UnsignedImportTx.t) (ctx : snow.Context) (rules : Rules)
    : list (option error) :=
  [ (* imported inputs are not empty *)
    fail_if (bool_decide (UnsignedImportTx.ImportedInputs tx = [])) errNoImportInputs;
    (* network ID *)
    fail_if (bool_decide (UnsignedImportTx.NetworkID tx <> snow.NetworkID ctx))
            errWrongNetworkID;
    (* blockchain ID *)
    fail_if (bool_decide (UnsignedImportTx.BlockchainID tx <> snow.ChainID ctx))
            errWrongBlockchainID;
    (* outputs are mandatory from phase 3 on *)
    fail_if (IsApricotPhase3 rules && bool_decide (UnsignedImportTx.Outs tx = []))
            errNoEVMOutputs;
    (* source chain *)
    fail_if (if IsApricotPhase5 rules
             then bool_decide (is_Some (SameSubnet ctx (UnsignedImportTx.SourceChain tx)))
             else bool_decide (UnsignedImportTx.SourceChain tx <> snow.SwapChainID ctx))
            errWrongChainID;
    (* every output *)
    ErrEVMOutputVerify <$> head (omap EVMOutput_Verify (UnsignedImportTx.Outs tx));
    (* every input *)
    ErrAtomicInputVerify <$>
      head (omap TransferableInput_Verify (UnsignedImportTx.ImportedInputs tx));
    (* inputs sorted and unique *)
    fail_if (negb (axc_IsSortedAndUniqueTransferableInputs
                     (UnsignedImportTx.ImportedInputs tx)))
            errInputsNotSortedUnique;
    (* output order, by phase *)
    if IsApricotPhase2 rules
    then fail_if (negb (IsSortedAndUniqueEVMOutputs (UnsignedImportTx.Outs tx)))
                 errOutputsNotSortedUnique
    else if IsApricotPhase1 rules
    then fail_if (negb (IsSortedEVMOutputs (UnsignedImportTx.Outs tx)))
                 errOutputsNotSorted
    else None ].

(** The fee an import has to produce: dynamic from phase 3 on, the fixed
    fee in phase 2, none before. *)
Definition importFee (tx : UnsignedImportTx.t) (baseFee : Z) (rules : Rules) : result Z :=
  if IsApricotPhase3 rules then
    gasUsed ← UnsignedImportTx.GasUsed tx (IsApricotPhase5 rules);
    calculateDynamicFee gasUsed baseFee
  else if IsApricotPhase2 rules then Ok AxiaAtomicTxFee
  else Ok 0.


(** The output-order policy of the rule set. *)
Definition outputOrder (tx : UnsignedImportTx.t) (rules : Rules) : option error :=
  if IsApricotPhase2 rules
  then fail_if (negb (IsSortedAndUniqueEVMOutputs (UnsignedImportTx.Outs tx)))
               errOutputsNotSortedUnique
  else if IsApricotPhase1 rules
  then fail_if (negb (IsSortedEVMOutputs (UnsignedImportTx.Outs tx))) errOutputsNotSorted
  else None.

(** The outcome of the fee computation and of the flow check. *)
Definition flowCheck (vm : VM) (stx : Tx) (tx : UnsignedImportTx.t) (baseFee : Z)
    (rules : Rules) : option error :=
  match UnsignedImportTx.flowOf vm stx tx baseFee rules with
  | Ok fc => FlowChecker_Verify fc
  | Err e => Some e
  end.

(** Per-asset totals of an import: what its outputs (and the fee, for the
    native asset) produce, and what its inputs consume. *)
Definition outEntries (tx : UnsignedImportTx.t) : list (ID * Z) :=
  map (fun out => (EVMOutput.AssetID out, EVMOutput.Amount out)) (UnsignedImportTx.Outs tx).

Definition inEntries (tx : UnsignedImportTx.t) : list (ID * Z) :=
  map (fun i => (axc.AssetID i, axc.Amount i)) (UnsignedImportTx.ImportedInputs tx).

Definition producedTotal (axcID : ID) (fee : Z) (tx : UnsignedImportTx.t) (asset : ID) : Z :=
  (if bool_decide (asset = axcID) then fee else 0) + assetTotal (outEntries tx) asset.

Definition consumedTotal (tx : UnsignedImportTx.t) (asset : ID) : Z :=
  assetTotal (inEntries tx) asset.

(** The books close: for every asset the consumed total covers the
    produced total, within the 64-bit range. *)
Definition booksClose (axcID : ID) (fee : Z) (tx : UnsignedImportTx.t) : Prop :=
  forall asset : ID,
    producedTotal axcID fee tx asset <= consumedTotal tx asset
    /\ consumedTotal tx asset <= MaxUint64.
End WithCollaborators.
End ImportSpec.

Module ExportSpec.
Section WithCollaborators.
Context `{Collaborators}.

(** An input and its credential agree: the credential is a secp256k1
    credential with one signature, whose recovered key maps to the
    address of the input. *)
Definition signedBy (vm : VM) (tx : UnsignedExportTx.t) (input : EVMInput.t)
    (cred : Credential) : Prop :=
  exists sig pubKey,
    cred = secp256k1fx_Credential [sig]
    /\ secpFactory_RecoverPublicKey vm (UnsignedExportTx.UnsignedBytes tx) sig
       = Ok (PublicKeySECP256K1R pubKey)
    /\ PublicKeyToEthAddress pubKey = EVMInput.Address input.
End WithCollaborators.
End ExportSpec.

(** ** Test fixtures

    The values of [NewContext] and of the test tables, as far as the
    properties below need them.  The collaborators of the tests: a peer
    chain is the swap chain or the platform chain, never the chain itself;
    an input or output of amount zero is rejected; imported inputs are
    ordered by (transaction ID, output index). *)

Definition testPeerChain (c : snow.Context) (peer : ID) : option error :=
  if bool_decide (peer = snow.ChainID c) then Some (errLibrary 1)
  else if bool_decide (peer = snow.SwapChainID c) || bool_decide (peer = [])
  then None
  else Some (errLibrary 6).

Definition testInputLess (a b : axc.TransferableInput) : bool :=
  match bytes_compare (axc.TxID (axc.UTXOID_ a)) (axc.TxID (axc.UTXOID_ b)) with
  | Lt => true
  | Gt => false
  | Eq => axc.OutputIndex (axc.UTXOID_ a) <? axc.OutputIndex (axc.UTXOID_ b)
  end.

Definition testCollaborators : Collaborators := {|
  PlatformChainID := [];
  SameSubnet := testPeerChain;
  SameAllychain := testPeerChain;
  TransferableInput_Verify := fun i =>
    if axc.Amount i =? 0 then Some (errLibrary 7) else None;
  TransferableOutput_Verify := fun out =>
    if axc.OutAmount out =? 0 then Some (errLibrary 8) else None;
  axc_IsSortedAndUniqueTransferableInputs := utils_IsSortedAndUnique testInputLess;
  axc_IsSortedTransferableOutputs := fun _ => true;
  TransferableIn_Cost := fun i =>
    Mul64 (Z.of_nat (length (axc.SigIndices i))) CostPerSignature;
  InputID := fun u => axc.TxID u ++ [Z.to_N (axc.OutputIndex u)];
  EVMOutput_Verify := fun out =>
    if EVMOutput.Amount out =? 0 then Some (errLibrary 2) else None;
  EVMInput_Verify := fun i =>
    if EVMInput.Amount i =? 0 then Some (errLibrary 3) else None;
  IsSortedAndUniqueEVMInputs := fun _ => true;
  calcBytesCost := fun n => Z.of_nat n;
  PublicKeyToEthAddress := fun key => key;
  secp256k1fx_Credential_Verify := fun _ => None
|}.

Definition testNetworkID : Z := 5.
Definition testCChainID : ID := [2%N].
Definition testSwapChainID : ID := [3%N].
Definition testAxcAssetID : ID := [9%N].
Definition testEthAddr0 : Address := [1%N].
Definition testEthAddr1 : Address := [4%N].

Definition NewContext : snow.Context :=
  {| snow.NetworkID := testNetworkID;
     snow.ChainID := testCChainID;
     snow.SwapChainID := testSwapChainID;
     snow.AXCAssetID := testAxcAssetID |}.

Definition testVM (isBootstrapped : bool) : VM :=
  {| ctx := NewContext;
     SharedMemory_Get := fun _ _ => Err (errLibrary 4);
     bootstrapped := isBootstrapped;
     codec_Unmarshal := fun _ => Err (errLibrary 5);
     fx_VerifyTransfer := fun _ _ _ _ => None;
     conflicts := fun _ _ => None;
     secpFactory_RecoverPublicKey := fun _ sig => Ok (PublicKeySECP256K1R sig) |}.

Definition testMetadata : axc.Metadata :=
  {| axc.unsignedBytes := replicate 230 0%N; axc.id := [7%N] |}.

Definition testInput (index amount : Z) : axc.TransferableInput :=
  {| axc.UTXOID_ := {| axc.TxID := [8%N]; axc.OutputIndex := index |};
     axc.Asset := testAxcAssetID;
     axc.In := {| axc.Amt := amount; axc.SigIndices := [0] |} |}.

Definition testOut (addr : Address) (amount : Z) : EVMOutput.t :=
  {| EVMOutput.Address := addr; EVMOutput.Amount := amount; EVMOutput.AssetID := testAxcAssetID |}.

(** The import of TestImportTxVerify: two inputs of 10,000,000 and the
    outputs 9,000,000 and 10,000,000. *)
Definition importTx : UnsignedImportTx.t :=
  {| UnsignedImportTx.Metadata := testMetadata;
     UnsignedImportTx.NetworkID := testNetworkID;
     UnsignedImportTx.BlockchainID := testCChainID;
     UnsignedImportTx.SourceChain := testSwapChainID;
     UnsignedImportTx.ImportedInputs := [testInput 0 10000000; testInput 1 10000000];
     UnsignedImportTx.Outs :=
       [testOut testEthAddr0 (10000000 - AxiaAtomicTxFee); testOut testEthAddr1 10000000] |}.

Definition withOuts (tx : UnsignedImportTx.t) (outs : list EVMOutput.t) : UnsignedImportTx.t :=
  {| UnsignedImportTx.Metadata := UnsignedImportTx.Metadata tx;
     UnsignedImportTx.NetworkID := UnsignedImportTx.NetworkID tx;
     UnsignedImportTx.BlockchainID := UnsignedImportTx.BlockchainID tx;
     UnsignedImportTx.SourceChain := UnsignedImportTx.SourceChain tx;
     UnsignedImportTx.ImportedInputs := UnsignedImportTx.ImportedInputs tx;
     UnsignedImportTx.Outs := outs |}.

(** "unsorted outputs": the two outputs swapped. *)
Definition importTxSwapped : UnsignedImportTx.t :=
  withOuts importTx
    [testOut testEthAddr1 10000000; testOut testEthAddr0 (10000000 - AxiaAtomicTxFee)].

(** "invalid network ID" with the outputs swapped. *)
Definition importTxSwappedWrongNetwork : UnsignedImportTx.t :=
  {| UnsignedImportTx.Metadata := testMetadata;
     UnsignedImportTx.NetworkID := testNetworkID + 1;
     UnsignedImportTx.BlockchainID := testCChainID;
     UnsignedImportTx.SourceChain := testSwapChainID;
     UnsignedImportTx.ImportedInputs := [testInput 0 10000000; testInput 1 10000000];
     UnsignedImportTx.Outs :=
       [testOut testEthAddr1 10000000; testOut testEthAddr0 (10000000 - AxiaAtomicTxFee)] |}.

(** The import of TestImportTxSemanticVerify: one input of 1, one output
    of 1, no fee left. *)
Definition importTxOneToOne : UnsignedImportTx.t :=
  {| UnsignedImportTx.Metadata := testMetadata;
     UnsignedImportTx.NetworkID := testNetworkID;
     UnsignedImportTx.BlockchainID := testCChainID;
     UnsignedImportTx.SourceChain := testSwapChainID;
     UnsignedImportTx.ImportedInputs := [testInput 0 1];
     UnsignedImportTx.Outs := [testOut testEthAddr0 1] |}.

Definition mkImportTx (networkID : Z) (blockchainID sourceChain : ID)
    (ins : list axc.TransferableInput) (outs : list EVMOutput.t) : UnsignedImportTx.t :=
  {| UnsignedImportTx.Metadata := testMetadata;
     UnsignedImportTx.NetworkID := networkID;
     UnsignedImportTx.BlockchainID := blockchainID;
     UnsignedImportTx.SourceChain := sourceChain;
     UnsignedImportTx.ImportedInputs := ins;
     UnsignedImportTx.Outs := outs |}.

(** The table of TestImportTxVerify: transaction, rule set, expected
    result.  (The row with a nil input has no counterpart: imported inputs
    are values here.) *)
Definition TestImportTxVerify_rows : list (option UnsignedImportTx.t * Rules * option error) :=
  let ins := UnsignedImportTx.ImportedInputs importTx in
  let outs := UnsignedImportTx.Outs importTx in
  let out0 := testOut testEthAddr0 (10000000 - AxiaAtomicTxFee) in
  let out1 := testOut testEthAddr1 10000000 in
  let tx := mkImportTx testNetworkID testCChainID in
  [ (* nil tx *)
    (None, apricotRulesPhase0, Some errNilTx);
    (* valid import tx *)
    (Some importTx, apricotRulesPhase0, None);
    (* invalid network ID *)
    (Some (mkImportTx (testNetworkID + 1) testCChainID testSwapChainID ins outs),
     apricotRulesPhase0, Some errWrongNetworkID);
    (* invalid blockchain ID *)
    (Some (mkImportTx testNetworkID [11%N] testSwapChainID ins outs),
     apricotRulesPhase0, Some errWrongBlockchainID);
    (* Core-chain source before AP5 *)
    (Some (tx [] ins outs), apricotRulesPhase0, Some errWrongChainID);
    (* Core-chain source after AP5 *)
    (Some (tx [] ins outs), apricotRulesPhase5, None);
    (* invalid source chain ID *)
    (Some (tx [12%N] ins outs), apricotRulesPhase5, Some errWrongChainID);
    (* no inputs *)
    (Some (tx testSwapChainID [] outs), apricotRulesPhase0, Some errNoImportInputs);
    (* inputs sorted incorrectly *)
    (Some (tx testSwapChainID (rev ins) outs), apricotRulesPhase0,
     Some errInputsNotSortedUnique);
    (* unsorted outputs phase 0 passes verification *)
    (Some (tx testSwapChainID ins [out1; out0]), apricotRulesPhase0, None);
    (* non-unique outputs phase 0 passes verification *)
    (Some (tx testSwapChainID ins [out0; out0]), apricotRulesPhase0, None);
    (* unsorted outputs phase 1 fails verification *)
    (Some (tx testSwapChainID ins [out1; out0]), apricotRulesPhase1,
     Some errOutputsNotSorted);
    (* non-unique outputs phase 1 passes verification *)
    (Some (tx testSwapChainID ins [out0; out0]), apricotRulesPhase1, None);
    (* outputs not sorted and unique phase 2 fails verification *)
    (Some (tx testSwapChainID ins [out0; out0]), apricotRulesPhase2,
     Some errOutputsNotSortedUnique);
    (* outputs not sorted phase 2 fails verification *)
    (Some (tx testSwapChainID ins [out1; out0]), apricotRulesPhase2,
     Some errOutputsNotSortedUnique);
    (* invalid EVMOutput fails verification *)
    (Some (tx testSwapChainID ins [testOut testEthAddr0 0]), apricotRulesPhase0,
     Some (ErrEVMOutputVerify (errLibrary 2)));
    (* no outputs apricot phase 3 *)
    (Some (tx testSwapChainID ins []), apricotRulesPhase3, Some errNoEVMOutputs) ].

Definition signedWith (utx : UnsignedAtomicTx) (creds : list Credential) : Tx :=
  {| UnsignedAtomicTx_ := utx; Creds := creds |}.

Definition testEVMInput (addr : Address) (amount nonce : Z) : EVMInput.t :=
  {| EVMInput.Address := addr; EVMInput.Amount := amount;
     EVMInput.AssetID := testAxcAssetID; EVMInput.Nonce := nonce |}.

Definition testExportedOutput (asset : ID) (amount : Z) : axc.TransferableOutput :=
  {| axc.OutAsset := asset;
     axc.Out := {| axc.OutAmt := amount; axc.Locktime := 0; axc.Threshold := 1;
                   axc.Addrs := [[6%N]] |} |}.

Definition exportTxTo (dest : ID) (ins : list EVMInput.t)
    (outs : list axc.TransferableOutput) : UnsignedExportTx.t :=
  {| UnsignedExportTx.Metadata := testMetadata;
     UnsignedExportTx.NetworkID := testNetworkID;
     UnsignedExportTx.BlockchainID := testCChainID;
     UnsignedExportTx.DestinationChain := dest;
     UnsignedExportTx.Ins := ins;
     UnsignedExportTx.ExportedOutputs := outs |}.

(** An export of 1 paying the fixed fee from one account. *)
Definition exportTx : UnsignedExportTx.t :=
  exportTxTo testSwapChainID
    [testEVMInput testEthAddr0 (AxiaAtomicTxFee + 1) 0]
    [testExportedOutput testAxcAssetID 1].

(** A ledger in which the first test account holds five native units. *)
Definition testState : StateDB :=
  {| balances := {[ testEthAddr0 := 5 * x2cRate ]}; multiCoin := ∅; nonces := ∅ |}.

(** An export whose only input claims nonce 1 for an account at nonce 0. *)
Definition exportTxStaleNonce : UnsignedExportTx.t :=
  exportTxTo testSwapChainID
    [testEVMInput testEthAddr0 1 1]
    [testExportedOutput testAxcAssetID 1].

(** * Further functions of the transaction files *)

(** ** Checked subtraction ([utils/math]) *)

(** The error of [math.Sub64], an error value of the library. *)
Definition errUnderflow : error := errLibrary 9.

(** [math.Sub64]: the difference, or an error when it would be negative. *)
Definition Sub64 (a b : Z) : result Z :=
  if a <? b then Err errUnderflow else Ok (a - b).

(** ** Burned amounts *)

(** The two loops of [Burned]: the checked sum of the amounts of the
    entries that carry [assetID], starting from [acc]. *)
Fixpoint addMatching {A} (asset : A -> ID) (amount : A -> Z) (assetID : ID)
    (l : list A) (acc : Z) : result Z :=
  match l with
  | [] => Ok acc
  | x :: rest =>
      if bool_decide (asset x = assetID)
      then acc' ← Add64 acc (amount x); addMatching asset amount assetID rest acc'
      else addMatching asset amount assetID rest acc
  end.

(** [(tx *UnsignedImportTx).Burned] *)
Definition UnsignedImportTx_Burned (tx : UnsignedImportTx.t) (assetID : ID) : result Z :=
  spent ← addMatching EVMOutput.AssetID EVMOutput.Amount assetID (UnsignedImportTx.Outs tx) 0;
  input ← addMatching axc.AssetID axc.Amount assetID (UnsignedImportTx.ImportedInputs tx) 0;
  Sub64 input spent.

(** [(tx *UnsignedExportTx).Burned] *)
Definition UnsignedExportTx_Burned (tx : UnsignedExportTx.t) (assetID : ID) : result Z :=
  spent ← addMatching axc.OutAssetID axc.OutAmount assetID
             (UnsignedExportTx.ExportedOutputs tx) 0;
  input ← addMatching EVMInput.AssetID EVMInput.Amount assetID (UnsignedExportTx.Ins tx) 0;
  Sub64 input spent.

(** ** Atomic operations of an export *)

(** [Codec.Marshal(codecVersion, utxo)], declared outside the sources. *)
Class CodecCollaborator : Type := {
  Codec_Marshal : axc.UTXO -> result Bytes
}.

(** A slot of [make([]*atomic.Element, n)] that has not been assigned. *)
Definition nilElement : Element := {| Key := []; Value := []; Traits := [] |}.

(** The UTXO an export creates for its output at index [i]; the index is
    converted to [uint32]. *)
Definition exportedUTXO (txID : ID) (i : nat) (out : axc.TransferableOutput) : axc.UTXO :=
  {| axc.utxoID := {| axc.TxID := txID; axc.OutputIndex := Z.of_nat i mod 2 ^ 32 |};
     axc.utxoAsset := axc.OutAssetID out;
     axc.utxoOut := axc.Out out |}.

Section ExportAtomicOps.
Context `{Collaborators} `{CodecCollaborator}.

(** The loop of [AtomicOps] over the exported outputs, from index [i] on:
    a failing [Marshal] ends the call.  The outputs of the model are of the
    one kind that has addresses, so the traits are always set. *)
Fixpoint fillElements (txID : ID) (i : nat) (outs : list axc.TransferableOutput)
    (elems : list Element) : result (list Element) :=
  match outs with
  | [] => Ok elems
  | out :: rest =>
      let utxo := exportedUTXO txID i out in
      utxoBytes ← Codec_Marshal utxo;
      let elem := {| Key := InputID (axc.utxoID utxo);
                     Value := utxoBytes;
                     Traits := axc.Addrs (axc.utxoOut utxo) |} in
      fillElements txID (S i) rest (<[i := elem]> elems)
  end.

(** [(tx *UnsignedExportTx).AtomicOps] *)
Definition UnsignedExportTx_AtomicOps (tx : UnsignedExportTx.t) : result (ID * Requests) :=
  let txID := axc.id (UnsignedExportTx.Metadata tx) in
  elems ← fillElements txID 0 (UnsignedExportTx.ExportedOutputs tx)
             (replicate (length (UnsignedExportTx.ExportedOutputs tx)) nilElement);
  Ok (UnsignedExportTx.DestinationChain tx,
      {| RemoveRequests := []; PutRequests := elems |}).
End ExportAtomicOps.

(** ** Specification-side definitions for the export *)

Module ExportFlowSpec.
Section WithCollaborators.
Context `{Collaborators}.

(** The checks of the structural verification of a non-nil export
    transaction, in the order of the source. *)
Definition exportChecks (tx : UnsignedExportTx.t) (ctx : snow.Context) (rules : Rules)
    : list (option error) :=
  [ fail_if (bool_decide (UnsignedExportTx.ExportedOutputs tx = [])) errNoExportOutputs;
    fail_if (bool_decide (UnsignedExportTx.NetworkID tx <> snow.NetworkID ctx))
            errWrongNetworkID;
    fail_if (bool_decide (UnsignedExportTx.BlockchainID tx <> snow.ChainID ctx))
            errWrongBlockchainID;
    fail_if (if IsApricotPhase5 rules
             then bool_decide (is_Some (SameAllychain ctx
                                          (UnsignedExportTx.DestinationChain tx)))
             else bool_decide (UnsignedExportTx.DestinationChain tx <> snow.SwapChainID ctx))
            errWrongChainID;
    head (omap EVMInput_Verify (UnsignedExportTx.Ins tx));
    head (omap (fun out =>
                  match TransferableOutput_Verify out with
                  | Some e => Some e
                  | None =>
                      fail_if (bool_decide (axc.OutAssetID out <> snow.AXCAssetID ctx
                                            /\ UnsignedExportTx.DestinationChain tx
                                               = PlatformChainID))
                              errWrongChainID
                  end)
               (UnsignedExportTx.ExportedOutputs tx));
    fail_if (negb (axc_IsSortedTransferableOutputs (UnsignedExportTx.ExportedOutputs tx)))
            errOutputsNotSorted;
    fail_if (IsApricotPhase1 rules
             && negb (IsSortedAndUniqueEVMInputs (UnsignedExportTx.Ins tx)))
            errInputsNotSortedUnique ].

(** The fee an export has to produce: dynamic from phase 3 on, the fixed
    fee in every earlier phase. *)
Definition exportFee (tx : UnsignedExportTx.t) (baseFee : Z) (rules : Rules) : result Z :=
  if IsApricotPhase3 rules then
    gasUsed ← UnsignedExportTx.GasUsed tx (IsApricotPhase5 rules);
    calculateDynamicFee gasUsed baseFee
  else Ok AxiaAtomicTxFee.

Definition flowCheck (vm : VM) (stx : Tx) (tx : UnsignedExportTx.t) (baseFee : Z)
    (rules : Rules) : option error :=
  match UnsignedExportTx.flowOf vm stx tx baseFee rules with
  | Ok fc => FlowChecker_Verify fc
  | Err e => Some e
  end.

Definition outEntries (tx : UnsignedExportTx.t) : list (ID * Z) :=
  map (fun out => (axc.OutAssetID out, axc.OutAmount out)) (UnsignedExportTx.ExportedOutputs tx).

Definition inEntries (tx : UnsignedExportTx.t) : list (ID * Z) :=
  map (fun i => (EVMInput.AssetID i, EVMInput.Amount i)) (UnsignedExportTx.Ins tx).

(** The books of an export close: for every asset the inputs cover the
    exported outputs (and the fee, for the native asset), within the 64-bit
    range. *)
Definition booksClose (axcID : ID) (fee : Z) (tx : UnsignedExportTx.t) : Prop :=
  forall asset : ID,
    (if bool_decide (asset = axcID) then fee else 0) + assetTotal (outEntries tx) asset
    <= assetTotal (inEntries tx) asset
    /\ assetTotal (inEntries tx) asset <= MaxUint64.

(** An input and its credential agree, the credential having passed its own
    check. *)
Definition verifiedBy (vm : VM) (tx : UnsignedExportTx.t) (input : EVMInput.t)
    (cred : Credential) : Prop :=
  exists sig pubKey,
    cred = secp256k1fx_Credential [sig]
    /\ secp256k1fx_Credential_Verify [sig] = None
    /\ secpFactory_RecoverPublicKey vm (UnsignedExportTx.UnsignedBytes tx) sig
       = Ok (PublicKeySECP256K1R pubKey)
    /\ PublicKeyToEthAddress pubKey = EVMInput.Address input.
End WithCollaborators.
End ExportFlowSpec.

(** The addresses an export spends from. *)
Definition exportAddresses (tx : UnsignedExportTx.t) : list Address :=
  map EVMInput.Address (UnsignedExportTx.Ins tx).

(** The native amount an export takes from an address, and the amount of
    another asset. *)
Definition nativeDebit (ctx : snow.Context) (ins : list EVMInput.t) (addr : Address) : Z :=
  sumZ (map EVMInput.Amount
          (filter (fun i => EVMInput.Address i = addr
                            /\ EVMInput.AssetID i = snow.AXCAssetID ctx) ins)).

Definition coinDebit (ctx : snow.Context) (ins : list EVMInput.t) (addr : Address)
    (coin : ID) : Z :=
  sumZ (map EVMInput.Amount
          (filter (fun i => EVMInput.Address i = addr
                            /\ EVMInput.AssetID i = coin
                            /\ EVMInput.AssetID i <> snow.AXCAssetID ctx) ins)).

(** The native amount an import gives to an address, and the amount of
    another asset. *)
Definition nativeCredit (ctx : snow.Context) (outs : list EVMOutput.t) (addr : Address) : Z :=
  sumZ (map EVMOutput.Amount
          (filter (fun out => EVMOutput.Address out = addr
                              /\ EVMOutput.AssetID out = snow.AXCAssetID ctx) outs)).

Definition coinCredit (ctx : snow.Context) (outs : list EVMOutput.t) (addr : Address)
    (coin : ID) : Z :=
  sumZ (map EVMOutput.Amount
          (filter (fun out => EVMOutput.Address out = addr
                              /\ EVMOutput.AssetID out = coin
                              /\ EVMOutput.AssetID out <> snow.AXCAssetID ctx) outs)).

(** The cost of every imported input is [Ok] and a 64-bit value. *)
Definition inputCosts `{Collaborators} (ins : list axc.TransferableInput)
    (costs : list Z) : Prop :=
  Forall2 (fun i c => TransferableIn_Cost (axc.In i) = Ok c /\ is_uint64 c) ins costs.

(** The element an export puts into shared memory for its output at index
    [i], once the UTXO has been marshalled to [utxoBytes]. *)
Definition exportedElement `{Collaborators} (txID : ID) (i : nat)
    (out : axc.TransferableOutput) (utxoBytes : Bytes) : Element :=
  {| Key := InputID (axc.utxoID (exportedUTXO txID i out));
     Value := utxoBytes;
     Traits := axc.Addrs (axc.Out out) |}.

(** An export that spends from the first test account in two inputs, both
    carrying the nonce the account has before the transaction. *)
Definition exportTxTwice : UnsignedExportTx.t :=
  exportTxTo testSwapChainID
    [testEVMInput testEthAddr0 1 0; testEVMInput testEthAddr0 2 0]
    [testExportedOutput testAxcAssetID 3].

(** ** Specification-side definitions for the fetched UTXOs of an import *)

Module ImportFetchSpec.

(** Every imported input has, at its own index, a fetched UTXO that
    unmarshals, carries the asset of the input and is released by the
    credential at the same index. *)
Definition utxosVerified (vm : VM) (stx : Tx) (tx : UnsignedImportTx.t)
    (allUTXOBytes : list Bytes) (from : nat) (ins : list axc.TransferableInput) : Prop :=
  forall k input,
    ins !! k = Some input ->
    exists utxoBytes cred utxo,
      allUTXOBytes !! (from + k)%nat = Some utxoBytes
      /\ Creds stx !! (from + k)%nat = Some cred
      /\ codec_Unmarshal vm utxoBytes = Ok utxo
      /\ axc.utxoAsset utxo = axc.AssetID input
      /\ fx_VerifyTransfer vm (UnsignedImportTx.UnsignedBytes tx) (axc.In input) cred
                           (axc.utxoOut utxo) = None.

(** The UTXO the test store holds for every key. *)
Definition testUTXO : axc.UTXO :=
  {| axc.utxoID := {| axc.TxID := [8%N]; axc.OutputIndex := 0 |};
     axc.utxoAsset := testAxcAssetID;
     axc.utxoOut := {| axc.OutAmt := 1; axc.Locktime := 0; axc.Threshold := 1;
                       axc.Addrs := [[6%N]] |} |}.

(** A bootstrapped node whose shared memory returns one value per key. *)
Definition testFetchingVM : VM :=
  withStores (testVM true) (fun _ keys => Ok (map (fun _ => [1%N]) keys))
             (fun _ => Ok testUTXO) (fun _ _ _ _ => None) (fun _ _ => None).
End ImportFetchSpec.

(** * The account manager ([accounts/manager.go]) *)

(** ** [sort.Search] of the Go standard library *)

(** The loop of [sort.Search]: a binary search between [i] and [j].  Every
    round with [i < j] shrinks [j - i], so [j - i] rounds of fuel are
    enough. *)
Fixpoint Search_loop (fuel : nat) (f : nat -> bool) (i j : nat) : nat :=
  match fuel with
  | O => i
  | S fuel =>
      if (i <? j)%nat then
        let h := ((i + j) / 2)%nat in
        if negb (f h) then Search_loop fuel f (h + 1) j else Search_loop fuel f i h
      else i
  end.

Definition sort_Search (n : nat) (f : nat -> bool) : nat := Search_loop n f 0 n.

Module accounts.

(** The errors of [accounts/errors.go]; [errExternal] stands for the
    errors of code outside the sources. *)
Inductive error : Type :=
| ErrUnknownAccount
| ErrUnknownAxiaWallet
| ErrNotSupported
| ErrInvalidPassphrase
| ErrAxiaWalletAlreadyOpen
| ErrAxiaWalletClosed
| AuthNeededError (Needed : Bytes)
| errExternal (code : nat).

(** A value returned together with an error. *)
Inductive result (A : Type) : Type :=
| Ok (a : A)
| Err (e : error).
Arguments Ok {A} a.
Arguments Err {A} e.

(** [accounts.URL], its zero value, its comparison [Cmp] and [parseURL] are
    declared in a file outside the sources. *)
Class URLCollaborator : Type := {
  URL : Type;
  URL_eq_dec :: EqDecision URL;
  zeroURL : URL;
  URL_Cmp : URL -> URL -> Z;
  parseURL : Bytes -> result URL
}.
#[global] Existing Instance URL_eq_dec.

Section WithURL.
Context `{URLCollaborator}.

Record Account : Type := { Account_Address : Bytes; Account_URL : URL }.

(** The methods of the [AxiaWallet] interface the manager calls. *)
Record AxiaWallet : Type := {
  AxiaWallet_URL : URL;
  AxiaWallet_Accounts : list Account;
  AxiaWallet_Contains : Account -> bool
}.

Inductive AxiaWalletEventType : Type :=
| AxiaWalletArrived
| AxiaWalletOpened
| AxiaWalletDropped.

Record AxiaWalletEvent : Type := {
  Event_AxiaWallet : AxiaWallet;
  Kind : AxiaWalletEventType
}.

(** The method of the [Backend] interface the manager reads wallets with. *)
Record Backend : Type := { Backend_AxiaWallets : list AxiaWallet }.

(** The closure [merge] and [drop] hand to [sort.Search]:
    [slice[i].URL().Cmp(axiawallet.URL()) >= 0].  An index outside the
    slice would be a run-time panic; the search asks for none. *)
Definition urlAtLeast (slice : list AxiaWallet) (axiawallet : AxiaWallet) (i : nat) : bool :=
  match slice !! i with
  | Some w => 0 <=? URL_Cmp (AxiaWallet_URL w) (AxiaWallet_URL axiawallet)
  | None => false
  end.

(** One round of [merge]. *)
Definition merge1 (slice : list AxiaWallet) (axiawallet : AxiaWallet) : list AxiaWallet :=
  let n := sort_Search (length slice) (urlAtLeast slice axiawallet) in
  if bool_decide (n = length slice) then slice ++ [axiawallet]
  else firstn n slice ++ ([axiawallet] ++ skipn n slice).

(** [merge] *)
Definition merge (slice : list AxiaWallet) (axiawallets : list AxiaWallet)
    : list AxiaWallet :=
  foldl merge1 slice axiawallets.

(** One round of [drop]. *)
Definition drop1 (slice : list AxiaWallet) (axiawallet : AxiaWallet) : list AxiaWallet :=
  let n := sort_Search (length slice) (urlAtLeast slice axiawallet) in
  if bool_decide (n = length slice) then slice
  else firstn n slice ++ skipn (n + 1) slice.

(** [drop] *)
Definition drop (slice : list AxiaWallet) (axiawallets : list AxiaWallet)
    : list AxiaWallet :=
  foldl drop1 slice axiawallets.

(** The wallet cache of the manager; the channels, the lock and the index
    of the backends by type have no part in the functions below. *)
Record Manager : Type := { axiawallets : list AxiaWallet }.

(** The cache [NewManager] builds from its backends. *)
Definition NewManager (backends : list Backend) : Manager :=
  {| axiawallets :=
       foldl (fun axiawallets backend => merge axiawallets (Backend_AxiaWallets backend))
             [] backends |}.

(** The cache after the update loop has received [event] from a backend. *)
Definition Manager_onEvent (am : Manager) (event : AxiaWalletEvent) : Manager :=
  match Kind event with
  | AxiaWalletArrived => {| axiawallets := merge (axiawallets am) [Event_AxiaWallet event] |}
  | AxiaWalletDropped => {| axiawallets := drop (axiawallets am) [Event_AxiaWallet event] |}
  | AxiaWalletOpened => am
  end.

(** The cache after the update loop has received a new backend. *)
Definition Manager_onNewBackend (am : Manager) (backend : Backend) : Manager :=
  {| axiawallets := merge (axiawallets am) (Backend_AxiaWallets backend) |}.

(** The loop of [(am *Manager).AxiaWallet]. *)
Fixpoint walletByURL (parsed : URL) (l : list AxiaWallet) : result AxiaWallet :=
  match l with
  | [] => Err ErrUnknownAxiaWallet
  | axiawallet :: rest =>
      if bool_decide (AxiaWallet_URL axiawallet = parsed) then Ok axiawallet
      else walletByURL parsed rest
  end.

(** [(am *Manager).AxiaWallet] *)
Definition Manager_AxiaWallet (am : Manager) (url : Bytes) : result AxiaWallet :=
  match parseURL url with
  | Err e => Err e
  | Ok parsed => walletByURL parsed (axiawallets am)
  end.

(** [(am *Manager).Accounts] *)
Definition Manager_Accounts (am : Manager) : list Bytes :=
  foldl (fun addresses axiawallet =>
           foldl (fun addresses account => addresses ++ [Account_Address account])
                 addresses (AxiaWallet_Accounts axiawallet))
        [] (axiawallets am).

(** The loop of [(am *Manager).Find]. *)
Fixpoint findWallet (account : Account) (l : list AxiaWallet) : result AxiaWallet :=
  match l with
  | [] => Err ErrUnknownAccount
  | axiawallet :: rest =>
      if AxiaWallet_Contains axiawallet account then Ok axiawallet
      else findWallet account rest
  end.

(** [(am *Manager).Find] *)
Definition Manager_Find (am : Manager) (account : Account) : result AxiaWallet :=
  findWallet account (axiawallets am).

(** The wallets of a slice are in the order of their URLs. *)
Definition sortedByURL (slice : list AxiaWallet) : Prop :=
  StronglySorted (fun a b => URL_Cmp (AxiaWallet_URL a) (AxiaWallet_URL b) <= 0) slice.

(** The URL of a wallet is below that of [w], and is not. *)
Definition below (w x : AxiaWallet) : Prop :=
  URL_Cmp (AxiaWallet_URL x) (AxiaWallet_URL w) < 0.

Definition notBelow (w x : AxiaWallet) : Prop :=
  0 <= URL_Cmp (AxiaWallet_URL x) (AxiaWallet_URL w).

(** [Cmp] is the three-way comparison of a total preorder on URLs. *)
Definition cmpOrder : Prop :=
  (forall a b : URL, 0 <= URL_Cmp a b <-> URL_Cmp b a <= 0)
  /\ (forall a b c : URL, URL_Cmp a b <= 0 -> URL_Cmp b c <= 0 -> URL_Cmp a c <= 0).
End WithURL.

(** [sha3.NewLegacyKeccak256], written to once and summed; declared
    outside the sources. *)
Class HashCollaborator : Type := {
  LegacyKeccak256 : Bytes -> Bytes
}.

(** The bytes of the prefix of a signed text: byte 0x19, the words
    [Ethereum Signed Message:] and a line feed. *)
Definition signedMessagePrefix : Bytes :=
  [25; 69; 116; 104; 101; 114; 101; 117; 109; 32; 83; 105; 103; 110; 101; 100; 32;
   77; 101; 115; 115; 97; 103; 101; 58; 10]%N.

(** The verb [%d] of [fmt.Sprintf] on a length: the decimal digits, most
    significant first.  Every round divides [n] by ten, so [n + 1] rounds
    of fuel are enough. *)
Fixpoint decimal_loop (fuel n : nat) (acc : Bytes) : Bytes :=
  match fuel with
  | O => acc
  | S fuel =>
      let acc := (48 + N.of_nat (n mod 10))%N :: acc in
      if (n <? 10)%nat then acc else decimal_loop fuel (n / 10) acc
  end.

Definition decimal (n : nat) : Bytes := decimal_loop (S n) n [].

(** [TextAndHash] *)
Definition TextAndHash `{HashCollaborator} (data : Bytes) : Bytes * Bytes :=
  let msg := signedMessagePrefix ++ decimal (length data) ++ data in
  (LegacyKeccak256 msg, msg).

(** [TextHash] *)
Definition TextHash `{HashCollaborator} (data : Bytes) : Bytes :=
  fst (TextAndHash data).

(** A test instance: URLs are numbers, compared as such. *)
Definition testURLs : URLCollaborator :=
  {| URL := Z;
     zeroURL := 0;
     URL_Cmp := fun a b => match a ?= b with Lt => -1 | Eq => 0 | Gt => 1 end;
     parseURL := fun url => match url with
                            | [n] => Ok (Z.of_N n)
                            | _ => Err (errExternal 1)
                            end |}.

Definition testWallet (url : Z) (address : Bytes) : @AxiaWallet testURLs :=
  @Build_AxiaWallet testURLs url [@Build_Account testURLs address url]
    (fun account => bool_decide (@Account_Address testURLs account = address)).
End accounts.
(** * The keystore wallet ([accounts/keystore]) *)

Module keystore.

(** [types.Transaction] and [crypto.Keccak256] are declared outside the
    sources. *)
Class CryptoCollaborator : Type := {
  Transaction : Type;
  Keccak256 : Bytes -> Bytes
}.

Section WithCollaborators.
Context `{accounts.URLCollaborator} `{accounts.HashCollaborator} `{CryptoCollaborator}.

(** The methods of [KeyStore] the wallet calls; the type is declared in a
    file outside the sources. *)
Record KeyStore : Type := {
  SignHash : accounts.Account -> Bytes -> accounts.result Bytes;
  SignHashWithPassphrase : accounts.Account -> Bytes -> Bytes -> accounts.result Bytes;
  SignTx : accounts.Account -> Transaction -> Z -> accounts.result Transaction;
  SignTxWithPassphrase :
    accounts.Account -> Bytes -> Transaction -> Z -> accounts.result Transaction
}.

Record keystoreAxiaWallet : Type := {
  account : accounts.Account;
  keystore : KeyStore
}.

(** [URL] *)
Definition URL (w : keystoreAxiaWallet) : accounts.URL := accounts.Account_URL (account w).

(** [Accounts] *)
Definition Accounts (w : keystoreAxiaWallet) : list accounts.Account := [account w].

(** [Contains] *)
Definition Contains (w : keystoreAxiaWallet) (a : accounts.Account) : bool :=
  bool_decide (accounts.Account_Address a = accounts.Account_Address (account w))
  && (bool_decide (accounts.Account_URL a = accounts.zeroURL)
      || bool_decide (accounts.Account_URL a = accounts.Account_URL (account w))).

(** [Derive] *)
Definition Derive (w : keystoreAxiaWallet) (path : list Z) (pin : bool)
    : accounts.result accounts.Account :=
  accounts.Err accounts.ErrNotSupported.

(** [signHash] *)
Definition signHash (w : keystoreAxiaWallet) (a : accounts.Account) (hash : Bytes)
    : accounts.result Bytes :=
  if negb (Contains w a) then accounts.Err accounts.ErrUnknownAccount
  else SignHash (keystore w) a hash.

(** [SignData] *)
Definition SignData (w : keystoreAxiaWallet) (a : accounts.Account) (mimeType data : Bytes)
    : accounts.result Bytes :=
  signHash w a (Keccak256 data).

(** [SignDataWithPassphrase] *)
Definition SignDataWithPassphrase (w : keystoreAxiaWallet) (a : accounts.Account)
    (passphrase mimeType data : Bytes) : accounts.result Bytes :=
  if negb (Contains w a) then accounts.Err accounts.ErrUnknownAccount
  else SignHashWithPassphrase (keystore w) a passphrase (Keccak256 data).

(** [SignText] *)
Definition SignText (w : keystoreAxiaWallet) (a : accounts.Account) (text : Bytes)
    : accounts.result Bytes :=
  signHash w a (accounts.TextHash text).

(** [SignTextWithPassphrase] *)
Definition SignTextWithPassphrase (w : keystoreAxiaWallet) (a : accounts.Account)
    (passphrase text : Bytes) : accounts.result Bytes :=
  if negb (Contains w a) then accounts.Err accounts.ErrUnknownAccount
  else SignHashWithPassphrase (keystore w) a passphrase (accounts.TextHash text).

(** [SignTx] *)
Definition SignTx_ (w : keystoreAxiaWallet) (a : accounts.Account) (tx : Transaction)
    (chainID : Z) : accounts.result Transaction :=
  if negb (Contains w a) then accounts.Err accounts.ErrUnknownAccount
  else SignTx (keystore w) a tx chainID.

(** [SignTxWithPassphrase] *)
Definition SignTxWithPassphrase_ (w : keystoreAxiaWallet) (a : accounts.Account)
    (passphrase : Bytes) (tx : Transaction) (chainID : Z) : accounts.result Transaction :=
  if negb (Contains w a) then accounts.Err accounts.ErrUnknownAccount
  else SignTxWithPassphrase (keystore w) a passphrase tx chainID.

(** The wallet as the manager sees it, through the [AxiaWallet] interface. *)
Definition asAxiaWallet (w : keystoreAxiaWallet) : accounts.AxiaWallet :=
  {| accounts.AxiaWallet_URL := URL w;
     accounts.AxiaWallet_Accounts := Accounts w;
     accounts.AxiaWallet_Contains := Contains w |}.

(** A manager whose cache holds the keystore wallets [ws]. *)
Definition managerOf (ws : list keystoreAxiaWallet) : accounts.Manager :=
  {| accounts.axiawallets := map asAxiaWallet ws |}.

(** The account of the address alone, without a URL. *)
Definition accountOf (address : Bytes) : accounts.Account :=
  {| accounts.Account_Address := address; accounts.Account_URL := accounts.zeroURL |}.
End WithCollaborators.
End keystore.

(** * The smart-card hub ([scaxiawallet]) *)

Module scaxiawallet.

Record smartcardPairing : Type := {
  PublicKey : Bytes;
  PairingIndex : Z;
  PairingKey : Bytes;
  Accounts : gmap Bytes (list Z)
}.

(** The field of a smart-card wallet the hub reads. *)
Record AxiaWallet : Type := { AxiaWallet_PublicKey : Bytes }.

(** The fields of the hub the pairing functions use. *)
Record Hub : Type := {
  datadir : Bytes;
  pairings : gmap Bytes smartcardPairing
}.

(** The file system and the JSON codec, declared outside the sources.
    [rangeOrder] is the order in which a [range] over the map yields its
    values, which the language leaves open. *)
Class FileCollaborator : Type := {
  File : Type;
  os_Open : Bytes -> accounts.result File;
  os_IsNotExist : accounts.error -> bool;
  ioutil_ReadAll : File -> accounts.result Bytes;
  json_Unmarshal : Bytes -> accounts.result (list smartcardPairing);
  os_OpenFile : Bytes -> accounts.result File;
  json_Marshal : list smartcardPairing -> accounts.result Bytes;
  File_Write : File -> Bytes -> option accounts.error;
  filepath_Join : Bytes -> Bytes -> Bytes;
  rangeOrder : gmap Bytes smartcardPairing -> list smartcardPairing
}.

(** The file name [smartcards.json]. *)
Definition smartcardsFile : Bytes :=
  [115; 109; 97; 114; 116; 99; 97; 114; 100; 115; 46; 106; 115; 111; 110]%N.

Section WithFiles.
Context `{FileCollaborator}.

(** [(hub *Hub).readPairings]: the map is replaced by an empty one before
    the file is opened. *)
Definition readPairings (hub : Hub) : Hub * option accounts.error :=
  let hub := {| datadir := datadir hub; pairings := ∅ |} in
  match os_Open (filepath_Join (datadir hub) smartcardsFile) with
  | accounts.Err err => if os_IsNotExist err then (hub, None) else (hub, Some err)
  | accounts.Ok pairingFile =>
      match ioutil_ReadAll pairingFile with
      | accounts.Err err => (hub, Some err)
      | accounts.Ok pairingData =>
          match json_Unmarshal pairingData with
          | accounts.Err err => (hub, Some err)
          | accounts.Ok pairings_ =>
              ({| datadir := datadir hub;
                  pairings := foldl (fun m pairing => <[PublicKey pairing := pairing]> m)
                                    (pairings hub) pairings_ |},
               None)
          end
      end
  end.

(** [(hub *Hub).writePairings] *)
Definition writePairings (hub : Hub) : option accounts.error :=
  match os_OpenFile (filepath_Join (datadir hub) smartcardsFile) with
  | accounts.Err err => Some err
  | accounts.Ok pairingFile =>
      let pairings_ := foldl (fun l pairing => l ++ [pairing]) [] (rangeOrder (pairings hub)) in
      match json_Marshal pairings_ with
      | accounts.Err err => Some err
      | accounts.Ok pairingData => File_Write pairingFile pairingData
      end
  end.

(** [(hub *Hub).pairing] *)
Definition pairing (hub : Hub) (axiawallet : AxiaWallet) : option smartcardPairing :=
  pairings hub !! AxiaWallet_PublicKey axiawallet.

(** [(hub *Hub).setPairing]: the map is changed, then written. *)
Definition setPairing (hub : Hub) (axiawallet : AxiaWallet) (p : option smartcardPairing)
    : Hub * option accounts.error :=
  let hub :=
    match p with
    | None => {| datadir := datadir hub;
                 pairings := delete (AxiaWallet_PublicKey axiawallet) (pairings hub) |}
    | Some p => {| datadir := datadir hub;
                   pairings := <[AxiaWallet_PublicKey axiawallet := p]> (pairings hub) |}
    end in
  (hub, writePairings hub).
End WithFiles.
End scaxiawallet.

(** ** Test instances *)

Definition testHash : accounts.HashCollaborator :=
  {| accounts.LegacyKeccak256 := fun msg => [N.of_nat (length msg)] |}.

Definition testCrypto : keystore.CryptoCollaborator :=
  {| keystore.Transaction := Bytes; keystore.Keccak256 := fun data => data |}.

(** A key store that signs everything it is asked to. *)
Definition testKeyStore : @keystore.KeyStore accounts.testURLs testCrypto :=
  @keystore.Build_KeyStore accounts.testURLs testCrypto
    (fun _ hash => accounts.Ok hash)
    (fun _ _ hash => accounts.Ok hash)
    (fun _ tx _ => accounts.Ok tx)
    (fun _ _ tx _ => accounts.Ok tx).

Definition testKeystoreWallet (url : Z) (address : Bytes)
    : @keystore.keystoreAxiaWallet accounts.testURLs testCrypto :=
  @keystore.Build_keystoreAxiaWallet accounts.testURLs testCrypto
    (@accounts.Build_Account accounts.testURLs address url) testKeyStore.

(** * Properties *)

(** ** Checked arithmetic *)

Lemma Add64_spec (a b : Z) :
  Add64 a b = if a + b <=? MaxUint64 then Ok (a + b) else Err errOverflow.
Proof.
  unfold Add64.
  destruct (Z.gtb_spec b (MaxUint64 - a)), (Z.leb_spec (a + b) MaxUint64);
    try reflexivity; lia.
Qed.

Lemma Mul64_spec (a b : Z) :
  0 <= a -> 0 <= b ->
  Mul64 a b = if a * b <=? MaxUint64 then Ok (a * b) else Err errOverflow.
Proof.
  intros Ha Hb. unfold Mul64.
  destruct (Z.eqb_spec b 0) as [-> | Hb0].
  - rewrite Z.mul_0_r. reflexivity.
  - assert (Hpos : 0 < b) by lia.
    destruct (Z.gtb_spec a (MaxUint64 / b)) as [Hgt | Hle].
    + destruct (Z.leb_spec (a * b) MaxUint64) as [Hfit | _]; [ | reflexivity].
      exfalso.
      assert (a <= MaxUint64 / b) by (apply Z.div_le_lower_bound; lia). lia.
    + destruct (Z.leb_spec (a * b) MaxUint64) as [_ | Hover]; [reflexivity | ].
      exfalso.
      assert (a * b <= (MaxUint64 / b) * b) by nia.
      pose proof (Z.mul_div_le MaxUint64 b Hpos). lia.
Qed.

(** ** Dynamic fee *)

Lemma calculateDynamicFee_test_table :
  forallb (feeRowHolds calculateDynamicFee) importTxGasCostRows = true.
Proof. vm_compute. reflexivity. Qed.

Lemma calculateDynamicFee_spec_fails_test_table :
  forallb (feeRowHolds calculateDynamicFee_spec) importTxGasCostRows = false.
Proof. vm_compute. reflexivity. Qed.




(** ** Gas used by an export *)

(** C8: [GasUsed] of an export is the byte cost plus the number of inputs
    times the cost of a signature, plus the fixed base cost exactly when
    [fixedFee] is set; the result is returned when it fits 64 bits, and an
    overflow error is returned, not a wrapped value, when it does not. *)
Theorem ExportTx_GasUsed_checked `{Collaborators}
    (tx : UnsignedExportTx.t) (fixedFee : bool)
    (Hbytes : is_uint64 (calcBytesCost (length (UnsignedExportTx.UnsignedBytes tx)))) :
  let total :=
    calcBytesCost (length (UnsignedExportTx.UnsignedBytes tx))
    + Z.of_nat (length (UnsignedExportTx.Ins tx)) * CostPerSignature
    + (if fixedFee then AtomicTxBaseCost else 0) in
  UnsignedExportTx.GasUsed tx fixedFee
  = if total <=? MaxUint64 then Ok total else Err errOverflow.
Proof.
  cbn zeta. unfold UnsignedExportTx.GasUsed, is_uint64 in *.
  set (byteCost := calcBytesCost _) in *.
  set (n := Z.of_nat _).
  assert (Hn : 0 <= n) by (subst n; lia).
  assert (Hsig : 0 <= CostPerSignature) by (unfold CostPerSignature; lia).
  assert (Hbase : 0 <= AtomicTxBaseCost) by (unfold AtomicTxBaseCost; lia).
  rewrite (Mul64_spec n CostPerSignature Hn Hsig).
  assert (Hprod : 0 <= n * CostPerSignature) by nia.
  set (sigCost := n * CostPerSignature) in *.
  destruct (Z.leb_spec sigCost MaxUint64) as [Hs | Hs]; cbn [mbind result_bind].
  - rewrite Add64_spec.
    destruct (Z.leb_spec (byteCost + sigCost) MaxUint64) as [Hc | Hc]; cbn [mbind result_bind].
    + destruct fixedFee.
      * rewrite Add64_spec. reflexivity.
      * rewrite Z.add_0_r.
        destruct (Z.leb_spec (byteCost + sigCost) MaxUint64); [reflexivity | lia].
    + destruct (Z.leb_spec (byteCost + sigCost + (if fixedFee then AtomicTxBaseCost else 0))
                           MaxUint64); [ | reflexivity].
      destruct fixedFee; lia.
  - destruct (Z.leb_spec (byteCost + sigCost + (if fixedFee then AtomicTxBaseCost else 0))
                         MaxUint64); [ | reflexivity].
    destruct fixedFee; lia.
Qed.

Lemma ExportTx_GasUsed_checked_witness :
  is_uint64 (@calcBytesCost testCollaborators
               (length (UnsignedExportTx.UnsignedBytes exportTx)))
  /\ @UnsignedExportTx.GasUsed testCollaborators exportTx true = Ok 11230.
Proof.
  assert (Hbytes : is_uint64 (@calcBytesCost testCollaborators
                                (length (UnsignedExportTx.UnsignedBytes exportTx)))).
  { unfold is_uint64. vm_compute. split; discriminate. }
  split; [exact Hbytes | ].
  rewrite (@ExportTx_GasUsed_checked testCollaborators exportTx true Hbytes).
  vm_compute. reflexivity.
Defined.

(** ** Atomic operations of an import *)

Lemma range_assign_app {A B} (f : A -> B) (l : list A) (done rest : list B) :
  length rest = length l ->
  range_assign f (length done) l (done ++ rest) = done ++ map f l.
Proof.
  revert done rest. induction l as [ | x l IH]; intros done rest Hlen.
  - destruct rest; [ | discriminate]. reflexivity.
  - destruct rest as [ | r rest]; [discriminate | ].
    cbn [range_assign map].
    replace (<[length done := f x]> (done ++ r :: rest)) with ((done ++ [f x]) ++ rest).
    + replace (S (length done)) with (length (done ++ [f x])).
      * rewrite IH by (cbn in Hlen; lia). rewrite <- app_assoc. reflexivity.
      * rewrite length_app. cbn. lia.
    + rewrite <- app_assoc. cbn.
      rewrite insert_app_r_alt by lia.
      rewrite Nat.sub_diag. reflexivity.
Qed.

Lemma range_assign_replicate {A B} (f : A -> B) (l : list A) (b : B) :
  range_assign f 0 l (replicate (length l) b) = map f l.
Proof.
  apply (range_assign_app f l [] (replicate (length l) b)).
  apply length_replicate.
Qed.

(** C9: [AtomicOps] of an import returns the source chain and a request
    that removes exactly the UTXO IDs of the imported inputs, in their
    order, puts nothing, and carries no error. *)
Theorem ImportTx_AtomicOps_removes_inputs `{Collaborators} (tx : UnsignedImportTx.t) :
  UnsignedImportTx.AtomicOps tx
  = Ok (UnsignedImportTx.SourceChain tx,
        {| RemoveRequests :=
             map (fun i => InputID (axc.UTXOID_ i)) (UnsignedImportTx.ImportedInputs tx);
           PutRequests := [] |}).
Proof.
  unfold UnsignedImportTx.AtomicOps.
  rewrite range_assign_replicate. reflexivity.
Qed.

(** ** Order of the structural checks of an import *)

(** The model gives every row of TestImportTxVerify its expected result. *)
Lemma TestImportTxVerify_table :
  Forall (fun row =>
            @UnsignedImportTx.Verify testCollaborators (fst (fst row)) NewContext
              (snd (fst row)) = snd row)
         TestImportTxVerify_rows.
Proof. repeat constructor. Qed.

Lemma first_failure_cons (c : option error) (cs : list (option error)) :
  first_failure (c :: cs) = (c >>? first_failure cs).
Proof. destruct c; reflexivity. Qed.

Lemma first_failure_None (cs : list (option error)) :
  first_failure cs = None <-> Forall (fun c => c = None) cs.
Proof.
  induction cs as [ | c cs IH].
  - split; [constructor | reflexivity].
  - rewrite first_failure_cons. destruct c as [e | ]; cbn.
    + split; [discriminate | ]. intros Hall. inversion Hall; discriminate.
    + rewrite IH. split; [intros; constructor; auto | intros Hall; inversion Hall; auto].
Qed.

Lemma range_verify_wrap {A} (wrap : error -> error) (f : A -> option error) (l : list A) :
  range_verify (fun x => wrap <$> f x) l = wrap <$> head (omap f l).
Proof.
  induction l as [ | x l IH]; [reflexivity | ].
  cbn. destruct (f x); [reflexivity | exact IH].
Qed.

Lemma range_verify_None {A} (f : A -> option error) (l : list A) :
  range_verify f l = None <-> Forall (fun x => f x = None) l.
Proof.
  induction l as [ | x l IH]; cbn.
  - split; [constructor | reflexivity].
  - destruct (f x) eqn:E.
    + split; [discriminate | ]. intros Hall. inversion Hall; congruence.
    + rewrite IH. split; [intros; constructor; auto | intros Hall; inversion Hall; auto].
Qed.

Lemma length_zero_nil {A} (l : list A) :
  bool_decide (length l = 0%nat) = bool_decide (l = []).
Proof. destruct l; reflexivity. Qed.

Lemma negb_bool_decide_eq_sym {A} `{EqDecision A} (a b : A) :
  negb (bool_decide (a = b)) = bool_decide (b <> a).
Proof. repeat case_bool_decide; try reflexivity; congruence. Qed.

Lemma negb_bool_decide_eq {A} `{EqDecision A} (a b : A) :
  negb (bool_decide (a = b)) = bool_decide (a <> b).
Proof. repeat case_bool_decide; try reflexivity; congruence. Qed.

Lemma negb_eqb_bool_decide (a b : Z) : negb (a =? b) = bool_decide (a <> b).
Proof. destruct (Z.eqb_spec a b); case_bool_decide; try reflexivity; congruence. Qed.

Lemma fail_if_Some (b : bool) (e e' : error) : fail_if b e = Some e' -> e' = e /\ b = true.
Proof. destruct b; cbn; [intros [= ->]; auto | discriminate]. Qed.

Section ImportVerify.
Context `{Collaborators}.

Lemma ImportTx_Verify_first_failure (tx : UnsignedImportTx.t) (ctx : snow.Context)
    (rules : Rules) :
  UnsignedImportTx.Verify (Some tx) ctx rules
  = first_failure (ImportSpec.importChecks tx ctx rules).
Proof.
  unfold UnsignedImportTx.Verify, ImportSpec.importChecks.
  rewrite !first_failure_cons.
  rewrite !length_zero_nil, negb_eqb_bool_decide, negb_bool_decide_eq_sym,
          negb_bool_decide_eq, !range_verify_wrap.
  repeat f_equal.
  - destruct (IsApricotPhase5 rules); [ | reflexivity].
    destruct (SameSubnet ctx (UnsignedImportTx.SourceChain tx)); reflexivity.
  - unfold first_failure. cbn.
    destruct (IsApricotPhase2 rules), (IsApricotPhase1 rules);
      repeat match goal with |- context [fail_if ?b ?e] => destruct (fail_if b e) end;
      reflexivity.
Qed.

Lemma importChecks_named (tx : UnsignedImportTx.t) (ctx : snow.Context) (rules : Rules)
    (i : nat) (e : error) :
  ImportSpec.importChecks tx ctx rules !! i = Some (Some e) ->
  importCheckOf e = Some i.
Proof.
  unfold ImportSpec.importChecks.
  do 9 (destruct i as [ | i];
        [cbn [lookup list_lookup]; intros [= Hc];
         repeat match type of Hc with
                | (if ?b then _ else _) = _ => destruct b
                end;
         try discriminate;
         try (apply fail_if_Some in Hc as [-> _]; reflexivity);
         try (destruct (head _); cbn in Hc; [injection Hc as <-; reflexivity | discriminate])
        | ]).
  cbn. discriminate.
Qed.
End ImportVerify.

(** C2: [Verify] of an import runs its checks in the order nil
    transaction, empty inputs, network ID, blockchain ID, mandatory outputs
    (phase 3), source chain (phase 5: the peer-chain check, before: the
    swap chain), every output, every input, inputs sorted and unique,
    output order by phase; the first failing check gives the result, the
    result is nil exactly when no check fails, and an error value names
    the one check that produced it. *)
Theorem ImportTx_Verify_order `{Collaborators} (ctx : snow.Context) (rules : Rules) :
  UnsignedImportTx.Verify None ctx rules = Some errNilTx
  /\ (forall tx,
        UnsignedImportTx.Verify (Some tx) ctx rules
        = first_failure (ImportSpec.importChecks tx ctx rules))
  /\ (forall tx,
        UnsignedImportTx.Verify (Some tx) ctx rules = None
        <-> Forall (fun c => c = None) (ImportSpec.importChecks tx ctx rules))
  /\ (forall tx tx' ctx' rules' i j e,
        ImportSpec.importChecks tx ctx rules !! i = Some (Some e) ->
        ImportSpec.importChecks tx' ctx' rules' !! j = Some (Some e) ->
        i = j)
  /\ (forall tx i, ImportSpec.importChecks tx ctx rules !! i <> Some (Some errNilTx)).
Proof.
  split; [reflexivity | ].
  split; [intros tx; apply ImportTx_Verify_first_failure | ].
  split.
  { intros tx. rewrite ImportTx_Verify_first_failure. apply first_failure_None. }
  split.
  - intros tx tx' ctx' rules' i j e Hi Hj.
    apply importChecks_named in Hi, Hj. congruence.
  - intros tx i Hi. apply importChecks_named in Hi. discriminate.
Qed.

Lemma ImportTx_Verify_order_witness :
  @UnsignedImportTx.Verify testCollaborators (Some importTx) NewContext apricotRulesPhase0
  = None
  /\ @UnsignedImportTx.Verify testCollaborators (Some importTxSwappedWrongNetwork)
       NewContext apricotRulesPhase2
     = Some errWrongNetworkID.
Proof.
  destruct (@ImportTx_Verify_order testCollaborators NewContext apricotRulesPhase0)
    as (_ & Hfirst & _).
  destruct (@ImportTx_Verify_order testCollaborators NewContext apricotRulesPhase2)
    as (_ & Hfirst2 & _).
  rewrite Hfirst, Hfirst2. vm_compute. split; reflexivity.
Defined.

(** ** Canonical order of outputs *)

Lemma bytes_compare_eq (a b : Bytes) : bytes_compare a b = Eq <-> a = b.
Proof.
  revert b. induction a as [ | x a IH]; intros [ | y b]; cbn; try (split; congruence).
  destruct (N.compare x y) eqn:E.
  - apply N.compare_eq_iff in E as ->. rewrite IH. split; congruence.
  - split; [discriminate | ]. intros [= -> _]. rewrite N.compare_refl in E. discriminate.
  - split; [discriminate | ]. intros [= -> _]. rewrite N.compare_refl in E. discriminate.
Qed.

Lemma bytes_compare_antisym (a b : Bytes) :
  bytes_compare b a = CompOpp (bytes_compare a b).
Proof.
  revert b. induction a as [ | x a IH]; intros [ | y b]; cbn; try reflexivity.
  rewrite (N.compare_antisym x y).
  destruct (N.compare x y); cbn; auto.
Qed.

Lemma EVMOutput_Less_lt (a b : EVMOutput.t) : EVMOutput_Less a b = true <-> key_lt a b.
Proof.
  unfold EVMOutput_Less, key_lt, bytes_lt.
  destruct (bytes_compare (EVMOutput.Address a) (EVMOutput.Address b)) eqn:Eaddr.
  - apply bytes_compare_eq in Eaddr as Heq.
    destruct (bytes_compare (EVMOutput.AssetID a) (EVMOutput.AssetID b)).
    + split; [discriminate | intros [? | [_ ?]]; discriminate].
    + split; [intros _; right; split; [exact Heq | reflexivity] | reflexivity].
    + split; [discriminate | intros [? | [_ ?]]; discriminate].
  - split; [intros _; left; reflexivity | reflexivity].
  - split; [discriminate | ].
    intros [? | [Heq _]]; [discriminate | ].
    apply bytes_compare_eq in Heq. congruence.
Qed.

Lemma EVMOutput_Less_le (a b : EVMOutput.t) : EVMOutput_Less b a = false <-> key_le a b.
Proof.
  unfold EVMOutput_Less, key_le, key_lt, key_eq, bytes_lt.
  rewrite (bytes_compare_antisym (EVMOutput.Address a) (EVMOutput.Address b)),
          (bytes_compare_antisym (EVMOutput.AssetID a) (EVMOutput.AssetID b)).
  destruct (bytes_compare (EVMOutput.Address a) (EVMOutput.Address b)) eqn:Eaddr; cbn.
  - apply bytes_compare_eq in Eaddr as Heq.
    destruct (bytes_compare (EVMOutput.AssetID a) (EVMOutput.AssetID b)) eqn:Easset; cbn.
    + apply bytes_compare_eq in Easset. split; [intros _; right; split; assumption | reflexivity].
    + split; [intros _; left; right; split; [assumption | reflexivity] | reflexivity].
    + split; [discriminate | ].
      intros [[? | [_ ?]] | [_ Has]]; try discriminate.
      apply bytes_compare_eq in Has. congruence.
  - split; [intros _; left; left; reflexivity | reflexivity].
  - split; [discriminate | ].
    intros [[? | [Heq _]] | [Heq _]]; try discriminate;
      apply bytes_compare_eq in Heq; congruence.
Qed.

Lemma sort_IsSorted_Sorted {A} (less : A -> A -> bool) (l : list A) :
  sort_IsSorted less l = true <-> Sorted (fun a b => less b a = false) l.
Proof.
  induction l as [ | a [ | b l] IH].
  - split; [constructor | reflexivity].
  - split; [repeat constructor | reflexivity].
  - change (sort_IsSorted less (a :: b :: l))
      with (negb (less b a) && sort_IsSorted less (b :: l)).
    rewrite andb_true_iff, negb_true_iff, IH. split.
    + intros [Hab Hs]. constructor; [exact Hs | constructor; exact Hab].
    + intros Hs. apply Sorted_inv in Hs as [Hs' Hhd].
      apply HdRel_inv in Hhd. auto.
Qed.

Lemma utils_IsSortedAndUnique_Sorted {A} (less : A -> A -> bool) (l : list A) :
  utils_IsSortedAndUnique less l = true <-> Sorted (fun a b => less a b = true) l.
Proof.
  induction l as [ | a [ | b l] IH].
  - split; [constructor | reflexivity].
  - split; [repeat constructor | reflexivity].
  - change (utils_IsSortedAndUnique less (a :: b :: l))
      with (less a b && utils_IsSortedAndUnique less (b :: l)).
    rewrite andb_true_iff, IH. split.
    + intros [Hab Hs]. constructor; [exact Hs | constructor; exact Hab].
    + intros Hs. apply Sorted_inv in Hs as [Hs' Hhd].
      apply HdRel_inv in Hhd. auto.
Qed.

Lemma Sorted_iff {A} (R R' : A -> A -> Prop) (l : list A) :
  (forall a b, R a b <-> R' a b) -> Sorted R l <-> Sorted R' l.
Proof.
  intros HR. induction l as [ | a l IH].
  - split; constructor.
  - split; intros Hs; apply Sorted_inv in Hs as [Hs' Hhd];
      (constructor; [apply IH; exact Hs' | ]);
      (destruct Hhd; constructor; apply HR; assumption).
Qed.

Lemma IsSortedEVMOutputs_ascending (outs : list EVMOutput.t) :
  IsSortedEVMOutputs outs = true <-> Sorted key_le outs.
Proof.
  unfold IsSortedEVMOutputs. rewrite sort_IsSorted_Sorted.
  apply Sorted_iff. intros a b. apply EVMOutput_Less_le.
Qed.

Lemma IsSortedAndUniqueEVMOutputs_strictly_ascending (outs : list EVMOutput.t) :
  IsSortedAndUniqueEVMOutputs outs = true <-> Sorted key_lt outs.
Proof.
  unfold IsSortedAndUniqueEVMOutputs. rewrite utils_IsSortedAndUnique_Sorted.
  apply Sorted_iff. intros a b. apply EVMOutput_Less_lt.
Qed.

Lemma first_failure_Some (cs : list (option error)) (e : error) :
  first_failure cs = Some e -> exists i, cs !! i = Some (Some e).
Proof.
  induction cs as [ | c cs IH]; [discriminate | ].
  rewrite first_failure_cons. destruct c as [e' | ]; cbn.
  - intros [= ->]. exists 0%nat. reflexivity.
  - intros Hc. destruct (IH Hc) as [i Hi]. exists (S i). exact Hi.
Qed.

Lemma check_None (c k : option error) : (c >>? k) = None <-> c = None /\ k = None.
Proof.
  destruct c; cbn.
  - split; [discriminate | intros [? _]; discriminate].
  - split; [intros ->; split; reflexivity | intros [_ ->]; reflexivity].
Qed.

Lemma check_None_r (c : option error) : (c >>? None) = c.
Proof. destruct c; reflexivity. Qed.

Lemma check_assoc (a b c : option error) : (a >>? (b >>? c)) = ((a >>? b) >>? c).
Proof. destruct a; reflexivity. Qed.

Section ImportOutputOrder.
Context `{Collaborators}.

Lemma ImportTx_Verify_split (tx : UnsignedImportTx.t) (ctx : snow.Context) (rules : Rules) :
  UnsignedImportTx.Verify (Some tx) ctx rules
  = (UnsignedImportTx.Verify (Some tx) ctx (noOutputOrder rules) >>? ImportSpec.outputOrder tx rules).
Proof.
  unfold UnsignedImportTx.Verify, ImportSpec.outputOrder. cbn [noOutputOrder IsApricotPhase1
    IsApricotPhase2 IsApricotPhase3 IsApricotPhase5].
  rewrite check_None_r.
  rewrite <- !check_assoc. reflexivity.
Qed.

Lemma ImportTx_Verify_noOutputOrder_error (tx : UnsignedImportTx.t) (ctx : snow.Context)
    (rules : Rules) (e : error) :
  UnsignedImportTx.Verify (Some tx) ctx (noOutputOrder rules) = Some e ->
  e <> errOutputsNotSorted /\ e <> errOutputsNotSortedUnique.
Proof.
  rewrite ImportTx_Verify_first_failure. intros Hf.
  apply first_failure_Some in Hf as [i Hi].
  pose proof (importChecks_named _ _ _ _ _ Hi) as Hname.
  split; intros ->; cbn in Hname; injection Hname as <-; cbn in Hi; discriminate.
Qed.

Lemma ImportTx_Verify_any_outputs (tx : UnsignedImportTx.t) (ctx : snow.Context)
    (rules : Rules) (outs' : list EVMOutput.t) :
  IsApricotPhase1 rules = false -> IsApricotPhase2 rules = false ->
  UnsignedImportTx.Verify (Some tx) ctx rules = None ->
  (forall out, In out outs' -> In out (UnsignedImportTx.Outs tx)) ->
  (outs' = [] -> UnsignedImportTx.Outs tx = []) ->
  UnsignedImportTx.Verify (Some (withOuts tx outs')) ctx rules = None.
Proof.
  intros H1 H2 Hv Hin Hnil.
  unfold UnsignedImportTx.Verify in *. rewrite H1, H2 in *.
  cbn [withOuts UnsignedImportTx.ImportedInputs UnsignedImportTx.NetworkID
       UnsignedImportTx.BlockchainID UnsignedImportTx.SourceChain UnsignedImportTx.Outs].
  repeat (apply check_None in Hv as [?Hc Hv]).
  repeat (apply check_None; split); auto.
  - destruct outs' as [ | out outs'].
    + rewrite (Hnil eq_refl) in Hc2. exact Hc2.
    + rewrite length_zero_nil, bool_decide_eq_false_2 by discriminate.
      rewrite andb_false_r. reflexivity.
  - rewrite range_verify_None in *. rewrite List.Forall_forall in *.
    intros out Hout. apply Hc4, Hin, Hout.
Qed.
End ImportOutputOrder.

(** C5, as stated, fails: under the phase-1 rules a transaction with a
    wrong network ID and descending outputs does not return the
    outputs-not-sorted error, an earlier check answers first. *)
Lemma ImportTx_Verify_unsorted_other_error :
  ~ Sorted key_le (UnsignedImportTx.Outs importTxSwappedWrongNetwork)
  /\ @UnsignedImportTx.Verify testCollaborators (Some importTxSwappedWrongNetwork)
       NewContext apricotRulesPhase1
     = Some errWrongNetworkID
  /\ @UnsignedImportTx.Verify testCollaborators (Some importTxSwappedWrongNetwork)
       NewContext apricotRulesPhase1
     <> Some errOutputsNotSorted.
Proof.
  split.
  - rewrite <- IsSortedEVMOutputs_ascending. vm_compute. discriminate.
  - vm_compute. split; congruence.
Qed.

(** C5, amended: for an import that passes every check before the output
    order ([Verify] under the same rules with the order policy off):
    under the earliest rules [Verify] puts no constraint on the order of
    [Outs] (any rearrangement or repetition of the outputs passes); under
    the phase-1 rules it fails with the outputs-not-sorted error exactly
    when [Outs] is not ascending by the key (address, assetID), equal
    neighbours allowed; from phase 2 on it fails with the
    outputs-not-sorted-unique error exactly when [Outs] is not strictly
    ascending by that key. *)
Theorem ImportTx_Verify_output_order `{Collaborators}
    (tx : UnsignedImportTx.t) (ctx : snow.Context) (rules : Rules) :
  let pre := UnsignedImportTx.Verify (Some tx) ctx (noOutputOrder rules) in
  (IsApricotPhase1 rules = false -> IsApricotPhase2 rules = false ->
     UnsignedImportTx.Verify (Some tx) ctx rules = pre
     /\ (pre = None ->
         forall outs',
           (forall out, In out outs' -> In out (UnsignedImportTx.Outs tx)) ->
           (outs' = [] -> UnsignedImportTx.Outs tx = []) ->
           UnsignedImportTx.Verify (Some (withOuts tx outs')) ctx rules = None))
  /\ (IsApricotPhase1 rules = true -> IsApricotPhase2 rules = false ->
      (UnsignedImportTx.Verify (Some tx) ctx rules = Some errOutputsNotSorted
       <-> pre = None /\ ~ Sorted key_le (UnsignedImportTx.Outs tx))
      /\ (UnsignedImportTx.Verify (Some tx) ctx rules = None
          <-> pre = None /\ Sorted key_le (UnsignedImportTx.Outs tx)))
  /\ (IsApricotPhase2 rules = true ->
      (UnsignedImportTx.Verify (Some tx) ctx rules = Some errOutputsNotSortedUnique
       <-> pre = None /\ ~ Sorted key_lt (UnsignedImportTx.Outs tx))
      /\ (UnsignedImportTx.Verify (Some tx) ctx rules = None
          <-> pre = None /\ Sorted key_lt (UnsignedImportTx.Outs tx))).
Proof.
  cbn zeta. rewrite ImportTx_Verify_split. unfold ImportSpec.outputOrder.
  pose proof (ImportTx_Verify_noOutputOrder_error tx ctx rules) as Hpre.
  destruct (UnsignedImportTx.Verify (Some tx) ctx (noOutputOrder rules)) as [e | ] eqn:Epre.
  - destruct (Hpre e eq_refl) as [Hns Hnsu]. cbn [check].
    split; [intros _ _; split; [reflexivity | discriminate] | ].
    split; [intros _ _ | intros _];
      (split; split; [congruence | intros [? _]; discriminate
                      | discriminate | intros [? _]; discriminate]).
  - cbn [check]. split; [ | split].
    + intros H1 H2. rewrite H1, H2. split; [reflexivity | ].
      intros _ outs' Hin Hnil.
      apply ImportTx_Verify_any_outputs; auto.
      rewrite ImportTx_Verify_split, Epre. unfold ImportSpec.outputOrder.
      cbn [check]. rewrite H1, H2. reflexivity.
    + intros H1 H2. rewrite H1, H2.
      rewrite <- IsSortedEVMOutputs_ascending.
      destruct (IsSortedEVMOutputs (UnsignedImportTx.Outs tx)); cbn [negb fail_if];
        intuition congruence.
    + intros H2. rewrite H2.
      rewrite <- IsSortedAndUniqueEVMOutputs_strictly_ascending.
      destruct (IsSortedAndUniqueEVMOutputs (UnsignedImportTx.Outs tx)); cbn [negb fail_if];
        intuition congruence.
Qed.

Lemma ImportTx_Verify_output_order_witness :
  (IsApricotPhase1 apricotRulesPhase0 = false /\ IsApricotPhase2 apricotRulesPhase0 = false)
  /\ @UnsignedImportTx.Verify testCollaborators (Some importTxSwapped)
       NewContext apricotRulesPhase0 = None
  /\ (IsApricotPhase1 apricotRulesPhase1 = true /\ IsApricotPhase2 apricotRulesPhase1 = false)
  /\ @UnsignedImportTx.Verify testCollaborators (Some importTxSwapped)
       NewContext apricotRulesPhase1 = Some errOutputsNotSorted
  /\ IsApricotPhase2 apricotRulesPhase2 = true
  /\ @UnsignedImportTx.Verify testCollaborators
       (Some (withOuts importTx [testOut testEthAddr0 1; testOut testEthAddr0 1]))
       NewContext apricotRulesPhase2 = Some errOutputsNotSortedUnique.
Proof.
  split; [split; reflexivity | ]. split.
  { destruct (@ImportTx_Verify_output_order testCollaborators importTxSwapped NewContext
                apricotRulesPhase0) as (H0 & _).
    destruct (H0 eq_refl eq_refl) as [-> _]. vm_compute. reflexivity. }
  split; [split; reflexivity | ]. split.
  { destruct (@ImportTx_Verify_output_order testCollaborators importTxSwapped NewContext
                apricotRulesPhase1) as (_ & H1 & _).
    destruct (H1 eq_refl eq_refl) as [[_ Hback] _]. apply Hback.
    split; [vm_compute; reflexivity | ].
    rewrite <- IsSortedEVMOutputs_ascending. vm_compute. discriminate. }
  split; [reflexivity | ].
  destruct (@ImportTx_Verify_output_order testCollaborators
              (withOuts importTx [testOut testEthAddr0 1; testOut testEthAddr0 1])
              NewContext apricotRulesPhase2) as (_ & _ & H2).
  destruct (H2 eq_refl) as [[_ Hback] _]. apply Hback.
  split; [vm_compute; reflexivity | ].
  rewrite <- IsSortedAndUniqueEVMOutputs_strictly_ascending. vm_compute. discriminate.
Defined.

(** ** Structural verification of an export *)

(** C7: for an export to the platform chain, [Verify] fails whenever an
    exported output carries an asset other than the native asset; a
    successful [Verify] implies that every exported output is native. *)
Theorem ExportTx_Verify_platform_native `{Collaborators}
    (tx : UnsignedExportTx.t) (ctx : snow.Context) (rules : Rules)
    (Hdest : UnsignedExportTx.DestinationChain tx = PlatformChainID) :
  (Exists (fun out => axc.OutAssetID out <> snow.AXCAssetID ctx)
          (UnsignedExportTx.ExportedOutputs tx) ->
   exists e, UnsignedExportTx.Verify (Some tx) ctx rules = Some e)
  /\ (UnsignedExportTx.Verify (Some tx) ctx rules = None ->
      Forall (fun out => axc.OutAssetID out = snow.AXCAssetID ctx)
             (UnsignedExportTx.ExportedOutputs tx)).
Proof.
  assert (Hnative :
    UnsignedExportTx.Verify (Some tx) ctx rules = None ->
    Forall (fun out => axc.OutAssetID out = snow.AXCAssetID ctx)
           (UnsignedExportTx.ExportedOutputs tx)).
  { unfold UnsignedExportTx.Verify. intros Hv.
    repeat (apply check_None in Hv as [?Hc Hv]).
    apply range_verify_None in Hc4.
    eapply List.Forall_impl; [ | exact Hc4].
    intros out Hout. unfold UnsignedExportTx.verifyExportedOutput in Hout.
    apply check_None in Hout as [_ Hasset].
    rewrite Hdest, (bool_decide_eq_true_2 _ eq_refl), andb_true_r in Hasset.
    case_bool_decide; [assumption | discriminate]. }
  split; [ | exact Hnative].
  intros Hex.
  destruct (UnsignedExportTx.Verify (Some tx) ctx rules) as [e | ] eqn:Ev; [eauto | ].
  exfalso. specialize (Hnative eq_refl).
  apply List.Exists_exists in Hex as (out & Hin & Hne).
  rewrite List.Forall_forall in Hnative. exact (Hne (Hnative out Hin)).
Qed.

Lemma ExportTx_Verify_platform_native_witness :
  UnsignedExportTx.DestinationChain
    (exportTxTo (@PlatformChainID testCollaborators)
       [testEVMInput testEthAddr0 (AxiaAtomicTxFee + 1) 0]
       [testExportedOutput [10%N] 1])
  = @PlatformChainID testCollaborators
  /\ exists e,
       @UnsignedExportTx.Verify testCollaborators
         (Some (exportTxTo (@PlatformChainID testCollaborators)
                  [testEVMInput testEthAddr0 (AxiaAtomicTxFee + 1) 0]
                  [testExportedOutput [10%N] 1]))
         NewContext apricotRulesPhase5
       = Some e.
Proof.
  split; [reflexivity | ].
  apply (@ExportTx_Verify_platform_native testCollaborators
           (exportTxTo (@PlatformChainID testCollaborators)
              [testEVMInput testEthAddr0 (AxiaAtomicTxFee + 1) 0]
              [testExportedOutput [10%N] 1])
           NewContext apricotRulesPhase5 eq_refl).
  constructor. vm_compute. discriminate.
Defined.

(** ** Credentials of an export *)

Section ExportCredentials.
Context `{Collaborators}.

Lemma verifyCredential_None (vm : VM) (tx : UnsignedExportTx.t) (input : EVMInput.t)
    (cred : Credential) :
  UnsignedExportTx.verifyCredential vm tx input cred = None -> ExportSpec.signedBy vm tx input cred.
Proof.
  unfold UnsignedExportTx.verifyCredential, ExportSpec.signedBy.
  destruct cred as [Sigs | kind]; [ | discriminate].
  intros Hv. apply check_None in Hv as [_ Hv].
  destruct Sigs as [ | sig [ | sig' Sigs]]; try discriminate.
  destruct (secpFactory_RecoverPublicKey vm (UnsignedExportTx.UnsignedBytes tx) sig)
    as [[pubKey | kind] | e] eqn:Erec; try discriminate.
  exists sig, pubKey. repeat split; auto.
  unfold fail_if in Hv. case_bool_decide; [congruence | discriminate].
Qed.

Lemma verifyCredentials_None (vm : VM) (stx : Tx) (tx : UnsignedExportTx.t)
    (ins : list EVMInput.t) (i : nat) :
  (length ins + i)%nat = length (Creds stx) ->
  UnsignedExportTx.verifyCredentials vm stx tx i ins = None ->
  Forall2 (ExportSpec.signedBy vm tx) ins (drop i (Creds stx)).
Proof.
  revert i. induction ins as [ | input ins IH]; intros i Hlen Hv.
  - cbn in Hlen. rewrite drop_ge by lia. constructor.
  - cbn [UnsignedExportTx.verifyCredentials] in Hv.
    destruct (Creds stx !! i) as [cred | ] eqn:Ecred; [ | discriminate].
    apply check_None in Hv as [Hcred Hrest].
    rewrite (drop_S _ _ _ Ecred).
    constructor; [apply verifyCredential_None; exact Hcred | ].
    apply IH; [cbn in Hlen; lia | exact Hrest].
Qed.
End ExportCredentials.

(** C10: [SemanticVerify] of an export fails unless every credential is a
    secp256k1 credential with exactly one signature whose recovered public
    key maps to the address of the input at the same position; a
    credential with no signature, or with two or more, is rejected. *)
Theorem ExportTx_SemanticVerify_one_signature `{Collaborators}
    (tx : UnsignedExportTx.t) (vm : VM) (stx : Tx) (parent : option Block)
    (baseFee : Z) (rules : Rules) :
  (UnsignedExportTx.SemanticVerify tx vm stx parent baseFee rules = None ->
   Forall2 (ExportSpec.signedBy vm tx) (UnsignedExportTx.Ins tx) (Creds stx))
  /\ (forall cred,
        In cred (Creds stx) ->
        (forall sig, cred <> secp256k1fx_Credential [sig]) ->
        UnsignedExportTx.SemanticVerify tx vm stx parent baseFee rules <> None).
Proof.
  assert (Hall :
    UnsignedExportTx.SemanticVerify tx vm stx parent baseFee rules = None ->
    Forall2 (ExportSpec.signedBy vm tx) (UnsignedExportTx.Ins tx) (Creds stx)).
  { unfold UnsignedExportTx.SemanticVerify. intros Hv.
    apply check_None in Hv as [_ Hv].
    destruct (UnsignedExportTx.flowOf vm stx tx baseFee rules) as [fc | e]; [ | discriminate].
    apply check_None in Hv as [_ Hv].
    apply check_None in Hv as [Hlen Hv].
    unfold fail_if in Hlen. case_bool_decide as Hl; [ | discriminate].
    apply (verifyCredentials_None vm stx tx _ 0%nat) in Hv; [exact Hv | lia]. }
  split; [exact Hall | ].
  intros cred Hin Hshape Hv.
  specialize (Hall Hv).
  apply list_elem_of_In, list_elem_of_lookup_1 in Hin as [i Hi].
  destruct (Forall2_lookup_r _ _ _ _ _ Hall Hi) as (input & _ & sig & pubKey & -> & _).
  exact (Hshape sig eq_refl).
Qed.

Lemma ExportTx_SemanticVerify_one_signature_witness :
  @UnsignedExportTx.SemanticVerify testCollaborators exportTx (testVM true)
    (signedWith (@UnsignedExportTx.asAtomicTx testCollaborators exportTx)
                [secp256k1fx_Credential [testEthAddr0]])
    None 0 apricotRulesPhase0 = None
  /\ @UnsignedExportTx.SemanticVerify testCollaborators exportTx (testVM true)
       (signedWith (@UnsignedExportTx.asAtomicTx testCollaborators exportTx)
                   [secp256k1fx_Credential [testEthAddr0; testEthAddr0]])
       None 0 apricotRulesPhase0 <> None.
Proof.
  split; [vm_compute; reflexivity | ].
  apply (@ExportTx_SemanticVerify_one_signature testCollaborators exportTx (testVM true)
           (signedWith (@UnsignedExportTx.asAtomicTx testCollaborators exportTx)
                       [secp256k1fx_Credential [testEthAddr0; testEthAddr0]])
           None 0 apricotRulesPhase0)
    with (cred := secp256k1fx_Credential [testEthAddr0; testEthAddr0]).
  - left. reflexivity.
  - intros sig. discriminate.
Defined.

(** ** State transfer of an import *)

(** TestImportTxEVMStateTransfer: importing 1 of the native asset credits
    [x2cRate]; importing 1 of another asset credits 1 of that asset and
    nothing of the native balance. *)
Lemma TestImportTxEVMStateTransfer_table :
  GetBalance
    (fst (UnsignedImportTx.EVMStateTransfer importTxOneToOne NewContext
            {| balances := ∅; multiCoin := ∅; nonces := ∅ |}))
    testEthAddr0 = x2cRate
  /\ (let state :=
        fst (UnsignedImportTx.EVMStateTransfer
               (withOuts importTxOneToOne
                  [{| EVMOutput.Address := testEthAddr0; EVMOutput.Amount := 1;
                      EVMOutput.AssetID := [10%N] |}])
               NewContext {| balances := ∅; multiCoin := ∅; nonces := ∅ |}) in
      GetBalanceMultiCoin state testEthAddr0 [10%N] = 1
      /\ GetBalance state testEthAddr0 = 0).
Proof. vm_compute. repeat split; reflexivity. Qed.

(** ** State transfer of an export *)









(** ** Flow checker *)

Lemma assetTotal_nil (asset : ID) : assetTotal [] asset = 0.
Proof. reflexivity. Qed.

Lemma assetTotal_cons (a : ID) (x : Z) (l : list (ID * Z)) (asset : ID) :
  assetTotal ((a, x) :: l) asset
  = (if bool_decide (a = asset) then x else 0) + assetTotal l asset.
Proof.
  unfold assetTotal. rewrite filter_cons. cbn [fst].
  case_decide as Ha.
  - rewrite (bool_decide_eq_true_2 _ Ha). reflexivity.
  - rewrite (bool_decide_eq_false_2 _ Ha). reflexivity.
Qed.

Lemma assetTotal_nonneg (l : list (ID * Z)) (asset : ID) :
  Forall (fun entry => 0 <= snd entry) l -> 0 <= assetTotal l asset.
Proof.
  induction 1 as [ | [a x] l Hx _ IH]; [rewrite assetTotal_nil; lia | ].
  rewrite assetTotal_cons. cbn in Hx. case_bool_decide; lia.
Qed.

Lemma held_insert (value : gmap ID Z) (a b : ID) (v : Z) :
  held (<[a := v]> value) b = if bool_decide (a = b) then v else held value b.
Proof.
  unfold held. rewrite lookup_insert.
  case_decide as Hab.
  - rewrite (bool_decide_eq_true_2 _ Hab). reflexivity.
  - rewrite (bool_decide_eq_false_2 _ Hab). reflexivity.
Qed.

(** One addition: it keeps the error state and adds the amount when the
    sum fits, and records an error when it does not. *)
Lemma FlowChecker_add_spec (value : gmap ID Z) (errs : option error) (a : ID) (x : Z) :
  if held value a + x <=? MaxUint64
  then snd (FlowChecker_add value errs a x) = errs
       /\ forall b, held (fst (FlowChecker_add value errs a x)) b
                    = held value b + (if bool_decide (a = b) then x else 0)
  else snd (FlowChecker_add value errs a x) = errs_Add errs (Some errOverflow).
Proof.
  unfold FlowChecker_add. fold (held value a). rewrite Add64_spec.
  destruct (Z.leb_spec (held value a + x) MaxUint64); cbn [fst snd]; [ | reflexivity].
  split; [reflexivity | ].
  intros b. rewrite held_insert. case_bool_decide as Hab; [subst; lia | lia].
Qed.

Lemma addAll_cons (st : gmap ID Z * option error) (a : ID) (x : Z) (l : list (ID * Z)) :
  addAll st ((a, x) :: l) = addAll (FlowChecker_add (fst st) (snd st) a x) l.
Proof. reflexivity. Qed.

Lemma addAll_sticky (st : gmap ID Z * option error) (l : list (ID * Z)) (e : error) :
  snd st = Some e -> snd (addAll st l) = Some e.
Proof.
  revert st. induction l as [ | [a x] l IH]; intros st Hst; [exact Hst | ].
  rewrite addAll_cons. apply IH. cbn [fst snd].
  pose proof (FlowChecker_add_spec (fst st) (snd st) a x) as Hadd.
  destruct (held (fst st) a + x <=? MaxUint64).
  - destruct Hadd as [-> _]. exact Hst.
  - rewrite Hadd, Hst. reflexivity.
Qed.

Lemma addAll_None (st : gmap ID Z * option error) (l : list (ID * Z)) :
  Forall (fun entry => 0 <= snd entry) l ->
  (forall b, held (fst st) b <= MaxUint64) ->
  snd (addAll st l) = None ->
  snd st = None
  /\ forall b, held (fst st) b + assetTotal l b <= MaxUint64
               /\ held (fst (addAll st l)) b = held (fst st) b + assetTotal l b.
Proof.
  intros Hpos. revert st. induction Hpos as [ | [a x] l Hx Hpos IH]; intros st Hfit Herr.
  - split; [exact Herr | ]. intros b. rewrite assetTotal_nil. cbn [addAll foldl].
    specialize (Hfit b). lia.
  - rewrite addAll_cons in Herr |- *. cbn [fst snd] in *.
    pose proof (FlowChecker_add_spec (fst st) (snd st) a x) as Hadd.
    destruct (Z.leb_spec (held (fst st) a + x) MaxUint64) as [Hax | Hax].
    + destruct Hadd as [Hsnd Hheld].
      destruct (IH (FlowChecker_add (fst st) (snd st) a x)) as [Hnone Hall].
      * intros b. rewrite Hheld. specialize (Hfit b). case_bool_decide; [subst; lia | lia].
      * exact Herr.
      * split; [congruence | ].
        intros b. destruct (Hall b) as [Hle Heq].
        rewrite assetTotal_cons, Heq, Hheld. rewrite Hheld in Hle. lia.
    + exfalso.
      assert (Hsome : exists e, snd (FlowChecker_add (fst st) (snd st) a x) = Some e).
      { rewrite Hadd. destruct (snd st); cbn; eauto. }
      destruct Hsome as [e He].
      rewrite (addAll_sticky _ l e He) in Herr. discriminate.
Qed.

Lemma addAll_fits (st : gmap ID Z * option error) (l : list (ID * Z)) :
  Forall (fun entry => 0 <= snd entry) l ->
  snd st = None ->
  (forall b, held (fst st) b + assetTotal l b <= MaxUint64) ->
  snd (addAll st l) = None.
Proof.
  intros Hpos. revert st. induction Hpos as [ | [a x] l Hx Hpos IH]; intros st Hnone Hfit.
  - exact Hnone.
  - rewrite addAll_cons. cbn [fst snd] in *.
    pose proof (FlowChecker_add_spec (fst st) (snd st) a x) as Hadd.
    pose proof (assetTotal_nonneg l a Hpos) as Hla.
    pose proof (Hfit a) as Hfa. rewrite assetTotal_cons in Hfa.
    rewrite (bool_decide_eq_true_2 _ eq_refl) in Hfa.
    destruct (Z.leb_spec (held (fst st) a + x) MaxUint64) as [Hax | Hax]; [ | lia].
    destruct Hadd as [Hsnd Hheld].
    apply IH; [congruence | ].
    intros b. rewrite Hheld. specialize (Hfit b). rewrite assetTotal_cons in Hfit. lia.
Qed.

Lemma foldl_Produce {A} (asset : A -> ID) (amount : A -> Z) (l : list A) (fc : FlowChecker) :
  foldl (fun fc x => Produce fc (asset x) (amount x)) fc l
  = {| consumed := consumed fc;
       produced := fst (addAll (produced fc, errs fc) (map (fun x => (asset x, amount x)) l));
       errs := snd (addAll (produced fc, errs fc) (map (fun x => (asset x, amount x)) l)) |}.
Proof.
  revert fc. induction l as [ | x l IH]; intros fc; [destruct fc; reflexivity | ].
  cbn [foldl map]. rewrite IH. unfold Produce, addAll. cbn [foldl fst snd].
  destruct (FlowChecker_add (produced fc) (errs fc) (asset x) (amount x)); reflexivity.
Qed.

Lemma foldl_Consume {A} (asset : A -> ID) (amount : A -> Z) (l : list A) (fc : FlowChecker) :
  foldl (fun fc x => Consume fc (asset x) (amount x)) fc l
  = {| consumed := fst (addAll (consumed fc, errs fc) (map (fun x => (asset x, amount x)) l));
       produced := produced fc;
       errs := snd (addAll (consumed fc, errs fc) (map (fun x => (asset x, amount x)) l)) |}.
Proof.
  revert fc. induction l as [ | x l IH]; intros fc; [destruct fc; reflexivity | ].
  cbn [foldl map]. rewrite IH. unfold Consume, addAll. cbn [foldl fst snd].
  destruct (FlowChecker_add (consumed fc) (errs fc) (asset x) (amount x)); reflexivity.
Qed.

Lemma flow_short_false (fc : FlowChecker) :
  flow_short fc = false
  <-> forall k v, produced fc !! k = Some v -> v <= held (consumed fc) k.
Proof.
  unfold flow_short. split.
  - intros Hshort k v Hkv.
    destruct (Z.gtb_spec v (held (consumed fc) k)) as [Hgt | ]; [ | assumption].
    exfalso.
    assert (Hex : existsb (fun kv => snd kv >? default 0 (consumed fc !! fst kv))
                          (map_to_list (produced fc)) = true).
    { apply existsb_exists. exists (k, v). split.
      - apply list_elem_of_In, elem_of_map_to_list. exact Hkv.
      - cbn. apply Z.gtb_lt. unfold held in Hgt. lia. }
    congruence.
  - intros Hall.
    destruct (existsb _ _) eqn:Hex; [ | reflexivity].
    apply existsb_exists in Hex as ([k v] & Hin & Hgt).
    apply list_elem_of_In, elem_of_map_to_list in Hin.
    specialize (Hall k v Hin). cbn in Hgt. apply Z.gtb_lt in Hgt. unfold held in Hall. lia.
Qed.

Lemma held_empty (b : ID) : held ∅ b = 0.
Proof. unfold held. rewrite lookup_empty. reflexivity. Qed.

(** The flow checker after producing the entries [P] and consuming the
    entries [C], from the fresh state. *)
Lemma flow_of_entries (P C : list (ID * Z)) :
  Forall (fun entry => 0 <= snd entry) P ->
  Forall (fun entry => 0 <= snd entry) C ->
  let produced_ := addAll (∅, None) P in
  let consumed_ := addAll (∅, snd produced_) C in
  FlowChecker_Verify {| consumed := fst consumed_;
                        produced := fst produced_;
                        errs := snd consumed_ |} = None
  <-> forall b, assetTotal P b <= assetTotal C b /\ assetTotal C b <= MaxUint64.
Proof.
  intros HP HC. cbn zeta.
  assert (Hmax : 0 <= MaxUint64) by (unfold MaxUint64; lia).
  assert (Hempty : forall b, held (fst ((∅ : gmap ID Z), @None error)) b <= MaxUint64).
  { intros b. cbn. rewrite held_empty. exact Hmax. }
  unfold FlowChecker_Verify. cbn [errs].
  split.
  - intros Hv.
    destruct (snd (addAll (∅, snd (addAll (∅, None) P)) C)) eqn:EC; [discriminate | ].
    destruct (snd (addAll (∅, None) P)) as [e | ] eqn:EP.
    { rewrite (addAll_sticky (∅, Some e) C e eq_refl) in EC. discriminate. }
    destruct (addAll_None (∅, None) P HP Hempty EP) as [_ HPall].
    destruct (addAll_None (∅, None) C HC Hempty EC) as [_ HCall].
    destruct (flow_short _) eqn:Hshort; [discriminate | ].
    rewrite flow_short_false in Hshort. cbn [produced consumed] in Hshort.
    intros b. destruct (HPall b) as [_ HPb]. destruct (HCall b) as [HCle HCb].
    cbn [fst] in *. rewrite held_empty in *.
    split; [ | lia].
    destruct (fst (addAll (∅, None) P) !! b) as [v | ] eqn:Eb.
    + specialize (Hshort b v Eb). unfold held in HPb at 1. rewrite Eb in HPb. cbn in HPb. lia.
    + unfold held in HPb at 1. rewrite Eb in HPb. cbn in HPb.
      pose proof (assetTotal_nonneg C b HC). lia.
  - intros Hall.
    assert (EP : snd (addAll (∅, None) P) = None).
    { apply addAll_fits; [exact HP | reflexivity | ].
      intros b. cbn [fst]. rewrite held_empty. destruct (Hall b). lia. }
    rewrite EP.
    assert (EC : snd (addAll (∅, None) C) = None).
    { apply addAll_fits; [exact HC | reflexivity | ].
      intros b. cbn [fst]. rewrite held_empty. destruct (Hall b). lia. }
    rewrite EC.
    destruct (addAll_None (∅, None) P HP Hempty EP) as [_ HPall].
    destruct (addAll_None (∅, None) C HC Hempty EC) as [_ HCall].
    assert (Hshort : flow_short {| consumed := fst (addAll (∅, None) C);
                                   produced := fst (addAll (∅, None) P);
                                   errs := None |} = false).
    { apply flow_short_false. cbn [produced consumed]. intros k v Hkv.
      destruct (HPall k) as [_ HPk]. destruct (HCall k) as [_ HCk].
      cbn [fst] in *. rewrite held_empty in *.
      unfold held in HPk at 1. rewrite Hkv in HPk. cbn in HPk.
      destruct (Hall k). lia. }
    rewrite Hshort. reflexivity.
Qed.

(** ** Semantic verification of an import *)

Lemma calculateDynamicFee_nonneg (gasUsed baseFee fee : Z) :
  calculateDynamicFee gasUsed baseFee = Ok fee -> 0 <= fee.
Proof.
  unfold calculateDynamicFee.
  destruct (Z.leb_spec 0 ((gasUsed * baseFee + (x2cRate - 1)) / x2cRate)); cbn [andb].
  - destruct (_ <=? _); [intros [= <-]; assumption | discriminate].
  - discriminate.
Qed.

Lemma Produce_fresh (a : ID) (x : Z) :
  Produce NewFlowChecker a x
  = {| consumed := ∅;
       produced := fst (addAll (∅, None) [(a, x)]);
       errs := snd (addAll (∅, None) [(a, x)]) |}.
Proof.
  unfold Produce, addAll. cbn [foldl fst snd NewFlowChecker produced consumed errs].
  destruct (FlowChecker_add ∅ None a x); reflexivity.
Qed.

Lemma addAll_app (st : gmap ID Z * option error) (l k : list (ID * Z)) :
  addAll st (l ++ k) = addAll (addAll st l) k.
Proof. unfold addAll. apply foldl_app. Qed.

Lemma pair_eta {A B} (p : A * B) : (fst p, snd p) = p.
Proof. destruct p; reflexivity. Qed.

Section ImportFlow.
Context `{Collaborators}.

Lemma entries_nonneg {A} (asset : A -> ID) (amount : A -> Z) (l : list A) :
  Forall (fun x => is_uint64 (amount x)) l ->
  Forall (fun entry : ID * Z => 0 <= snd entry) (map (fun x => (asset x, amount x)) l).
Proof.
  intros Hl. apply List.Forall_map. eapply List.Forall_impl; [ | exact Hl].
  intros x [Hx _]. exact Hx.
Qed.

(** The flow checker of an import after the fee entries [F]. *)
Lemma flow_after_fee (tx : UnsignedImportTx.t) (F : list (ID * Z)) :
  foldl (fun fc i => Consume fc (axc.AssetID i) (axc.Amount i))
    (foldl (fun fc out => Produce fc (EVMOutput.AssetID out) (EVMOutput.Amount out))
       {| consumed := ∅;
          produced := fst (addAll (∅, None) F);
          errs := snd (addAll (∅, None) F) |}
       (UnsignedImportTx.Outs tx))
    (UnsignedImportTx.ImportedInputs tx)
  = {| consumed := fst (addAll (∅, snd (addAll (∅, None) (F ++ ImportSpec.outEntries tx)))
                               (ImportSpec.inEntries tx));
       produced := fst (addAll (∅, None) (F ++ ImportSpec.outEntries tx));
       errs := snd (addAll (∅, snd (addAll (∅, None) (F ++ ImportSpec.outEntries tx)))
                           (ImportSpec.inEntries tx)) |}.
Proof.
  rewrite foldl_Produce, foldl_Consume.
  cbn [consumed produced errs]. rewrite pair_eta, <- addAll_app.
  unfold ImportSpec.outEntries, ImportSpec.inEntries. reflexivity.
Qed.

Lemma flowOf_fee_error (tx : UnsignedImportTx.t) (vm : VM) (stx : Tx) (baseFee : Z)
    (rules : Rules) (e : error) :
  UnsignedAtomicTx_ stx = UnsignedImportTx.asAtomicTx tx ->
  ImportSpec.importFee tx baseFee rules = Err e ->
  UnsignedImportTx.flowOf vm stx tx baseFee rules = Err e.
Proof.
  intros Hown. unfold ImportSpec.importFee, UnsignedImportTx.flowOf,
    UnsignedImportTx.produceFee.
  rewrite Hown. cbn [atomic_GasUsed UnsignedImportTx.asAtomicTx].
  destruct (IsApricotPhase3 rules).
  - destruct (UnsignedImportTx.GasUsed tx (IsApricotPhase5 rules)) as [gasUsed | e'];
      cbn [mbind result_bind]; [ | intros [= ->]; reflexivity].
    destruct (calculateDynamicFee gasUsed baseFee); cbn [mbind result_bind];
      [discriminate | intros [= ->]; reflexivity].
  - destruct (IsApricotPhase2 rules); discriminate.
Qed.

Lemma flowOf_books (tx : UnsignedImportTx.t) (vm : VM) (stx : Tx) (baseFee : Z)
    (rules : Rules) (fee : Z) :
  UnsignedAtomicTx_ stx = UnsignedImportTx.asAtomicTx tx ->
  Forall (fun out => is_uint64 (EVMOutput.Amount out)) (UnsignedImportTx.Outs tx) ->
  Forall (fun i => is_uint64 (axc.Amount i)) (UnsignedImportTx.ImportedInputs tx) ->
  ImportSpec.importFee tx baseFee rules = Ok fee ->
  exists fc,
    UnsignedImportTx.flowOf vm stx tx baseFee rules = Ok fc
    /\ (FlowChecker_Verify fc = None
        <-> ImportSpec.booksClose (snow.AXCAssetID (ctx vm)) fee tx).
Proof.
  intros Hown Houts Hins Hfee.
  pose proof (entries_nonneg EVMOutput.AssetID EVMOutput.Amount _ Houts) as HO.
  pose proof (entries_nonneg axc.AssetID axc.Amount _ Hins) as HI.
  assert (Hwith : forall fee', 0 <= fee' -> fee' = fee ->
    FlowChecker_Verify
      {| consumed := fst (addAll (∅, snd (addAll (∅, None)
                            ([(snow.AXCAssetID (ctx vm), fee')] ++ ImportSpec.outEntries tx)))
                            (ImportSpec.inEntries tx));
         produced := fst (addAll (∅, None)
                            ([(snow.AXCAssetID (ctx vm), fee')] ++ ImportSpec.outEntries tx));
         errs := snd (addAll (∅, snd (addAll (∅, None)
                            ([(snow.AXCAssetID (ctx vm), fee')] ++ ImportSpec.outEntries tx)))
                            (ImportSpec.inEntries tx)) |} = None
    <-> ImportSpec.booksClose (snow.AXCAssetID (ctx vm)) fee tx).
  { intros fee' Hpos ->.
    rewrite flow_of_entries; [ | constructor; [exact Hpos | exact HO] | exact HI].
    unfold ImportSpec.booksClose, ImportSpec.producedTotal, ImportSpec.consumedTotal.
    split; intros Hall asset; specialize (Hall asset);
      cbn [app] in *; rewrite assetTotal_cons in *;
      repeat case_bool_decide; try congruence; lia. }
  assert (Hwithout :
    FlowChecker_Verify
      {| consumed := fst (addAll (∅, snd (addAll (∅, None) ([] ++ ImportSpec.outEntries tx)))
                            (ImportSpec.inEntries tx));
         produced := fst (addAll (∅, None) ([] ++ ImportSpec.outEntries tx));
         errs := snd (addAll (∅, snd (addAll (∅, None) ([] ++ ImportSpec.outEntries tx)))
                            (ImportSpec.inEntries tx)) |} = None
    <-> ImportSpec.booksClose (snow.AXCAssetID (ctx vm)) 0 tx).
  { rewrite flow_of_entries; [ | exact HO | exact HI].
    unfold ImportSpec.booksClose, ImportSpec.producedTotal, ImportSpec.consumedTotal.
    split; intros Hall asset; specialize (Hall asset);
      cbn [app] in *; repeat case_bool_decide; lia. }
  revert Hfee.
  unfold ImportSpec.importFee, UnsignedImportTx.flowOf, UnsignedImportTx.produceFee.
  rewrite Hown. cbn [atomic_GasUsed UnsignedImportTx.asAtomicTx].
  destruct (IsApricotPhase3 rules).
  - destruct (UnsignedImportTx.GasUsed tx (IsApricotPhase5 rules)) as [gasUsed | e'];
      cbn [mbind result_bind]; [ | discriminate].
    destruct (calculateDynamicFee gasUsed baseFee) as [fee' | e'] eqn:Efee;
      cbn [mbind result_bind]; [ | discriminate].
    intros [= ->]. eexists. split; [reflexivity | ].
    rewrite Produce_fresh, flow_after_fee.
    apply Hwith; [ | reflexivity]. eapply calculateDynamicFee_nonneg, Efee.
  - destruct (IsApricotPhase2 rules); cbn [mbind result_bind]; intros [= <-].
    + eexists. split; [reflexivity | ].
      rewrite Produce_fresh, flow_after_fee.
      apply Hwith; [unfold AxiaAtomicTxFee; lia | reflexivity].
    + eexists. split; [reflexivity | ].
      change NewFlowChecker
        with {| consumed := ∅;
                produced := fst (addAll ((∅ : gmap ID Z), @None error) []);
                errs := snd (addAll ((∅ : gmap ID Z), @None error) []) |}.
      rewrite flow_after_fee. exact Hwithout.
Qed.
End ImportFlow.




(** C6, as stated, fails: while the node is bootstrapping, an import that
    passes the structural and the flow checks but carries no credential for
    its input is not accepted. *)
Lemma ImportTx_SemanticVerify_bootstrapping_needs_credentials :
  bootstrapped (testVM false) = false
  /\ @UnsignedImportTx.Verify testCollaborators (Some importTxOneToOne) (ctx (testVM false))
       apricotRulesPhase0 = None
  /\ ImportSpec.flowCheck (testVM false)
       (signedWith (@UnsignedImportTx.asAtomicTx testCollaborators importTxOneToOne) [])
       importTxOneToOne 0 apricotRulesPhase0 = None
  /\ @UnsignedImportTx.SemanticVerify testCollaborators importTxOneToOne (testVM false)
       (signedWith (@UnsignedImportTx.asAtomicTx testCollaborators importTxOneToOne) [])
       None 0 apricotRulesPhase0
     = Some (ErrImportCredCount 1 0).
Proof. vm_compute. repeat split; reflexivity. Qed.

(** C6, amended: while the node has not finished bootstrapping,
    [SemanticVerify] of an import returns nil exactly when the structural
    checks and the flow check pass and the number of credentials equals
    the number of imported inputs; the shared-memory lookup, the checks of
    the fetched UTXOs against the credentials and the conflict check have
    no part in the result. *)
Theorem ImportTx_SemanticVerify_bootstrapping `{Collaborators}
    (tx : UnsignedImportTx.t) (vm : VM) (stx : Tx) (parent : option Block)
    (baseFee : Z) (rules : Rules)
    (Hboot : bootstrapped vm = false) :
  (UnsignedImportTx.SemanticVerify tx vm stx parent baseFee rules = None
   <-> UnsignedImportTx.Verify (Some tx) (ctx vm) rules = None
       /\ ImportSpec.flowCheck vm stx tx baseFee rules = None
       /\ length (Creds stx) = length (UnsignedImportTx.ImportedInputs tx))
  /\ (forall get unmarshal verifyTransfer conflicts parent',
        UnsignedImportTx.SemanticVerify tx
          (withStores vm get unmarshal verifyTransfer conflicts) stx parent' baseFee rules
        = UnsignedImportTx.SemanticVerify tx vm stx parent baseFee rules).
Proof.
  split.
  - unfold UnsignedImportTx.SemanticVerify, ImportSpec.flowCheck. rewrite Hboot.
    destruct (UnsignedImportTx.Verify (Some tx) (ctx vm) rules); cbn [check].
    { split; [discriminate | intros [? _]; discriminate]. }
    destruct (UnsignedImportTx.flowOf vm stx tx baseFee rules) as [fc | e].
    2: { split; [discriminate | intros (_ & ? & _); discriminate]. }
    destruct (FlowChecker_Verify fc); cbn [fmap option_fmap option_map check].
    { split; [discriminate | intros (_ & ? & _); discriminate]. }
    unfold fail_if. case_bool_decide as Hlen; cbn [negb check].
    + split; auto.
    + split; [discriminate | intros (_ & _ & ?); contradiction].
  - intros get unmarshal verifyTransfer conflicts' parent'.
    unfold UnsignedImportTx.SemanticVerify.
    change (bootstrapped (withStores vm get unmarshal verifyTransfer conflicts'))
      with (bootstrapped vm).
    change (ctx (withStores vm get unmarshal verifyTransfer conflicts')) with (ctx vm).
    change (UnsignedImportTx.flowOf (withStores vm get unmarshal verifyTransfer conflicts')
              stx tx baseFee rules)
      with (UnsignedImportTx.flowOf vm stx tx baseFee rules).
    rewrite Hboot. reflexivity.
Qed.

Lemma ImportTx_SemanticVerify_bootstrapping_witness :
  bootstrapped (testVM false) = false
  /\ @UnsignedImportTx.SemanticVerify testCollaborators importTxOneToOne
       (withStores (testVM false) (fun _ _ => Ok []) (fun _ => Err errAssetIDMismatch)
                   (fun _ _ _ _ => Some errAssetIDMismatch)
                   (fun _ _ => Some errAssetIDMismatch))
       (signedWith (@UnsignedImportTx.asAtomicTx testCollaborators importTxOneToOne)
                   [secp256k1fx_Credential [testEthAddr1]])
       None 0 apricotRulesPhase0
     = None.
Proof.
  split; [reflexivity | ].
  destruct (@ImportTx_SemanticVerify_bootstrapping testCollaborators importTxOneToOne
              (testVM false)
              (signedWith (@UnsignedImportTx.asAtomicTx testCollaborators importTxOneToOne)
                          [secp256k1fx_Credential [testEthAddr1]])
              None 0 apricotRulesPhase0 eq_refl) as [_ Hsame].
  rewrite Hsame. vm_compute. reflexivity.
Defined.

(** * Further properties *)

(** ** Gas used by an import *)

Lemma sumZ_cons (x : Z) (l : list Z) : sumZ (x :: l) = x + sumZ l.
Proof. reflexivity. Qed.

Lemma sumZ_nonneg (l : list Z) : Forall (fun x => 0 <= x) l -> 0 <= sumZ l.
Proof. induction 1 as [ | x l Hx _ IH]; [reflexivity | rewrite sumZ_cons; lia]. Qed.

Lemma inputCosts_nonneg `{Collaborators} (ins : list axc.TransferableInput)
    (costs : list Z) :
  inputCosts ins costs -> Forall (fun c => 0 <= c) costs.
Proof.
  induction 1 as [ | i c ins costs [_ [Hc _]] _ IH]; constructor; assumption.
Qed.

Lemma addInputCosts_spec `{Collaborators} (ins : list axc.TransferableInput)
    (costs : list Z) (cost : Z) :
  inputCosts ins costs ->
  cost <= MaxUint64 ->
  UnsignedImportTx.addInputCosts ins cost
  = if cost + sumZ costs <=? MaxUint64 then Ok (cost + sumZ costs) else Err errOverflow.
Proof.
  intros Hcosts. revert cost.
  induction Hcosts as [ | i c ins costs [Hc Hrange] Hrest IH]; intros cost Hcost.
  - cbn [UnsignedImportTx.addInputCosts sumZ foldr]. rewrite Z.add_0_r.
    destruct (Z.leb_spec cost MaxUint64); [reflexivity | lia].
  - cbn [UnsignedImportTx.addInputCosts]. rewrite Hc. cbn [mbind result_bind].
    rewrite Add64_spec, sumZ_cons.
    pose proof (sumZ_nonneg costs (inputCosts_nonneg _ _ Hrest)) as Hsum.
    destruct (Z.leb_spec (cost + c) MaxUint64) as [Hfit | Hover]; cbn [mbind result_bind].
    + rewrite (IH (cost + c) Hfit). rewrite Z.add_assoc. reflexivity.
    + destruct (Z.leb_spec (cost + (c + sumZ costs)) MaxUint64); [lia | reflexivity].
Qed.

(** X1: [GasUsed] of an import, when every input has a cost, is the byte
    cost plus the costs of the inputs, plus the fixed base cost exactly when
    [fixedFee] is set; it is returned when it fits 64 bits and the overflow
    error is returned when it does not. *)
Theorem ImportTx_GasUsed_checked `{Collaborators}
    (tx : UnsignedImportTx.t) (fixedFee : bool) (costs : list Z)
    (Hbytes : is_uint64 (calcBytesCost (length (UnsignedImportTx.UnsignedBytes tx))))
    (Hcosts : inputCosts (UnsignedImportTx.ImportedInputs tx) costs) :
  let total :=
    calcBytesCost (length (UnsignedImportTx.UnsignedBytes tx))
    + sumZ costs
    + (if fixedFee then AtomicTxBaseCost else 0) in
  UnsignedImportTx.GasUsed tx fixedFee
  = if total <=? MaxUint64 then Ok total else Err errOverflow.
Proof.
  cbn zeta. unfold UnsignedImportTx.GasUsed.
  destruct Hbytes as [Hb0 Hb].
  rewrite (addInputCosts_spec _ costs _ Hcosts Hb).
  pose proof (sumZ_nonneg costs (inputCosts_nonneg _ _ Hcosts)) as Hsum.
  set (byteCost := calcBytesCost _) in *.
  assert (Hbase : 0 <= AtomicTxBaseCost) by (unfold AtomicTxBaseCost; lia).
  destruct (Z.leb_spec (byteCost + sumZ costs) MaxUint64) as [Hfit | Hover];
    cbn [mbind result_bind].
  - destruct fixedFee.
    + rewrite Add64_spec. reflexivity.
    + rewrite Z.add_0_r.
      destruct (Z.leb_spec (byteCost + sumZ costs) MaxUint64); [reflexivity | lia].
  - destruct (Z.leb_spec (byteCost + sumZ costs + (if fixedFee then AtomicTxBaseCost else 0))
                         MaxUint64); [ | reflexivity].
    destruct fixedFee; lia.
Qed.

Lemma ImportTx_GasUsed_checked_witness :
  (is_uint64 (@calcBytesCost testCollaborators
                (length (UnsignedImportTx.UnsignedBytes importTxOneToOne)))
   /\ @inputCosts testCollaborators (UnsignedImportTx.ImportedInputs importTxOneToOne) [1000])
  /\ @UnsignedImportTx.GasUsed testCollaborators importTxOneToOne false = Ok 1230
  /\ @UnsignedImportTx.GasUsed testCollaborators importTxOneToOne true = Ok 11230.
Proof.
  assert (Hbytes : is_uint64 (@calcBytesCost testCollaborators
                                (length (UnsignedImportTx.UnsignedBytes importTxOneToOne)))).
  { unfold is_uint64. vm_compute. split; discriminate. }
  assert (Hcosts : @inputCosts testCollaborators
                     (UnsignedImportTx.ImportedInputs importTxOneToOne) [1000]).
  { repeat constructor; vm_compute; discriminate. }
  split; [split; assumption | ].
  rewrite (@ImportTx_GasUsed_checked testCollaborators importTxOneToOne false [1000]
             Hbytes Hcosts).
  rewrite (@ImportTx_GasUsed_checked testCollaborators importTxOneToOne true [1000]
             Hbytes Hcosts).
  vm_compute. split; reflexivity.
Defined.

(** ** Burned amounts *)

Lemma addMatching_spec {A} (asset : A -> ID) (amount : A -> Z) (assetID : ID)
    (l : list A) (acc : Z) :
  Forall (fun x => is_uint64 (amount x)) l ->
  acc <= MaxUint64 ->
  addMatching asset amount assetID l acc
  = if acc + assetTotal (map (fun x => (asset x, amount x)) l) assetID <=? MaxUint64
    then Ok (acc + assetTotal (map (fun x => (asset x, amount x)) l) assetID)
    else Err errOverflow.
Proof.
  intros Hl. revert acc.
  induction Hl as [ | x l [Hx _] Hl IH]; intros acc Hacc.
  - cbn [addMatching map]. rewrite assetTotal_nil, Z.add_0_r.
    destruct (Z.leb_spec acc MaxUint64); [reflexivity | lia].
  - cbn [addMatching map]. rewrite assetTotal_cons.
    pose proof (assetTotal_nonneg (map (fun x => (asset x, amount x)) l) assetID) as Hrest.
    assert (0 <= assetTotal (map (fun x => (asset x, amount x)) l) assetID) as Hpos.
    { apply Hrest. apply List.Forall_map. eapply List.Forall_impl; [ | exact Hl].
      intros y [Hy _]. exact Hy. }
    case_bool_decide as Hasset.
    + rewrite Add64_spec.
      destruct (Z.leb_spec (acc + amount x) MaxUint64) as [Hfit | Hover];
        cbn [mbind result_bind].
      * rewrite (IH _ Hfit). rewrite Z.add_assoc. reflexivity.
      * destruct (Z.leb_spec (acc + (amount x
                    + assetTotal (map (fun x => (asset x, amount x)) l) assetID))
                    MaxUint64); [lia | reflexivity].
    + rewrite (IH _ Hacc). rewrite Z.add_0_l. reflexivity.
Qed.

Lemma ImportTx_Burned_value (tx : UnsignedImportTx.t) (assetID : ID)
    (Houts : Forall (fun out => is_uint64 (EVMOutput.Amount out)) (UnsignedImportTx.Outs tx))
    (Hins : Forall (fun i => is_uint64 (axc.Amount i)) (UnsignedImportTx.ImportedInputs tx)) :
  let spent := assetTotal (ImportSpec.outEntries tx) assetID in
  let input := assetTotal (ImportSpec.inEntries tx) assetID in
  UnsignedImportTx_Burned tx assetID
  = if spent >? MaxUint64 then Err errOverflow
    else if input >? MaxUint64 then Err errOverflow
    else if input <? spent then Err errUnderflow
    else Ok (input - spent).
Proof.
  cbn zeta. unfold UnsignedImportTx_Burned.
  assert (Hmax : 0 <= MaxUint64) by (unfold MaxUint64; lia).
  rewrite (addMatching_spec _ _ _ _ 0 Houts Hmax).
  unfold ImportSpec.outEntries, ImportSpec.inEntries.
  set (spent := assetTotal _ assetID).
  destruct (Z.leb_spec (0 + spent) MaxUint64) as [Hs | Hs]; cbn [mbind result_bind].
  - rewrite (addMatching_spec _ _ _ _ 0 Hins Hmax).
    set (input := assetTotal _ assetID).
    destruct (Z.gtb_spec spent MaxUint64); [lia | ].
    destruct (Z.leb_spec (0 + input) MaxUint64), (Z.gtb_spec input MaxUint64); try lia;
      cbn [mbind result_bind]; [ | reflexivity].
    rewrite !Z.add_0_l. reflexivity.
  - destruct (Z.gtb_spec spent MaxUint64); [reflexivity | lia].
Qed.

(** X2: [Burned] of an import returns, for an asset, the total of the
    inputs of that asset minus the total of its outputs; it fails with the
    overflow error when the total of the outputs, or else of the inputs,
    leaves the 64-bit range, and with the underflow error when the outputs
    exceed the inputs. *)
Theorem ImportTx_Burned_spec (tx : UnsignedImportTx.t) (assetID : ID)
    (Houts : Forall (fun out => is_uint64 (EVMOutput.Amount out)) (UnsignedImportTx.Outs tx))
    (Hins : Forall (fun i => is_uint64 (axc.Amount i)) (UnsignedImportTx.ImportedInputs tx)) :
  let spent := assetTotal (ImportSpec.outEntries tx) assetID in
  let input := assetTotal (ImportSpec.inEntries tx) assetID in
  UnsignedImportTx_Burned tx assetID
  = if spent >? MaxUint64 then Err errOverflow
    else if input >? MaxUint64 then Err errOverflow
    else if input <? spent then Err errUnderflow
    else Ok (input - spent).
Proof. exact (ImportTx_Burned_value tx assetID Houts Hins). Qed.

Lemma ImportTx_Burned_spec_witness :
  (Forall (fun out => is_uint64 (EVMOutput.Amount out)) (UnsignedImportTx.Outs importTx)
   /\ Forall (fun i => is_uint64 (axc.Amount i)) (UnsignedImportTx.ImportedInputs importTx))
  /\ UnsignedImportTx_Burned importTx testAxcAssetID = Ok AxiaAtomicTxFee.
Proof.
  assert (Houts : Forall (fun out => is_uint64 (EVMOutput.Amount out))
                         (UnsignedImportTx.Outs importTx))
    by (repeat constructor; vm_compute; discriminate).
  assert (Hins : Forall (fun i => is_uint64 (axc.Amount i))
                        (UnsignedImportTx.ImportedInputs importTx))
    by (repeat constructor; vm_compute; discriminate).
  split; [split; assumption | ].
  rewrite (ImportTx_Burned_spec importTx testAxcAssetID Houts Hins).
  vm_compute. reflexivity.
Defined.

Lemma ExportTx_Burned_value (tx : UnsignedExportTx.t) (assetID : ID)
    (Houts : Forall (fun out => is_uint64 (axc.OutAmount out))
                    (UnsignedExportTx.ExportedOutputs tx))
    (Hins : Forall (fun i => is_uint64 (EVMInput.Amount i)) (UnsignedExportTx.Ins tx)) :
  let spent := assetTotal (ExportFlowSpec.outEntries tx) assetID in
  let input := assetTotal (ExportFlowSpec.inEntries tx) assetID in
  UnsignedExportTx_Burned tx assetID
  = if spent >? MaxUint64 then Err errOverflow
    else if input >? MaxUint64 then Err errOverflow
    else if input <? spent then Err errUnderflow
    else Ok (input - spent).
Proof.
  cbn zeta. unfold UnsignedExportTx_Burned.
  assert (Hmax : 0 <= MaxUint64) by (unfold MaxUint64; lia).
  rewrite (addMatching_spec _ _ _ _ 0 Houts Hmax).
  unfold ExportFlowSpec.outEntries, ExportFlowSpec.inEntries.
  set (spent := assetTotal _ assetID).
  destruct (Z.leb_spec (0 + spent) MaxUint64) as [Hs | Hs]; cbn [mbind result_bind].
  - rewrite (addMatching_spec _ _ _ _ 0 Hins Hmax).
    set (input := assetTotal _ assetID).
    destruct (Z.gtb_spec spent MaxUint64); [lia | ].
    destruct (Z.leb_spec (0 + input) MaxUint64), (Z.gtb_spec input MaxUint64); try lia;
      cbn [mbind result_bind]; [ | reflexivity].
    rewrite !Z.add_0_l. reflexivity.
  - destruct (Z.gtb_spec spent MaxUint64); [reflexivity | lia].
Qed.

(** X3: [Burned] of an export returns, for an asset, the total of the
    inputs of that asset minus the total of the exported outputs, with the
    same overflow and underflow errors. *)
Theorem ExportTx_Burned_spec (tx : UnsignedExportTx.t) (assetID : ID)
    (Houts : Forall (fun out => is_uint64 (axc.OutAmount out))
                    (UnsignedExportTx.ExportedOutputs tx))
    (Hins : Forall (fun i => is_uint64 (EVMInput.Amount i)) (UnsignedExportTx.Ins tx)) :
  let spent := assetTotal (ExportFlowSpec.outEntries tx) assetID in
  let input := assetTotal (ExportFlowSpec.inEntries tx) assetID in
  UnsignedExportTx_Burned tx assetID
  = if spent >? MaxUint64 then Err errOverflow
    else if input >? MaxUint64 then Err errOverflow
    else if input <? spent then Err errUnderflow
    else Ok (input - spent).
Proof. exact (ExportTx_Burned_value tx assetID Houts Hins). Qed.

Lemma ExportTx_Burned_spec_witness :
  (Forall (fun out => is_uint64 (axc.OutAmount out)) (UnsignedExportTx.ExportedOutputs exportTx)
   /\ Forall (fun i => is_uint64 (EVMInput.Amount i)) (UnsignedExportTx.Ins exportTx))
  /\ UnsignedExportTx_Burned exportTx testAxcAssetID = Ok AxiaAtomicTxFee
  /\ UnsignedExportTx_Burned exportTxStaleNonce testAxcAssetID = Ok 0.
Proof.
  assert (Houts : Forall (fun out => is_uint64 (axc.OutAmount out))
                         (UnsignedExportTx.ExportedOutputs exportTx))
    by (repeat constructor; vm_compute; discriminate).
  assert (Hins : Forall (fun i => is_uint64 (EVMInput.Amount i)) (UnsignedExportTx.Ins exportTx))
    by (repeat constructor; vm_compute; discriminate).
  split; [split; assumption | ].
  rewrite (ExportTx_Burned_spec exportTx testAxcAssetID Houts Hins).
  vm_compute. split; reflexivity.
Defined.

(** ** Inputs consumed by an import *)

Lemma foldl_union_singletons {A} (f : A -> ID) (l : list A) (acc : gset ID) (x : ID) :
  x ∈ foldl (fun set i => set ∪ {[ f i ]}) acc l
  <-> x ∈ acc \/ exists i, In i l /\ x = f i.
Proof.
  revert acc. induction l as [ | i l IH]; intros acc.
  - cbn. split; [auto | intros [? | (? & [] & _)]; assumption].
  - cbn [foldl]. rewrite IH, elem_of_union, elem_of_singleton. split.
    + intros [[Hacc | ->] | (j & Hj & ->)]; [auto | right; exists i | right; exists j];
        split; cbn; auto.
    + intros [Hacc | (j & [<- | Hj] & ->)]; [auto | auto | right; exists j; auto].
Qed.

(** X4: [InputUTXOs] of an import is the set of the input IDs of its
    imported inputs: an ID is in the set exactly when some imported input
    has it, and the set is never larger than the list of inputs. *)
Theorem ImportTx_InputUTXOs_members `{Collaborators} (tx : UnsignedImportTx.t) :
  (forall x : ID,
     x ∈ UnsignedImportTx.InputUTXOs tx
     <-> exists i, In i (UnsignedImportTx.ImportedInputs tx) /\ x = InputID (axc.UTXOID_ i))
  /\ (size (UnsignedImportTx.InputUTXOs tx) <= length (UnsignedImportTx.ImportedInputs tx))%nat.
Proof.
  split.
  - intros x. unfold UnsignedImportTx.InputUTXOs.
    rewrite foldl_union_singletons. split; [intros [Hempty | Hex] | auto]; [ | exact Hex].
    exfalso. exact (not_elem_of_empty x Hempty).
  - unfold UnsignedImportTx.InputUTXOs.
    generalize (UnsignedImportTx.ImportedInputs tx). intros l.
    assert (Hgen : forall acc : gset ID,
              (size (foldl (fun set i => set ∪ {[ InputID (axc.UTXOID_ i) ]}) acc l)
               <= size acc + length l)%nat).
    { induction l as [ | i l IH]; intros acc; cbn [foldl length]; [lia | ].
      specialize (IH (acc ∪ {[ InputID (axc.UTXOID_ i) ]})).
      pose proof (size_union_alt acc {[ InputID (axc.UTXOID_ i) ]}) as Hsize.
      assert (size ({[ InputID (axc.UTXOID_ i) ]} ∖ acc : gset ID) <= 1)%nat.
      { etransitivity; [apply subseteq_size, subseteq_difference_l; reflexivity | ].
        rewrite size_singleton. lia. }
      lia. }
    specialize (Hgen ∅). rewrite size_empty in Hgen. exact Hgen.
Qed.

(** ** State transfer of an import *)

Lemma GetBalance_AddBalance (s : StateDB) (a b : Address) (amount : Z) :
  GetBalance (AddBalance s a amount) b
  = if bool_decide (a = b) then GetBalance s b + amount else GetBalance s b.
Proof.
  unfold GetBalance at 1. cbn [AddBalance balances]. rewrite lookup_insert.
  case_decide as Hab.
  - subst. rewrite (bool_decide_eq_true_2 _ eq_refl). reflexivity.
  - rewrite (bool_decide_eq_false_2 _ Hab). reflexivity.
Qed.

Lemma GetBalanceMultiCoin_AddBalanceMultiCoin (s : StateDB) (a b : Address) (c d : ID)
    (amount : Z) :
  GetBalanceMultiCoin (AddBalanceMultiCoin s a c amount) b d
  = if bool_decide ((a, c) = (b, d))
    then GetBalanceMultiCoin s b d + amount
    else GetBalanceMultiCoin s b d.
Proof.
  unfold GetBalanceMultiCoin at 1. cbn [AddBalanceMultiCoin multiCoin]. rewrite lookup_insert.
  case_decide as Hab.
  - injection Hab as -> ->. rewrite (bool_decide_eq_true_2 _ eq_refl). reflexivity.
  - rewrite (bool_decide_eq_false_2 _ Hab). reflexivity.
Qed.

Lemma importCredits (ctx : snow.Context) (outs : list EVMOutput.t) (state : StateDB) :
  let state' :=
    foldl (fun state to =>
             if bool_decide (EVMOutput.AssetID to = snow.AXCAssetID ctx)
             then AddBalance state (EVMOutput.Address to) (EVMOutput.Amount to * x2cRate)
             else AddBalanceMultiCoin state (EVMOutput.Address to) (EVMOutput.AssetID to)
                                      (EVMOutput.Amount to))
          state outs in
  nonces state' = nonces state
  /\ (forall addr, GetBalance state' addr
                   = GetBalance state addr + x2cRate * nativeCredit ctx outs addr)
  /\ (forall addr coin, GetBalanceMultiCoin state' addr coin
                        = GetBalanceMultiCoin state addr coin + coinCredit ctx outs addr coin).
Proof.
  cbn zeta. revert state. induction outs as [ | to outs IH]; intros state.
  - cbn. repeat split; intros; lia.
  - cbn [foldl]. unfold nativeCredit, coinCredit in *.
    case_bool_decide as Hnative.
    + destruct (IH (AddBalance state (EVMOutput.Address to) (EVMOutput.Amount to * x2cRate)))
        as (Hn & Hb & Hm).
      split; [exact Hn | split].
      * intros addr. rewrite Hb, GetBalance_AddBalance, filter_cons.
        case_bool_decide as Haddr; case_decide as Hp; try tauto.
        cbn [map]. rewrite sumZ_cons. lia.
      * intros addr coin. rewrite Hm, filter_cons.
        case_decide as Hp; [tauto | reflexivity].
    + destruct (IH (AddBalanceMultiCoin state (EVMOutput.Address to) (EVMOutput.AssetID to)
                                        (EVMOutput.Amount to)))
        as (Hn & Hb & Hm).
      split; [exact Hn | split].
      * intros addr. rewrite Hb, filter_cons.
        case_decide as Hp; [tauto | reflexivity].
      * intros addr coin. rewrite Hm, GetBalanceMultiCoin_AddBalanceMultiCoin, filter_cons.
        case_bool_decide as Hkey; case_decide as Hp.
        -- cbn [map]. rewrite sumZ_cons. lia.
        -- exfalso. injection Hkey as Ha Hc. tauto.
        -- exfalso. destruct Hp as (Ha & Hc & _). apply Hkey. congruence.
        -- reflexivity.
Qed.

Lemma coinCredit_native (ctx : snow.Context) (outs : list EVMOutput.t) (addr : Address) :
  coinCredit ctx outs addr (snow.AXCAssetID ctx) = 0.
Proof.
  unfold coinCredit. induction outs as [ | out outs IH]; [reflexivity | ].
  rewrite filter_cons. case_decide as Hp; [ | exact IH].
  destruct Hp as (_ & ? & ?). contradiction.
Qed.

(** X5: [EVMStateTransfer] of an import never fails and changes no nonce;
    it adds to the native balance of every address [x2cRate] times the
    native amounts of the outputs to that address, and to the balance of
    every other asset the amounts of the outputs of that asset to that
    address; the multi-coin balance of the native asset is not touched. *)
Theorem ImportTx_EVMStateTransfer_credits
    (tx : UnsignedImportTx.t) (ctx : snow.Context) (state : StateDB) :
  let result := UnsignedImportTx.EVMStateTransfer tx ctx state in
  snd result = None
  /\ nonces (fst result) = nonces state
  /\ (forall addr,
        GetBalance (fst result) addr
        = GetBalance state addr
          + x2cRate * nativeCredit ctx (UnsignedImportTx.Outs tx) addr)
  /\ (forall addr coin,
        GetBalanceMultiCoin (fst result) addr coin
        = GetBalanceMultiCoin state addr coin
          + coinCredit ctx (UnsignedImportTx.Outs tx) addr coin)
  /\ (forall addr,
        GetBalanceMultiCoin (fst result) addr (snow.AXCAssetID ctx)
        = GetBalanceMultiCoin state addr (snow.AXCAssetID ctx)).
Proof.
  cbn zeta. unfold UnsignedImportTx.EVMStateTransfer. cbn [fst snd].
  destruct (importCredits ctx (UnsignedImportTx.Outs tx) state) as (Hn & Hb & Hm).
  repeat split; auto.
  intros addr. rewrite Hm, coinCredit_native. lia.
Qed.

(** ** Structural verification of an export *)

Lemma range_verify_head {A} (f : A -> option error) (l : list A) :
  range_verify f l = head (omap f l).
Proof.
  induction l as [ | x l IH]; [reflexivity | ].
  cbn. destruct (f x); [reflexivity | exact IH].
Qed.

Lemma omap_ext_eq {A B} (f g : A -> option B) (l : list A) :
  (forall x, f x = g x) -> omap f l = omap g l.
Proof.
  intros Hfg. induction l as [ | x l IH]; [reflexivity | ].
  cbn. rewrite Hfg, IH. reflexivity.
Qed.

Lemma ExportTx_Verify_first_failure `{Collaborators} (tx : UnsignedExportTx.t)
    (ctx : snow.Context) (rules : Rules) :
  UnsignedExportTx.Verify (Some tx) ctx rules
  = first_failure (ExportFlowSpec.exportChecks tx ctx rules).
Proof.
  unfold UnsignedExportTx.Verify, ExportFlowSpec.exportChecks.
  rewrite !first_failure_cons.
  rewrite length_zero_nil, negb_eqb_bool_decide, negb_bool_decide_eq_sym,
          negb_bool_decide_eq, !range_verify_head.
  assert (Hout : forall out,
    UnsignedExportTx.verifyExportedOutput tx ctx out
    = match TransferableOutput_Verify out with
      | Some e => Some e
      | None =>
          fail_if (bool_decide (axc.OutAssetID out <> snow.AXCAssetID ctx
                                /\ UnsignedExportTx.DestinationChain tx = PlatformChainID))
                  errWrongChainID
      end).
  { intros out. unfold UnsignedExportTx.verifyExportedOutput.
    destruct (TransferableOutput_Verify out); [reflexivity | ]. cbn [check].
    f_equal. repeat case_bool_decide; try reflexivity; tauto. }
  rewrite (omap_ext_eq _ _ _ Hout).
  assert (Hchain :
    (if IsApricotPhase5 rules
     then match SameAllychain ctx (UnsignedExportTx.DestinationChain tx) with
          | Some _ => Some errWrongChainID
          | None => None
          end
     else fail_if (bool_decide (UnsignedExportTx.DestinationChain tx <> snow.SwapChainID ctx))
                  errWrongChainID)
    = fail_if (if IsApricotPhase5 rules
               then bool_decide (is_Some (SameAllychain ctx
                                            (UnsignedExportTx.DestinationChain tx)))
               else bool_decide (UnsignedExportTx.DestinationChain tx
                                 <> snow.SwapChainID ctx))
              errWrongChainID).
  { destruct (IsApricotPhase5 rules); [ | reflexivity].
    destruct (SameAllychain ctx (UnsignedExportTx.DestinationChain tx)); reflexivity. }
  rewrite Hchain.
  change (first_failure []) with (@None error). rewrite check_None_r. reflexivity.
Qed.

(** X6: [Verify] of an export returns the nil-transaction error for a nil
    receiver and otherwise the first failure of its checks in the order:
    no exported outputs, network ID, blockchain ID, destination chain,
    every input, every output (its own check, then the native-asset rule of
    the platform chain), outputs sorted, inputs sorted and unique from
    phase 1 on; it returns nil exactly when no check fails. *)
Theorem ExportTx_Verify_order `{Collaborators} (ctx : snow.Context) (rules : Rules) :
  UnsignedExportTx.Verify None ctx rules = Some errNilTx
  /\ (forall tx,
        UnsignedExportTx.Verify (Some tx) ctx rules
        = first_failure (ExportFlowSpec.exportChecks tx ctx rules))
  /\ (forall tx,
        UnsignedExportTx.Verify (Some tx) ctx rules = None
        <-> Forall (fun c => c = None) (ExportFlowSpec.exportChecks tx ctx rules)).
Proof.
  split; [reflexivity | ].
  split; [intros tx; apply ExportTx_Verify_first_failure | ].
  intros tx. rewrite ExportTx_Verify_first_failure. apply first_failure_None.
Qed.

(** ** Semantic verification of an export *)

Section ExportFlow.
Context `{Collaborators}.

Lemma export_flow_after_fee (tx : UnsignedExportTx.t) (F : list (ID * Z)) :
  foldl (fun fc i => Consume fc (EVMInput.AssetID i) (EVMInput.Amount i))
    (foldl (fun fc out => Produce fc (axc.OutAssetID out) (axc.OutAmount out))
       {| consumed := ∅;
          produced := fst (addAll (∅, None) F);
          errs := snd (addAll (∅, None) F) |}
       (UnsignedExportTx.ExportedOutputs tx))
    (UnsignedExportTx.Ins tx)
  = {| consumed := fst (addAll (∅, snd (addAll (∅, None) (F ++ ExportFlowSpec.outEntries tx)))
                               (ExportFlowSpec.inEntries tx));
       produced := fst (addAll (∅, None) (F ++ ExportFlowSpec.outEntries tx));
       errs := snd (addAll (∅, snd (addAll (∅, None) (F ++ ExportFlowSpec.outEntries tx)))
                           (ExportFlowSpec.inEntries tx)) |}.
Proof.
  rewrite foldl_Produce, foldl_Consume.
  cbn [consumed produced errs]. rewrite pair_eta, <- addAll_app.
  unfold ExportFlowSpec.outEntries, ExportFlowSpec.inEntries. reflexivity.
Qed.

Lemma export_flowOf_fee_error (tx : UnsignedExportTx.t) (vm : VM) (stx : Tx) (baseFee : Z)
    (rules : Rules) (e : error) :
  UnsignedAtomicTx_ stx = UnsignedExportTx.asAtomicTx tx ->
  ExportFlowSpec.exportFee tx baseFee rules = Err e ->
  UnsignedExportTx.flowOf vm stx tx baseFee rules = Err e.
Proof.
  intros Hown. unfold ExportFlowSpec.exportFee, UnsignedExportTx.flowOf,
    UnsignedExportTx.produceFee.
  rewrite Hown. cbn [atomic_GasUsed UnsignedExportTx.asAtomicTx].
  destruct (IsApricotPhase3 rules); [ | discriminate].
  destruct (UnsignedExportTx.GasUsed tx (IsApricotPhase5 rules)) as [gasUsed | e'];
    cbn [mbind result_bind]; [ | intros [= ->]; reflexivity].
  destruct (calculateDynamicFee gasUsed baseFee); cbn [mbind result_bind];
    [discriminate | intros [= ->]; reflexivity].
Qed.

Lemma export_flowOf_books (tx : UnsignedExportTx.t) (vm : VM) (stx : Tx) (baseFee : Z)
    (rules : Rules) (fee : Z) :
  UnsignedAtomicTx_ stx = UnsignedExportTx.asAtomicTx tx ->
  Forall (fun out => is_uint64 (axc.OutAmount out)) (UnsignedExportTx.ExportedOutputs tx) ->
  Forall (fun i => is_uint64 (EVMInput.Amount i)) (UnsignedExportTx.Ins tx) ->
  ExportFlowSpec.exportFee tx baseFee rules = Ok fee ->
  exists fc,
    UnsignedExportTx.flowOf vm stx tx baseFee rules = Ok fc
    /\ (FlowChecker_Verify fc = None
        <-> ExportFlowSpec.booksClose (snow.AXCAssetID (ctx vm)) fee tx).
Proof.
  intros Hown Houts Hins Hfee.
  pose proof (entries_nonneg axc.OutAssetID axc.OutAmount _ Houts) as HO.
  pose proof (entries_nonneg EVMInput.AssetID EVMInput.Amount _ Hins) as HI.
  assert (Hwith : forall fee', 0 <= fee' -> fee' = fee ->
    FlowChecker_Verify
      {| consumed := fst (addAll (∅, snd (addAll (∅, None)
                            ([(snow.AXCAssetID (ctx vm), fee')] ++ ExportFlowSpec.outEntries tx)))
                            (ExportFlowSpec.inEntries tx));
         produced := fst (addAll (∅, None)
                            ([(snow.AXCAssetID (ctx vm), fee')] ++ ExportFlowSpec.outEntries tx));
         errs := snd (addAll (∅, snd (addAll (∅, None)
                            ([(snow.AXCAssetID (ctx vm), fee')] ++ ExportFlowSpec.outEntries tx)))
                            (ExportFlowSpec.inEntries tx)) |} = None
    <-> ExportFlowSpec.booksClose (snow.AXCAssetID (ctx vm)) fee tx).
  { intros fee' Hpos ->.
    rewrite flow_of_entries; [ | constructor; [exact Hpos | exact HO] | exact HI].
    unfold ExportFlowSpec.booksClose.
    split; intros Hall asset; specialize (Hall asset);
      cbn [app] in *; rewrite assetTotal_cons in *;
      repeat case_bool_decide; try congruence; lia. }
  revert Hfee.
  unfold ExportFlowSpec.exportFee, UnsignedExportTx.flowOf, UnsignedExportTx.produceFee.
  rewrite Hown. cbn [atomic_GasUsed UnsignedExportTx.asAtomicTx].
  destruct (IsApricotPhase3 rules).
  - destruct (UnsignedExportTx.GasUsed tx (IsApricotPhase5 rules)) as [gasUsed | e'];
      cbn [mbind result_bind]; [ | discriminate].
    destruct (calculateDynamicFee gasUsed baseFee) as [fee' | e'] eqn:Efee;
      cbn [mbind result_bind]; [ | discriminate].
    intros [= ->]. eexists. split; [reflexivity | ].
    rewrite Produce_fresh, export_flow_after_fee.
    apply Hwith; [ | reflexivity]. eapply calculateDynamicFee_nonneg, Efee.
  - cbn [mbind result_bind]. intros [= <-].
    eexists. split; [reflexivity | ].
    rewrite Produce_fresh, export_flow_after_fee.
    apply Hwith; [unfold AxiaAtomicTxFee; lia | reflexivity].
Qed.

Lemma verifyCredential_iff (vm : VM) (tx : UnsignedExportTx.t) (input : EVMInput.t)
    (cred : Credential) :
  UnsignedExportTx.verifyCredential vm tx input cred = None
  <-> ExportFlowSpec.verifiedBy vm tx input cred.
Proof.
  unfold UnsignedExportTx.verifyCredential, ExportFlowSpec.verifiedBy. split.
  - destruct cred as [Sigs | kind]; [ | discriminate].
    intros Hv. apply check_None in Hv as [Hcred Hv].
    destruct Sigs as [ | sig [ | sig' Sigs]]; try discriminate.
    destruct (secpFactory_RecoverPublicKey vm (UnsignedExportTx.UnsignedBytes tx) sig)
      as [[pubKey | kind] | e] eqn:Erec; try discriminate.
    exists sig, pubKey. repeat split; auto.
    unfold fail_if in Hv. case_bool_decide; [congruence | discriminate].
  - intros (sig & pubKey & -> & Hcred & Hrec & Haddr).
    rewrite Hcred, Hrec. cbn [check].
    unfold fail_if. rewrite bool_decide_eq_true_2 by congruence. reflexivity.
Qed.

Lemma verifyCredentials_iff (vm : VM) (stx : Tx) (tx : UnsignedExportTx.t)
    (ins : list EVMInput.t) (i : nat) :
  (length ins + i)%nat = length (Creds stx) ->
  UnsignedExportTx.verifyCredentials vm stx tx i ins = None
  <-> Forall2 (ExportFlowSpec.verifiedBy vm tx) ins (drop i (Creds stx)).
Proof.
  revert i. induction ins as [ | input ins IH]; intros i Hlen.
  - cbn in Hlen. rewrite drop_ge by lia. split; [constructor | reflexivity].
  - cbn [UnsignedExportTx.verifyCredentials].
    destruct (Creds stx !! i) as [cred | ] eqn:Ecred.
    + rewrite (drop_S _ _ _ Ecred), check_None, verifyCredential_iff,
              (IH (S i)) by (cbn in Hlen; lia).
      split.
      * intros [Hc Hrest]. constructor; assumption.
      * intros Hall. apply Forall2_cons_1 in Hall. exact Hall.
    + apply lookup_ge_None in Ecred. cbn in Hlen. lia.
Qed.
End ExportFlow.

(** X7: for an export that passes [Verify], [SemanticVerify] produces the
    fee of the native asset (the dynamic fee of the transaction's own gas
    from phase 3 on, the fixed fee in every earlier phase, phase 0
    included), then every exported amount, and consumes every input amount;
    a failure to compute the fee is returned as it is, the flow check
    passes exactly when the per-asset books close, and when they do not the
    result is an error that wraps the failure of the flow check. *)
Theorem ExportTx_SemanticVerify_flow `{Collaborators}
    (tx : UnsignedExportTx.t) (vm : VM) (stx : Tx) (parent : option Block)
    (baseFee : Z) (rules : Rules)
    (Hown : UnsignedAtomicTx_ stx = UnsignedExportTx.asAtomicTx tx)
    (Hverify : UnsignedExportTx.Verify (Some tx) (ctx vm) rules = None)
    (Houts : Forall (fun out => is_uint64 (axc.OutAmount out))
                    (UnsignedExportTx.ExportedOutputs tx))
    (Hins : Forall (fun i => is_uint64 (EVMInput.Amount i)) (UnsignedExportTx.Ins tx)) :
  match ExportFlowSpec.exportFee tx baseFee rules with
  | Err e => UnsignedExportTx.SemanticVerify tx vm stx parent baseFee rules = Some e
  | Ok fee =>
      (ExportFlowSpec.flowCheck vm stx tx baseFee rules = None
       <-> ExportFlowSpec.booksClose (snow.AXCAssetID (ctx vm)) fee tx)
      /\ (~ ExportFlowSpec.booksClose (snow.AXCAssetID (ctx vm)) fee tx ->
          exists e,
            UnsignedExportTx.SemanticVerify tx vm stx parent baseFee rules
            = Some (ErrExportFlowCheck e))
  end.
Proof.
  destruct (ExportFlowSpec.exportFee tx baseFee rules) as [fee | e] eqn:Efee.
  - destruct (export_flowOf_books tx vm stx baseFee rules fee Hown Houts Hins Efee)
      as (fc & Hflow & Hbooks).
    unfold ExportFlowSpec.flowCheck, UnsignedExportTx.SemanticVerify.
    rewrite Hverify, Hflow. cbn [check].
    split; [exact Hbooks | ].
    intros Hopen.
    destruct (FlowChecker_Verify fc) as [e | ]; [ | exfalso; apply Hopen, Hbooks; reflexivity].
    exists e. reflexivity.
  - unfold UnsignedExportTx.SemanticVerify.
    rewrite Hverify, (export_flowOf_fee_error tx vm stx baseFee rules e Hown Efee). reflexivity.
Qed.

Lemma ExportTx_SemanticVerify_flow_witness :
  (UnsignedAtomicTx_ (signedWith (@UnsignedExportTx.asAtomicTx testCollaborators exportTx) [])
   = @UnsignedExportTx.asAtomicTx testCollaborators exportTx
   /\ @UnsignedExportTx.Verify testCollaborators (Some exportTx) (ctx (testVM true))
        apricotRulesPhase0 = None
   /\ Forall (fun out => is_uint64 (axc.OutAmount out)) (UnsignedExportTx.ExportedOutputs exportTx)
   /\ Forall (fun i => is_uint64 (EVMInput.Amount i)) (UnsignedExportTx.Ins exportTx))
  /\ ExportFlowSpec.booksClose testAxcAssetID AxiaAtomicTxFee exportTx.
Proof.
  assert (Hverify : @UnsignedExportTx.Verify testCollaborators (Some exportTx)
                      (ctx (testVM true)) apricotRulesPhase0 = None)
    by (vm_compute; reflexivity).
  assert (Houts : Forall (fun out => is_uint64 (axc.OutAmount out))
                         (UnsignedExportTx.ExportedOutputs exportTx))
    by (repeat constructor; vm_compute; discriminate).
  assert (Hins : Forall (fun i => is_uint64 (EVMInput.Amount i)) (UnsignedExportTx.Ins exportTx))
    by (repeat constructor; vm_compute; discriminate).
  split; [repeat split; assumption | ].
  pose proof (@ExportTx_SemanticVerify_flow testCollaborators exportTx (testVM true)
                (signedWith (@UnsignedExportTx.asAtomicTx testCollaborators exportTx) [])
                None 0 apricotRulesPhase0 eq_refl Hverify Houts Hins) as Hflow.
  cbn [ExportFlowSpec.exportFee apricotRulesPhase0 IsApricotPhase3] in Hflow.
  destruct Hflow as [Hbooks _]. apply Hbooks. vm_compute. reflexivity.
Defined.

(** X8: [SemanticVerify] of an export returns nil exactly when [Verify]
    passes, the fee computation and the flow check pass, and inputs and
    credentials pair up one to one, every credential being a secp256k1
    credential that passes its own check and holds one signature whose
    recovered key maps to the address of its input. *)
Theorem ExportTx_SemanticVerify_accepts `{Collaborators}
    (tx : UnsignedExportTx.t) (vm : VM) (stx : Tx) (parent : option Block)
    (baseFee : Z) (rules : Rules) :
  UnsignedExportTx.SemanticVerify tx vm stx parent baseFee rules = None
  <-> UnsignedExportTx.Verify (Some tx) (ctx vm) rules = None
      /\ ExportFlowSpec.flowCheck vm stx tx baseFee rules = None
      /\ Forall2 (ExportFlowSpec.verifiedBy vm tx) (UnsignedExportTx.Ins tx) (Creds stx).
Proof.
  unfold UnsignedExportTx.SemanticVerify, ExportFlowSpec.flowCheck.
  destruct (UnsignedExportTx.Verify (Some tx) (ctx vm) rules); cbn [check].
  { split; [discriminate | intros [? _]; discriminate]. }
  destruct (UnsignedExportTx.flowOf vm stx tx baseFee rules) as [fc | e].
  2: { split; [discriminate | intros (_ & ? & _); discriminate]. }
  destruct (FlowChecker_Verify fc); cbn [fmap option_fmap option_map check].
  { split; [discriminate | intros (_ & ? & _); discriminate]. }
  unfold fail_if. case_bool_decide as Hlen; cbn [negb check].
  - rewrite (verifyCredentials_iff vm stx tx _ 0%nat) by lia.
    cbn [drop]. tauto.
  - split; [discriminate | ].
    intros (_ & _ & Hall). apply Forall2_length in Hall. contradiction.
Qed.

(** ** What an accepted transaction burns *)

Lemma importFee_nonneg `{Collaborators} (tx : UnsignedImportTx.t) (baseFee : Z)
    (rules : Rules) (fee : Z) :
  ImportSpec.importFee tx baseFee rules = Ok fee -> 0 <= fee.
Proof.
  unfold ImportSpec.importFee.
  destruct (IsApricotPhase3 rules).
  - destruct (UnsignedImportTx.GasUsed tx (IsApricotPhase5 rules)); cbn [mbind result_bind];
      [apply calculateDynamicFee_nonneg | discriminate].
  - destruct (IsApricotPhase2 rules); intros [= <-]; [unfold AxiaAtomicTxFee | ]; lia.
Qed.

Lemma exportFee_nonneg `{Collaborators} (tx : UnsignedExportTx.t) (baseFee : Z)
    (rules : Rules) (fee : Z) :
  ExportFlowSpec.exportFee tx baseFee rules = Ok fee -> 0 <= fee.
Proof.
  unfold ExportFlowSpec.exportFee.
  destruct (IsApricotPhase3 rules).
  - destruct (UnsignedExportTx.GasUsed tx (IsApricotPhase5 rules)); cbn [mbind result_bind];
      [apply calculateDynamicFee_nonneg | discriminate].
  - intros [= <-]. unfold AxiaAtomicTxFee. lia.
Qed.

(** X9: an import that [SemanticVerify] accepts burns at least its fee of
    the native asset and creates nothing of any asset: [Burned] succeeds for
    every asset with a result that is not negative, and for the native
    asset the result is at least the required fee. *)
Theorem ImportTx_accepted_burns_fee `{Collaborators}
    (tx : UnsignedImportTx.t) (vm : VM) (stx : Tx) (parent : option Block)
    (baseFee : Z) (rules : Rules)
    (Hown : UnsignedAtomicTx_ stx = UnsignedImportTx.asAtomicTx tx)
    (Houts : Forall (fun out => is_uint64 (EVMOutput.Amount out)) (UnsignedImportTx.Outs tx))
    (Hins : Forall (fun i => is_uint64 (axc.Amount i)) (UnsignedImportTx.ImportedInputs tx))
    (Hok : UnsignedImportTx.SemanticVerify tx vm stx parent baseFee rules = None) :
  exists fee burned,
    ImportSpec.importFee tx baseFee rules = Ok fee
    /\ UnsignedImportTx_Burned tx (snow.AXCAssetID (ctx vm)) = Ok burned
    /\ fee <= burned
    /\ forall asset, exists b, UnsignedImportTx_Burned tx asset = Ok b /\ 0 <= b.
Proof.
  unfold UnsignedImportTx.SemanticVerify in Hok.
  apply check_None in Hok as [Hverify Hok].
  destruct (ImportSpec.importFee tx baseFee rules) as [fee | e] eqn:Efee.
  2: { rewrite (flowOf_fee_error tx vm stx baseFee rules e Hown Efee) in Hok. discriminate. }
  destruct (flowOf_books tx vm stx baseFee rules fee Hown Houts Hins Efee)
    as (fc & Hflow & Hbooks).
  rewrite Hflow in Hok. apply check_None in Hok as [Hfc _].
  destruct (FlowChecker_Verify fc); [discriminate | ].
  pose proof (proj1 Hbooks eq_refl) as Hclose.
  pose proof (importFee_nonneg tx baseFee rules fee Efee) as Hfee.
  assert (Hburn : forall asset,
    UnsignedImportTx_Burned tx asset
    = Ok (assetTotal (ImportSpec.inEntries tx) asset
          - assetTotal (ImportSpec.outEntries tx) asset)
    /\ (if bool_decide (asset = snow.AXCAssetID (ctx vm)) then fee else 0)
       <= assetTotal (ImportSpec.inEntries tx) asset
          - assetTotal (ImportSpec.outEntries tx) asset).
  { intros asset. rewrite (ImportTx_Burned_value tx asset Houts Hins). cbn zeta.
    destruct (Hclose asset) as [Hle Hmax].
    unfold ImportSpec.producedTotal, ImportSpec.consumedTotal in *.
    pose proof (assetTotal_nonneg (ImportSpec.outEntries tx) asset
                  (entries_nonneg EVMOutput.AssetID EVMOutput.Amount _ Houts)) as Hout.
    assert (0 <= (if bool_decide (asset = snow.AXCAssetID (ctx vm)) then fee else 0))
      by (case_bool_decide; lia).
    destruct (Z.gtb_spec (assetTotal (ImportSpec.outEntries tx) asset) MaxUint64); [lia | ].
    destruct (Z.gtb_spec (assetTotal (ImportSpec.inEntries tx) asset) MaxUint64); [lia | ].
    destruct (Z.ltb_spec (assetTotal (ImportSpec.inEntries tx) asset)
                         (assetTotal (ImportSpec.outEntries tx) asset)); [lia | ].
    split; [reflexivity | lia]. }
  exists fee, (assetTotal (ImportSpec.inEntries tx) (snow.AXCAssetID (ctx vm))
               - assetTotal (ImportSpec.outEntries tx) (snow.AXCAssetID (ctx vm))).
  split; [reflexivity | ].
  destruct (Hburn (snow.AXCAssetID (ctx vm))) as [Hb Hle].
  rewrite (bool_decide_eq_true_2 _ eq_refl) in Hle.
  split; [exact Hb | split; [exact Hle | ]].
  intros asset. destruct (Hburn asset) as [Hb' Hle'].
  eexists. split; [exact Hb' | ]. case_bool_decide; lia.
Qed.

Lemma ImportTx_accepted_burns_fee_witness :
  exists burned,
    UnsignedImportTx_Burned importTx testAxcAssetID = Ok burned
    /\ AxiaAtomicTxFee <= burned.
Proof.
  assert (Houts : Forall (fun out => is_uint64 (EVMOutput.Amount out))
                         (UnsignedImportTx.Outs importTx))
    by (repeat constructor; vm_compute; discriminate).
  assert (Hins : Forall (fun i => is_uint64 (axc.Amount i))
                        (UnsignedImportTx.ImportedInputs importTx))
    by (repeat constructor; vm_compute; discriminate).
  destruct (@ImportTx_accepted_burns_fee testCollaborators importTx (testVM false)
              (signedWith (@UnsignedImportTx.asAtomicTx testCollaborators importTx)
                          [secp256k1fx_Credential [testEthAddr0];
                           secp256k1fx_Credential [testEthAddr0]])
              None 0 apricotRulesPhase2 eq_refl Houts Hins
              ltac:(vm_compute; reflexivity))
    as (fee & burned & Hfee & Hburned & Hle & _).
  exists burned. split; [exact Hburned | ].
  cbn in Hfee. injection Hfee as <-. exact Hle.
Defined.

(** X10: an export that [SemanticVerify] accepts burns at least its fee of
    the native asset and creates nothing of any asset: [Burned] succeeds for
    every asset with a result that is not negative, and for the native
    asset the result is at least the required fee. *)
Theorem ExportTx_accepted_burns_fee `{Collaborators}
    (tx : UnsignedExportTx.t) (vm : VM) (stx : Tx) (parent : option Block)
    (baseFee : Z) (rules : Rules)
    (Hown : UnsignedAtomicTx_ stx = UnsignedExportTx.asAtomicTx tx)
    (Houts : Forall (fun out => is_uint64 (axc.OutAmount out))
                    (UnsignedExportTx.ExportedOutputs tx))
    (Hins : Forall (fun i => is_uint64 (EVMInput.Amount i)) (UnsignedExportTx.Ins tx))
    (Hok : UnsignedExportTx.SemanticVerify tx vm stx parent baseFee rules = None) :
  exists fee burned,
    ExportFlowSpec.exportFee tx baseFee rules = Ok fee
    /\ UnsignedExportTx_Burned tx (snow.AXCAssetID (ctx vm)) = Ok burned
    /\ fee <= burned
    /\ forall asset, exists b, UnsignedExportTx_Burned tx asset = Ok b /\ 0 <= b.
Proof.
  unfold UnsignedExportTx.SemanticVerify in Hok.
  apply check_None in Hok as [Hverify Hok].
  destruct (ExportFlowSpec.exportFee tx baseFee rules) as [fee | e] eqn:Efee.
  2: { rewrite (export_flowOf_fee_error tx vm stx baseFee rules e Hown Efee) in Hok.
       discriminate. }
  destruct (export_flowOf_books tx vm stx baseFee rules fee Hown Houts Hins Efee)
    as (fc & Hflow & Hbooks).
  rewrite Hflow in Hok. apply check_None in Hok as [Hfc _].
  destruct (FlowChecker_Verify fc); [discriminate | ].
  pose proof (proj1 Hbooks eq_refl) as Hclose.
  pose proof (exportFee_nonneg tx baseFee rules fee Efee) as Hfee.
  assert (Hburn : forall asset,
    UnsignedExportTx_Burned tx asset
    = Ok (assetTotal (ExportFlowSpec.inEntries tx) asset
          - assetTotal (ExportFlowSpec.outEntries tx) asset)
    /\ (if bool_decide (asset = snow.AXCAssetID (ctx vm)) then fee else 0)
       <= assetTotal (ExportFlowSpec.inEntries tx) asset
          - assetTotal (ExportFlowSpec.outEntries tx) asset).
  { intros asset. rewrite (ExportTx_Burned_value tx asset Houts Hins). cbn zeta.
    destruct (Hclose asset) as [Hle Hmax].
    pose proof (assetTotal_nonneg (ExportFlowSpec.outEntries tx) asset
                  (entries_nonneg axc.OutAssetID axc.OutAmount _ Houts)) as Hout.
    assert (0 <= (if bool_decide (asset = snow.AXCAssetID (ctx vm)) then fee else 0))
      by (case_bool_decide; lia).
    destruct (Z.gtb_spec (assetTotal (ExportFlowSpec.outEntries tx) asset) MaxUint64); [lia | ].
    destruct (Z.gtb_spec (assetTotal (ExportFlowSpec.inEntries tx) asset) MaxUint64); [lia | ].
    destruct (Z.ltb_spec (assetTotal (ExportFlowSpec.inEntries tx) asset)
                         (assetTotal (ExportFlowSpec.outEntries tx) asset)); [lia | ].
    split; [reflexivity | lia]. }
  exists fee, (assetTotal (ExportFlowSpec.inEntries tx) (snow.AXCAssetID (ctx vm))
               - assetTotal (ExportFlowSpec.outEntries tx) (snow.AXCAssetID (ctx vm))).
  split; [reflexivity | ].
  destruct (Hburn (snow.AXCAssetID (ctx vm))) as [Hb Hle].
  rewrite (bool_decide_eq_true_2 _ eq_refl) in Hle.
  split; [exact Hb | split; [exact Hle | ]].
  intros asset. destruct (Hburn asset) as [Hb' Hle'].
  eexists. split; [exact Hb' | ]. case_bool_decide; lia.
Qed.

Lemma ExportTx_accepted_burns_fee_witness :
  exists burned,
    UnsignedExportTx_Burned exportTx testAxcAssetID = Ok burned
    /\ AxiaAtomicTxFee <= burned.
Proof.
  assert (Houts : Forall (fun out => is_uint64 (axc.OutAmount out))
                         (UnsignedExportTx.ExportedOutputs exportTx))
    by (repeat constructor; vm_compute; discriminate).
  assert (Hins : Forall (fun i => is_uint64 (EVMInput.Amount i)) (UnsignedExportTx.Ins exportTx))
    by (repeat constructor; vm_compute; discriminate).
  destruct (@ExportTx_accepted_burns_fee testCollaborators exportTx (testVM true)
              (signedWith (@UnsignedExportTx.asAtomicTx testCollaborators exportTx)
                          [secp256k1fx_Credential [testEthAddr0]])
              None 0 apricotRulesPhase0 eq_refl Houts Hins
              ltac:(vm_compute; reflexivity))
    as (fee & burned & Hfee & Hburned & Hle & _).
  exists burned. split; [exact Hburned | ].
  cbn in Hfee. injection Hfee as <-. exact Hle.
Defined.

(** ** Atomic operations of an export *)

Section ExportAtomicOpsFacts.
Context `{Collaborators} `{CodecCollaborator}.

Lemma fillElements_spec (txID : ID) (outs : list axc.TransferableOutput)
    (done rest : list Element) :
  length rest = length outs ->
  match fillElements txID (length done) outs (done ++ rest) with
  | Ok elems =>
      exists new,
        elems = done ++ new
        /\ length new = length outs
        /\ forall k out,
             outs !! k = Some out ->
             exists utxoBytes,
               Codec_Marshal (exportedUTXO txID (length done + k) out) = Ok utxoBytes
               /\ new !! k = Some (exportedElement txID (length done + k) out utxoBytes)
  | Err e =>
      exists k out,
        outs !! k = Some out
        /\ Codec_Marshal (exportedUTXO txID (length done + k) out) = Err e
        /\ forall j out',
             (j < k)%nat -> outs !! j = Some out' ->
             exists utxoBytes,
               Codec_Marshal (exportedUTXO txID (length done + j) out') = Ok utxoBytes
  end.
Proof.
  revert done rest. induction outs as [ | out outs IH]; intros done rest Hlen.
  - destruct rest; [ | discriminate]. cbn [fillElements].
    exists []. split; [reflexivity | split; [reflexivity | ]].
    intros k out' Hk. discriminate.
  - destruct rest as [ | r rest]; [discriminate | ].
    cbn [fillElements].
    destruct (Codec_Marshal (exportedUTXO txID (length done) out)) as [utxoBytes | e] eqn:Em;
      cbn [mbind result_bind].
    + replace (<[length done := _]> (done ++ r :: rest))
        with ((done ++ [exportedElement txID (length done) out utxoBytes]) ++ rest).
      2: { rewrite <- app_assoc. cbn [app]. rewrite insert_app_r_alt by lia.
           rewrite Nat.sub_diag. reflexivity. }
      specialize (IH (done ++ [exportedElement txID (length done) out utxoBytes]) rest
                     ltac:(cbn in Hlen; lia)).
      rewrite length_app in IH. cbn [length] in IH. rewrite Nat.add_1_r in IH.
      destruct (fillElements txID _ outs _) as [elems | e].
      * destruct IH as (new & -> & Hnew & Hall).
        exists (exportedElement txID (length done) out utxoBytes :: new).
        split; [rewrite <- app_assoc; reflexivity | ].
        split; [cbn; lia | ].
        intros [ | k] out' Hk.
        -- injection Hk as <-. exists utxoBytes. rewrite Nat.add_0_r. auto.
        -- destruct (Hall k out' Hk) as (b & Hb & Hlook).
           exists b. replace (length done + S k)%nat with (S (length done) + k)%nat by lia.
           auto.
      * destruct IH as (k & out' & Hk & Hfail & Hbefore).
        exists (S k), out'. split; [exact Hk | ].
        replace (length done + S k)%nat with (S (length done) + k)%nat by lia.
        split; [exact Hfail | ].
        intros [ | j] out'' Hj Hlook.
        -- injection Hlook as <-. exists utxoBytes. rewrite Nat.add_0_r. exact Em.
        -- replace (length done + S j)%nat with (S (length done) + j)%nat by lia.
           apply (Hbefore j out''); [lia | exact Hlook].
    + exists 0%nat, out. rewrite Nat.add_0_r.
      split; [reflexivity | split; [exact Em | ]].
      intros j out' Hj. lia.
Qed.
End ExportAtomicOpsFacts.

(** X11: [AtomicOps] of an export, when it succeeds, returns the
    destination chain and a request that removes nothing and puts one
    element per exported output, in order: the element at index [i] has the
    input ID of the UTXO (transaction ID, [i]) as key, the marshalled UTXO
    as value and the owner addresses of the output as traits.  When it
    fails, the error is the one of the first output whose UTXO cannot be
    marshalled. *)
Theorem ExportTx_AtomicOps_puts_outputs `{Collaborators} `{CodecCollaborator}
    (tx : UnsignedExportTx.t) :
  let txID := axc.id (UnsignedExportTx.Metadata tx) in
  let outs := UnsignedExportTx.ExportedOutputs tx in
  match UnsignedExportTx_AtomicOps tx with
  | Ok (chain, requests) =>
      chain = UnsignedExportTx.DestinationChain tx
      /\ RemoveRequests requests = []
      /\ length (PutRequests requests) = length outs
      /\ forall i out,
           outs !! i = Some out ->
           exists utxoBytes,
             Codec_Marshal (exportedUTXO txID i out) = Ok utxoBytes
             /\ PutRequests requests !! i = Some (exportedElement txID i out utxoBytes)
  | Err e =>
      exists i out,
        outs !! i = Some out
        /\ Codec_Marshal (exportedUTXO txID i out) = Err e
        /\ forall j out',
             (j < i)%nat -> outs !! j = Some out' ->
             exists utxoBytes, Codec_Marshal (exportedUTXO txID j out') = Ok utxoBytes
  end.
Proof.
  cbn zeta. unfold UnsignedExportTx_AtomicOps.
  pose proof (fillElements_spec (axc.id (UnsignedExportTx.Metadata tx))
                (UnsignedExportTx.ExportedOutputs tx) []
                (replicate (length (UnsignedExportTx.ExportedOutputs tx)) nilElement)
                (length_replicate _ _)) as Hfill.
  cbn [app length] in Hfill.
  destruct (fillElements _ 0 _ _) as [elems | e]; cbn [mbind result_bind].
  - destruct Hfill as (new & -> & Hlen & Hall).
    cbn [RemoveRequests PutRequests]. repeat split; auto.
  - exact Hfill.
Qed.

(** ** State transfer of an export: the successful case *)

Lemma GetBalance_SubBalance (s : StateDB) (a b : Address) (amount : Z) :
  GetBalance (SubBalance s a amount) b
  = if bool_decide (a = b) then GetBalance s b - amount else GetBalance s b.
Proof.
  unfold GetBalance at 1. cbn [SubBalance balances]. rewrite lookup_insert.
  case_decide as Hab.
  - subst. rewrite (bool_decide_eq_true_2 _ eq_refl). reflexivity.
  - rewrite (bool_decide_eq_false_2 _ Hab). reflexivity.
Qed.

Lemma GetBalanceMultiCoin_SubBalanceMultiCoin (s : StateDB) (a b : Address) (c d : ID)
    (amount : Z) :
  GetBalanceMultiCoin (SubBalanceMultiCoin s a c amount) b d
  = if bool_decide ((a, c) = (b, d))
    then GetBalanceMultiCoin s b d - amount
    else GetBalanceMultiCoin s b d.
Proof.
  unfold GetBalanceMultiCoin at 1. cbn [SubBalanceMultiCoin multiCoin]. rewrite lookup_insert.
  case_decide as Hab.
  - injection Hab as -> ->. rewrite (bool_decide_eq_true_2 _ eq_refl). reflexivity.
  - rewrite (bool_decide_eq_false_2 _ Hab). reflexivity.
Qed.

(** One round that succeeds: the nonce matched, the debit was covered and
    has been made. *)
Lemma transferInput_ok (ctx : snow.Context) (state : StateDB) (from : EVMInput.t) :
  snd (UnsignedExportTx.transferInput ctx state from) = None ->
  let state' := fst (UnsignedExportTx.transferInput ctx state from) in
  EVMInput.Nonce from = GetNonce state (EVMInput.Address from)
  /\ nonces state' = nonces state
  /\ (forall addr,
        GetBalance state' addr
        = GetBalance state addr - x2cRate * nativeDebit ctx [from] addr)
  /\ (forall addr coin,
        GetBalanceMultiCoin state' addr coin
        = GetBalanceMultiCoin state addr coin - coinDebit ctx [from] addr coin).
Proof.
  cbn zeta. unfold UnsignedExportTx.transferInput, nativeDebit, coinDebit.
  case_bool_decide as Hnative.
  - destruct (GetBalance state (EVMInput.Address from) <? EVMInput.Amount from * x2cRate);
      cbn [fst snd]; [discriminate | ].
    replace (GetNonce (SubBalance state (EVMInput.Address from)
                                  (EVMInput.Amount from * x2cRate))
                      (EVMInput.Address from))
      with (GetNonce state (EVMInput.Address from)) by reflexivity.
    destruct (Z.eqb_spec (GetNonce state (EVMInput.Address from)) (EVMInput.Nonce from));
      cbn [negb fst snd]; [ | discriminate].
    intros _. split; [congruence | split; [reflexivity | split]].
    + intros addr. rewrite GetBalance_SubBalance, filter_cons, filter_nil.
      case_bool_decide; case_decide; try tauto; cbn [map]; unfold sumZ; cbn [foldr]; lia.
    + intros addr coin. rewrite filter_cons, filter_nil.
      case_decide; [tauto | ]. cbn [map]. unfold sumZ; cbn [foldr].
      unfold GetBalanceMultiCoin. cbn [SubBalance multiCoin]. lia.
  - destruct (GetBalanceMultiCoin state (EVMInput.Address from) (EVMInput.AssetID from)
              <? EVMInput.Amount from); cbn [fst snd]; [discriminate | ].
    replace (GetNonce (SubBalanceMultiCoin state (EVMInput.Address from)
                         (EVMInput.AssetID from) (EVMInput.Amount from))
                      (EVMInput.Address from))
      with (GetNonce state (EVMInput.Address from)) by reflexivity.
    destruct (Z.eqb_spec (GetNonce state (EVMInput.Address from)) (EVMInput.Nonce from));
      cbn [negb fst snd]; [ | discriminate].
    intros _. split; [congruence | split; [reflexivity | split]].
    + intros addr. rewrite filter_cons, filter_nil.
      case_decide; [tauto | ]. cbn [map]. unfold sumZ; cbn [foldr].
      change (GetBalance (SubBalanceMultiCoin state (EVMInput.Address from)
                            (EVMInput.AssetID from) (EVMInput.Amount from)) addr)
        with (GetBalance state addr). lia.
    + intros addr coin. rewrite GetBalanceMultiCoin_SubBalanceMultiCoin, filter_cons, filter_nil.
      case_bool_decide as Hkey; case_decide as Hp.
      * cbn [map]. unfold sumZ; cbn [foldr]. lia.
      * exfalso. injection Hkey as Ha Hc. tauto.
      * exfalso. destruct Hp as (Ha & Hc & _). apply Hkey. congruence.
      * cbn [map]. unfold sumZ; cbn [foldr]. lia.
Qed.

Lemma nativeDebit_cons (ctx : snow.Context) (from : EVMInput.t) (ins : list EVMInput.t)
    (addr : Address) :
  nativeDebit ctx (from :: ins) addr = nativeDebit ctx [from] addr + nativeDebit ctx ins addr.
Proof.
  unfold nativeDebit. rewrite !filter_cons, filter_nil.
  case_decide; cbn [map]; unfold sumZ; cbn [foldr]; lia.
Qed.

Lemma coinDebit_cons (ctx : snow.Context) (from : EVMInput.t) (ins : list EVMInput.t)
    (addr : Address) (coin : ID) :
  coinDebit ctx (from :: ins) addr coin
  = coinDebit ctx [from] addr coin + coinDebit ctx ins addr coin.
Proof.
  unfold coinDebit. rewrite !filter_cons, filter_nil.
  case_decide; cbn [map]; unfold sumZ; cbn [foldr]; lia.
Qed.

(** The first loop when it succeeds. *)
Lemma transferInputs_ok (ctx : snow.Context) (ins : list EVMInput.t) (state : StateDB)
    (addrs addrs' : gmap Address Z) :
  snd (UnsignedExportTx.transferInputs ctx ins state addrs) = Ok addrs' ->
  let state' := fst (UnsignedExportTx.transferInputs ctx ins state addrs) in
  Forall (fun i => EVMInput.Nonce i = GetNonce state (EVMInput.Address i)) ins
  /\ nonces state' = nonces state
  /\ (forall addr,
        addrs' !! addr
        = if bool_decide (addr ∈ map EVMInput.Address ins)
          then Some (GetNonce state addr) else addrs !! addr)
  /\ (forall addr,
        GetBalance state' addr = GetBalance state addr - x2cRate * nativeDebit ctx ins addr)
  /\ (forall addr coin,
        GetBalanceMultiCoin state' addr coin
        = GetBalanceMultiCoin state addr coin - coinDebit ctx ins addr coin).
Proof.
  cbn zeta. revert state addrs. induction ins as [ | from ins IH]; intros state addrs.
  - cbn. intros [= <-]. repeat split; try constructor; intros; lia.
  - cbn [UnsignedExportTx.transferInputs].
    pose proof (transferInput_ok ctx state from) as Hone.
    destruct (UnsignedExportTx.transferInput ctx state from) as [state1 [e | ]];
      cbn [fst snd] in *; [discriminate | ].
    destruct (Hone eq_refl) as (Hnonce & Hn1 & Hb1 & Hm1).
    intros Hok. destruct (IH state1 _ Hok) as (Hall & Hn & Haddrs & Hb & Hm).
    assert (Hget : forall a, GetNonce state1 a = GetNonce state a).
    { intros a. unfold GetNonce. rewrite Hn1. reflexivity. }
    split.
    { constructor; [exact Hnonce | ].
      eapply List.Forall_impl; [ | exact Hall]. intros i Hi. rewrite <- Hget. exact Hi. }
    split; [congruence | split; [ | split]].
    + intros addr. rewrite Haddrs. cbn [map].
      rewrite Hget.
      destruct (decide (addr ∈ map EVMInput.Address ins)) as [Hin | Hnin].
      * rewrite !bool_decide_eq_true_2; [reflexivity | right; exact Hin | exact Hin].
      * rewrite (bool_decide_eq_false_2 _ Hnin).
        destruct (decide (addr = EVMInput.Address from)) as [-> | Hne].
        -- rewrite lookup_insert_eq, bool_decide_eq_true_2 by left. congruence.
        -- rewrite lookup_insert_ne by congruence.
           rewrite bool_decide_eq_false_2; [reflexivity | ].
           intros Hcons. apply elem_of_cons in Hcons as [? | ?]; contradiction.
    + intros addr. rewrite Hb, Hb1, (nativeDebit_cons ctx from ins). ring.
    + intros addr coin. rewrite Hm, Hm1, (coinDebit_cons ctx from ins). ring.
Qed.

(** The second loop: every address of the map gets its nonce plus one. *)
Lemma setNonces_spec (state : StateDB) (addrs : gmap Address Z) :
  let state' :=
    map_fold (fun addr nonce state => SetNonce state addr ((nonce + 1) mod 2 ^ 64))
             state addrs in
  balances state' = balances state
  /\ multiCoin state' = multiCoin state
  /\ forall addr,
       GetNonce state' addr
       = match addrs !! addr with
         | Some nonce => (nonce + 1) mod 2 ^ 64
         | None => GetNonce state addr
         end.
Proof.
  cbn zeta.
  apply (map_fold_weak_ind
           (fun state' addrs =>
              balances state' = balances state
              /\ multiCoin state' = multiCoin state
              /\ forall addr,
                   GetNonce state' addr
                   = match addrs !! addr with
                     | Some nonce => (nonce + 1) mod 2 ^ 64
                     | None => GetNonce state addr
                     end)).
  - split; [reflexivity | split; [reflexivity | ]].
    intros addr. rewrite lookup_empty. reflexivity.
  - intros a nonce m r Hfresh (Hb & Hm & Hn).
    split; [exact Hb | split; [exact Hm | ]].
    intros addr. unfold GetNonce at 1. cbn [SetNonce nonces].
    destruct (decide (a = addr)) as [-> | Hne].
    + rewrite !lookup_insert_eq. reflexivity.
    + rewrite !lookup_insert_ne by exact Hne. apply Hn.
Qed.

(** X12: when [EVMStateTransfer] of an export succeeds, every input
    carried the nonce its account had before the call, and afterwards the
    nonce of every address that appears in the inputs is that nonce plus
    one (wrapping at 2^64), once per address however many inputs it has; the
    nonce of every other address is unchanged. *)
Theorem ExportTx_EVMStateTransfer_nonces
    (tx : UnsignedExportTx.t) (ctx : snow.Context) (state : StateDB)
    (Hok : snd (UnsignedExportTx.EVMStateTransfer tx ctx state) = None) :
  let state' := fst (UnsignedExportTx.EVMStateTransfer tx ctx state) in
  Forall (fun i => EVMInput.Nonce i = GetNonce state (EVMInput.Address i))
         (UnsignedExportTx.Ins tx)
  /\ forall addr,
       GetNonce state' addr
       = if bool_decide (addr ∈ exportAddresses tx)
         then (GetNonce state addr + 1) mod 2 ^ 64
         else GetNonce state addr.
Proof.
  cbn zeta. unfold UnsignedExportTx.EVMStateTransfer in *.
  pose proof (transferInputs_ok ctx (UnsignedExportTx.Ins tx) state ∅) as Hloop.
  destruct (UnsignedExportTx.transferInputs ctx (UnsignedExportTx.Ins tx) state ∅)
    as [state1 [addrs | e]]; cbn [fst snd] in *; [ | discriminate].
  destruct (Hloop addrs eq_refl) as (Hall & Hn & Haddrs & _).
  split; [exact Hall | ].
  intros addr. destruct (setNonces_spec state1 addrs) as (_ & _ & Hset).
  rewrite Hset, Haddrs. unfold exportAddresses.
  case_bool_decide.
  - reflexivity.
  - rewrite lookup_empty. unfold GetNonce. rewrite Hn. reflexivity.
Qed.

Lemma ExportTx_EVMStateTransfer_nonces_witness :
  GetNonce (fst (UnsignedExportTx.EVMStateTransfer exportTxTwice NewContext testState))
           testEthAddr0 = 1
  /\ GetNonce (fst (UnsignedExportTx.EVMStateTransfer exportTxTwice NewContext testState))
              testEthAddr1 = 0.
Proof.
  destruct (ExportTx_EVMStateTransfer_nonces exportTxTwice NewContext testState
              ltac:(vm_compute; reflexivity)) as (_ & Hn).
  split.
  - rewrite (Hn testEthAddr0). reflexivity.
  - rewrite (Hn testEthAddr1). reflexivity.
Defined.

(** X13: when [EVMStateTransfer] of an export succeeds, the native balance
    of every address has gone down by [x2cRate] times the native amounts of
    its inputs, and its balance of every other asset by the amounts of its
    inputs of that asset; nothing else changes in the balances. *)
Theorem ExportTx_EVMStateTransfer_debits
    (tx : UnsignedExportTx.t) (ctx : snow.Context) (state : StateDB)
    (Hok : snd (UnsignedExportTx.EVMStateTransfer tx ctx state) = None) :
  let state' := fst (UnsignedExportTx.EVMStateTransfer tx ctx state) in
  (forall addr,
     GetBalance state' addr
     = GetBalance state addr - x2cRate * nativeDebit ctx (UnsignedExportTx.Ins tx) addr)
  /\ (forall addr coin,
        GetBalanceMultiCoin state' addr coin
        = GetBalanceMultiCoin state addr coin
          - coinDebit ctx (UnsignedExportTx.Ins tx) addr coin).
Proof.
  cbn zeta. unfold UnsignedExportTx.EVMStateTransfer in *.
  pose proof (transferInputs_ok ctx (UnsignedExportTx.Ins tx) state ∅) as Hloop.
  destruct (UnsignedExportTx.transferInputs ctx (UnsignedExportTx.Ins tx) state ∅)
    as [state1 [addrs | e]]; cbn [fst snd] in *; [ | discriminate].
  destruct (Hloop addrs eq_refl) as (_ & _ & _ & Hb & Hm).
  destruct (setNonces_spec state1 addrs) as (Hbal & Hmulti & _).
  split.
  - intros addr. rewrite <- Hb. unfold GetBalance. rewrite Hbal. reflexivity.
  - intros addr coin. rewrite <- Hm. unfold GetBalanceMultiCoin. rewrite Hmulti. reflexivity.
Qed.

Lemma ExportTx_EVMStateTransfer_debits_witness :
  GetBalance (fst (UnsignedExportTx.EVMStateTransfer exportTxTwice NewContext testState))
             testEthAddr0 = 2 * x2cRate.
Proof.
  destruct (ExportTx_EVMStateTransfer_debits exportTxTwice NewContext testState
              ltac:(vm_compute; reflexivity)) as (Hb & _).
  rewrite (Hb testEthAddr0). reflexivity.
Defined.

(** One round that succeeds leaves the debited balance non-negative, and
    every other balance as it was. *)
Lemma transferInput_covered (ctx : snow.Context) (state : StateDB) (from : EVMInput.t) :
  snd (UnsignedExportTx.transferInput ctx state from) = None ->
  let state' := fst (UnsignedExportTx.transferInput ctx state from) in
  (forall addr,
     0 <= GetBalance state addr
     \/ (EVMInput.Address from = addr /\ EVMInput.AssetID from = snow.AXCAssetID ctx) ->
     0 <= GetBalance state' addr)
  /\ (forall addr coin,
        0 <= GetBalanceMultiCoin state addr coin
        \/ (EVMInput.Address from = addr /\ EVMInput.AssetID from = coin
            /\ EVMInput.AssetID from <> snow.AXCAssetID ctx) ->
        0 <= GetBalanceMultiCoin state' addr coin).
Proof.
  cbn zeta. unfold UnsignedExportTx.transferInput.
  case_bool_decide as Hnative.
  - destruct (Z.ltb_spec (GetBalance state (EVMInput.Address from))
                         (EVMInput.Amount from * x2cRate)) as [Hlt | Hge];
      cbn [fst snd]; [discriminate | ].
    match goal with
    | |- context [if ?b then _ else _] => destruct b; cbn [fst snd]; [discriminate | ]
    end.
    intros _. split.
    + intros addr Hc. rewrite GetBalance_SubBalance.
      case_bool_decide as Ha; [subst addr; lia | ].
      destruct Hc as [Hc | [Hc _]]; [exact Hc | contradiction].
    + intros addr coin [Hc | (_ & _ & Hc)]; [exact Hc | contradiction].
  - destruct (Z.ltb_spec (GetBalanceMultiCoin state (EVMInput.Address from)
                            (EVMInput.AssetID from))
                         (EVMInput.Amount from)) as [Hlt | Hge];
      cbn [fst snd]; [discriminate | ].
    match goal with
    | |- context [if ?b then _ else _] => destruct b; cbn [fst snd]; [discriminate | ]
    end.
    intros _. split.
    + intros addr [Hc | [_ Hc]]; [exact Hc | contradiction].
    + intros addr coin Hc. rewrite GetBalanceMultiCoin_SubBalanceMultiCoin.
      case_bool_decide as Ha; [injection Ha as <- <-; lia | ].
      destruct Hc as [Hc | (Hc & Hc' & _)]; [exact Hc | ].
      exfalso. apply Ha. congruence.
Qed.

Lemma transferInputs_covered (ctx : snow.Context) (ins : list EVMInput.t) (state : StateDB)
    (addrs addrs' : gmap Address Z) :
  snd (UnsignedExportTx.transferInputs ctx ins state addrs) = Ok addrs' ->
  let state' := fst (UnsignedExportTx.transferInputs ctx ins state addrs) in
  (forall addr,
     0 <= GetBalance state addr
     \/ Exists (fun i => EVMInput.Address i = addr
                         /\ EVMInput.AssetID i = snow.AXCAssetID ctx) ins ->
     0 <= GetBalance state' addr)
  /\ (forall addr coin,
        0 <= GetBalanceMultiCoin state addr coin
        \/ Exists (fun i => EVMInput.Address i = addr /\ EVMInput.AssetID i = coin
                            /\ EVMInput.AssetID i <> snow.AXCAssetID ctx) ins ->
        0 <= GetBalanceMultiCoin state' addr coin).
Proof.
  cbn zeta. revert state addrs. induction ins as [ | from ins IH]; intros state addrs.
  - cbn. intros _. split.
    + intros addr [Hc | Hc]; [exact Hc | inversion Hc].
    + intros addr coin [Hc | Hc]; [exact Hc | inversion Hc].
  - cbn [UnsignedExportTx.transferInputs].
    pose proof (transferInput_covered ctx state from) as Hone.
    destruct (UnsignedExportTx.transferInput ctx state from) as [state1 [e | ]];
      cbn [fst snd] in *; [discriminate | ].
    destruct (Hone eq_refl) as (Hb1 & Hm1).
    intros Hok. destruct (IH state1 _ Hok) as (Hb & Hm). split.
    + intros addr Hc. apply Hb.
      destruct Hc as [Hc | Hc]; [left; apply Hb1; left; exact Hc | ].
      apply List.Exists_cons in Hc as [Hc | Hc];
        [left; apply Hb1; right; exact Hc | right; exact Hc].
    + intros addr coin Hc. apply Hm.
      destruct Hc as [Hc | Hc]; [left; apply Hm1; left; exact Hc | ].
      apply List.Exists_cons in Hc as [Hc | Hc];
        [left; apply Hm1; right; exact Hc | right; exact Hc].
Qed.

(** X14: a successful [EVMStateTransfer] of an export never overdraws an
    account: for every address that has a native input, [x2cRate] times the
    total of its native inputs is at most its balance before the call, and
    for every address and other asset with an input, the total of these
    inputs is at most the balance of that asset before the call. *)
Theorem ExportTx_EVMStateTransfer_covered
    (tx : UnsignedExportTx.t) (ctx : snow.Context) (state : StateDB)
    (Hok : snd (UnsignedExportTx.EVMStateTransfer tx ctx state) = None) :
  (forall from,
     In from (UnsignedExportTx.Ins tx) ->
     EVMInput.AssetID from = snow.AXCAssetID ctx ->
     x2cRate * nativeDebit ctx (UnsignedExportTx.Ins tx) (EVMInput.Address from)
     <= GetBalance state (EVMInput.Address from))
  /\ (forall from,
        In from (UnsignedExportTx.Ins tx) ->
        EVMInput.AssetID from <> snow.AXCAssetID ctx ->
        coinDebit ctx (UnsignedExportTx.Ins tx) (EVMInput.Address from) (EVMInput.AssetID from)
        <= GetBalanceMultiCoin state (EVMInput.Address from) (EVMInput.AssetID from)).
Proof.
  unfold UnsignedExportTx.EVMStateTransfer in Hok.
  pose proof (transferInputs_ok ctx (UnsignedExportTx.Ins tx) state ∅) as Hloop.
  pose proof (transferInputs_covered ctx (UnsignedExportTx.Ins tx) state ∅) as Hcov.
  destruct (UnsignedExportTx.transferInputs ctx (UnsignedExportTx.Ins tx) state ∅)
    as [state1 [addrs | e]]; cbn [fst snd] in *; [ | discriminate].
  destruct (Hloop addrs eq_refl) as (_ & _ & _ & Hb & Hm).
  destruct (Hcov addrs eq_refl) as (Hb0 & Hm0).
  split.
  - intros from Hin Hnative.
    specialize (Hb0 (EVMInput.Address from)). rewrite Hb in Hb0.
    assert (0 <= GetBalance state (EVMInput.Address from)
                 - x2cRate * nativeDebit ctx (UnsignedExportTx.Ins tx) (EVMInput.Address from));
      [ | lia].
    apply Hb0. right. apply List.Exists_exists. exists from. auto.
  - intros from Hin Hcoin.
    specialize (Hm0 (EVMInput.Address from) (EVMInput.AssetID from)). rewrite Hm in Hm0.
    assert (0 <= GetBalanceMultiCoin state (EVMInput.Address from) (EVMInput.AssetID from)
                 - coinDebit ctx (UnsignedExportTx.Ins tx) (EVMInput.Address from)
                             (EVMInput.AssetID from));
      [ | lia].
    apply Hm0. right. apply List.Exists_exists. exists from. auto.
Qed.

Lemma ExportTx_EVMStateTransfer_covered_witness :
  x2cRate * nativeDebit NewContext (UnsignedExportTx.Ins exportTxTwice) testEthAddr0
  <= GetBalance testState testEthAddr0.
Proof.
  destruct (ExportTx_EVMStateTransfer_covered exportTxTwice NewContext testState
              ltac:(vm_compute; reflexivity)) as (Hb & _).
  apply (Hb (testEVMInput testEthAddr0 1 0)); [left; reflexivity | reflexivity].
Defined.

(** ** Semantic verification of an import on a bootstrapped node *)

Lemma verifyUTXOs_None (vm : VM) (stx : Tx) (tx : UnsignedImportTx.t)
    (allUTXOBytes : list Bytes) (ins : list axc.TransferableInput) (i : nat) :
  UnsignedImportTx.verifyUTXOs vm stx tx allUTXOBytes i ins = None
  <-> ImportFetchSpec.utxosVerified vm stx tx allUTXOBytes i ins.
Proof.
  unfold ImportFetchSpec.utxosVerified.
  revert i. induction ins as [ | input ins IH]; intros i.
  - cbn. split; [intros _ k input Hk; discriminate | reflexivity].
  - cbn [UnsignedImportTx.verifyUTXOs]. split.
    + intros Hrun.
      destruct (allUTXOBytes !! i) as [utxoBytes | ] eqn:Ebytes; [ | discriminate].
      destruct (Creds stx !! i) as [cred | ] eqn:Ecred; [ | discriminate].
      destruct (codec_Unmarshal vm utxoBytes) as [utxo | e] eqn:Eutxo; [ | discriminate].
      case_bool_decide as Hasset; cbn [negb] in Hrun; [ | discriminate].
      destruct (fx_VerifyTransfer vm _ _ cred _) eqn:Efx; [discriminate | ].
      intros [ | k] input' Hk.
      * injection Hk as <-. rewrite Nat.add_0_r.
        exists utxoBytes, cred, utxo. auto.
      * replace (i + S k)%nat with (S i + k)%nat by lia.
        apply (proj1 (IH (S i)) Hrun k input' Hk).
    + intros Hall.
      destruct (Hall 0%nat input eq_refl)
        as (utxoBytes & cred & utxo & Ebytes & Ecred & Eutxo & Hasset & Efx).
      rewrite Nat.add_0_r in Ebytes, Ecred.
      rewrite Ebytes, Ecred, Eutxo, (bool_decide_eq_true_2 _ Hasset). cbn [negb].
      rewrite Efx. apply IH. intros k input' Hk.
      replace (S i + k)%nat with (i + S k)%nat by lia.
      apply (Hall (S k) input' Hk).
Qed.

(** X15: on a bootstrapped node, [SemanticVerify] of an import returns nil
    exactly when the structural checks and the flow check pass, there are
    as many credentials as imported inputs, shared memory returns the
    values for the input IDs of the imported inputs (in their order) from
    the source chain, every returned value unmarshals to a UTXO with the
    asset of its input that the credential at the same index releases, and
    the conflict check on the input UTXOs passes.  When the checks before
    the lookup pass and the lookup fails, the error is the lookup error
    wrapped with the source chain. *)
Theorem ImportTx_SemanticVerify_bootstrapped `{Collaborators}
    (tx : UnsignedImportTx.t) (vm : VM) (stx : Tx) (parent : option Block)
    (baseFee : Z) (rules : Rules)
    (Hboot : bootstrapped vm = true) :
  let utxoIDs :=
    map (fun i => InputID (axc.UTXOID_ i)) (UnsignedImportTx.ImportedInputs tx) in
  let checked :=
    UnsignedImportTx.Verify (Some tx) (ctx vm) rules = None
    /\ ImportSpec.flowCheck vm stx tx baseFee rules = None
    /\ length (Creds stx) = length (UnsignedImportTx.ImportedInputs tx) in
  (UnsignedImportTx.SemanticVerify tx vm stx parent baseFee rules = None
   <-> checked
       /\ exists allUTXOBytes,
            SharedMemory_Get vm (UnsignedImportTx.SourceChain tx) utxoIDs = Ok allUTXOBytes
            /\ ImportFetchSpec.utxosVerified vm stx tx allUTXOBytes 0
                 (UnsignedImportTx.ImportedInputs tx)
            /\ conflicts vm (UnsignedImportTx.InputUTXOs tx) parent = None)
  /\ (forall e,
        checked ->
        SharedMemory_Get vm (UnsignedImportTx.SourceChain tx) utxoIDs = Err e ->
        UnsignedImportTx.SemanticVerify tx vm stx parent baseFee rules
        = Some (ErrFetchUTXOs (UnsignedImportTx.SourceChain tx) e)).
Proof.
  cbn zeta.
  unfold UnsignedImportTx.SemanticVerify, ImportSpec.flowCheck.
  rewrite Hboot, range_assign_replicate. cbn [negb].
  split.
  - destruct (UnsignedImportTx.Verify (Some tx) (ctx vm) rules); cbn [check].
    { split; [discriminate | intros [[? _] _]; discriminate]. }
    destruct (UnsignedImportTx.flowOf vm stx tx baseFee rules) as [fc | e].
    2: { split; [discriminate | intros [(_ & ? & _) _]; discriminate]. }
    destruct (FlowChecker_Verify fc); cbn [fmap option_fmap option_map check].
    { split; [discriminate | intros [(_ & ? & _) _]; discriminate]. }
    unfold fail_if. case_bool_decide as Hlen; cbn [negb check].
    2: { split; [discriminate | intros [(_ & _ & ?) _]; contradiction]. }
    destruct (SharedMemory_Get vm _ _) as [allUTXOBytes | e].
    2: { split; [discriminate | intros [_ (? & ? & _)]; discriminate]. }
    rewrite check_None, verifyUTXOs_None. split.
    + intros [Hall Hconf]. split; [auto | ]. exists allUTXOBytes. auto.
    + intros [_ (all' & [= <-] & Hall & Hconf)]. auto.
  - intros e (Hverify & Hflow & Hlen) Hget.
    rewrite Hverify. cbn [check].
    destruct (UnsignedImportTx.flowOf vm stx tx baseFee rules) as [fc | e']; [ | discriminate].
    rewrite Hflow. cbn [fmap option_fmap option_map check].
    rewrite (bool_decide_eq_true_2 _ Hlen). cbn [negb fail_if check].
    rewrite Hget. reflexivity.
Qed.

Lemma ImportTx_SemanticVerify_bootstrapped_witness :
  @UnsignedImportTx.SemanticVerify testCollaborators importTxOneToOne
     ImportFetchSpec.testFetchingVM
     (signedWith (@UnsignedImportTx.asAtomicTx testCollaborators importTxOneToOne)
                 [secp256k1fx_Credential [testEthAddr0]])
     None 0 apricotRulesPhase0
  = None.
Proof.
  apply (@ImportTx_SemanticVerify_bootstrapped testCollaborators importTxOneToOne
           ImportFetchSpec.testFetchingVM
           (signedWith (@UnsignedImportTx.asAtomicTx testCollaborators importTxOneToOne)
                       [secp256k1fx_Credential [testEthAddr0]])
           None 0 apricotRulesPhase0 eq_refl).
  split; [repeat split; vm_compute; reflexivity | ].
  exists [[1%N]]. split; [reflexivity | split; [ | reflexivity]].
  intros [ | k] input Hk; [ | destruct k; discriminate].
  injection Hk as <-.
  exists [1%N], (secp256k1fx_Credential [testEthAddr0]), ImportFetchSpec.testUTXO.
  repeat split; reflexivity.
Defined.

(** ** The account manager *)

(** Enough fuel: the search returns an index between [i] and [j] with
    [f] false below it and true at and above it, when [f] is monotone
    between [i] and [j]. *)
Lemma Search_loop_spec (f : nat -> bool) (fuel i j : nat) :
  (i <= j)%nat -> (j - i <= fuel)%nat ->
  (forall a b, (i <= a)%nat -> (a <= b)%nat -> (b < j)%nat -> f a = true -> f b = true) ->
  let n := Search_loop fuel f i j in
  (i <= n <= j)%nat
  /\ (forall a, (i <= a)%nat -> (a < n)%nat -> f a = false)
  /\ (forall a, (n <= a)%nat -> (a < j)%nat -> f a = true).
Proof.
  cbn zeta. revert i j. induction fuel as [ | fuel IH]; intros i j Hij Hfuel Hmono.
  - cbn. assert (i = j) as -> by lia. repeat split; intros; lia.
  - cbn [Search_loop]. destruct (Nat.ltb_spec i j) as [Hlt | Hge].
    2: { assert (i = j) as -> by lia. repeat split; intros; lia. }
    cbn zeta.
    assert (Hh : (i <= (i + j) / 2 < j)%nat).
    { split; [apply Nat.div_le_lower_bound; lia | apply Nat.Div0.div_lt_upper_bound; lia]. }
    destruct (f ((i + j) / 2)%nat) eqn:Efh; cbn [negb].
    + destruct (IH i ((i + j) / 2)%nat) as (Hn & Hlow & Hhigh); [lia | lia | | ].
      { intros a b Ha Hab Hb. apply Hmono; lia. }
      split; [lia | split; [exact Hlow | ]].
      intros a Ha Haj.
      destruct (Nat.lt_ge_cases a ((i + j) / 2)) as [Hcase | Hcase];
        [apply Hhigh; lia | ].
      apply (Hmono ((i + j) / 2)%nat a); [lia | lia | lia | exact Efh].
    + destruct (IH ((i + j) / 2 + 1)%nat j) as (Hn & Hlow & Hhigh); [lia | lia | | ].
      { intros a b Ha Hab Hb. apply Hmono; lia. }
      split; [lia | split; [ | exact Hhigh]].
      intros a Ha Han.
      destruct (Nat.lt_ge_cases a ((i + j) / 2 + 1)) as [Hcase | Hcase];
        [ | apply Hlow; lia].
      destruct (f a) eqn:Efa; [ | reflexivity].
      rewrite <- Efh. symmetry.
      apply (Hmono a ((i + j) / 2)%nat); [lia | lia | lia | exact Efa].
Qed.

(** The search asks for no index outside the slice. *)
Lemma Search_loop_ext (f g : nat -> bool) (fuel i j : nat) :
  (forall a, (i <= a)%nat -> (a < j)%nat -> f a = g a) ->
  Search_loop fuel f i j = Search_loop fuel g i j.
Proof.
  revert i j. induction fuel as [ | fuel IH]; intros i j Hfg; [reflexivity | ].
  cbn [Search_loop]. destruct (Nat.ltb_spec i j) as [Hlt | Hge]; [ | reflexivity].
  cbn zeta.
  assert (Hh : (i <= (i + j) / 2 < j)%nat).
  { split; [apply Nat.div_le_lower_bound; lia | apply Nat.Div0.div_lt_upper_bound; lia]. }
  rewrite <- (Hfg ((i + j) / 2)%nat) by lia.
  destruct (f ((i + j) / 2)%nat); cbn [negb]; apply IH; intros a Ha Haj; apply Hfg; lia.
Qed.

Lemma StronglySorted_middle {A} (R : A -> A -> Prop) (l1 l2 : list A) (w : A) :
  StronglySorted R (l1 ++ l2) ->
  Forall (fun x => R x w) l1 -> Forall (R w) l2 ->
  StronglySorted R (l1 ++ w :: l2).
Proof.
  induction l1 as [ | x l1 IH]; cbn [app]; intros Hs Hl1 Hl2.
  - constructor; assumption.
  - apply StronglySorted_inv in Hs as [Hs Hx].
    apply List.Forall_cons_iff in Hl1 as [Hxw Hl1].
    constructor; [apply IH; assumption | ].
    apply List.Forall_app in Hx as [Hx1 Hx2].
    apply List.Forall_app. split; [exact Hx1 | constructor; assumption].
Qed.

Lemma StronglySorted_remove {A} (R : A -> A -> Prop) (l1 l2 : list A) (x : A) :
  StronglySorted R (l1 ++ x :: l2) -> StronglySorted R (l1 ++ l2).
Proof.
  induction l1 as [ | y l1 IH]; cbn [app]; intros Hs.
  - apply StronglySorted_inv in Hs as [Hs _]. exact Hs.
  - apply StronglySorted_inv in Hs as [Hs Hy].
    constructor; [apply IH; exact Hs | ].
    apply List.Forall_app in Hy as [Hy1 Hy2].
    apply List.Forall_cons_iff in Hy2 as [_ Hy2].
    apply List.Forall_app. split; assumption.
Qed.

Lemma StronglySorted_app_1_r_local {A} (R : A -> A -> Prop) (l1 l2 : list A) :
  StronglySorted R (l1 ++ l2) -> StronglySorted R l2.
Proof.
  induction l1 as [ | x l1 IH]; cbn [app]; intros Hs; [exact Hs | ].
  apply StronglySorted_inv in Hs as [Hs _]. apply IH, Hs.
Qed.

Section AccountManager.
Context `{accounts.URLCollaborator}.
Hypothesis Hcmp : accounts.cmpOrder.

(** The search finds the boundary between the wallets below the URL and
    the others. *)
Lemma search_split (l1 l2 : list accounts.AxiaWallet) (w : accounts.AxiaWallet) :
  Forall (accounts.below w) l1 -> Forall (accounts.notBelow w) l2 ->
  sort_Search (length (l1 ++ l2)) (accounts.urlAtLeast (l1 ++ l2) w) = length l1.
Proof.
  intros Hl1 Hl2. unfold sort_Search.
  assert (Hlow : forall a, (a < length l1)%nat ->
                           accounts.urlAtLeast (l1 ++ l2) w a = false).
  { intros a Ha. unfold accounts.urlAtLeast.
    rewrite lookup_app_l by exact Ha.
    destruct (lookup_lt_is_Some_2 l1 a Ha) as [x Hx]. rewrite Hx.
    apply Z.leb_gt. rewrite List.Forall_forall in Hl1. apply Hl1.
    apply list_elem_of_In. eapply list_elem_of_lookup_2. exact Hx. }
  assert (Hhigh : forall a, (length l1 <= a)%nat -> (a < length (l1 ++ l2))%nat ->
                            accounts.urlAtLeast (l1 ++ l2) w a = true).
  { intros a Ha Hlen. unfold accounts.urlAtLeast.
    rewrite lookup_app_r by exact Ha. rewrite length_app in Hlen.
    destruct (lookup_lt_is_Some_2 l2 (a - length l1)) as [x Hx]; [lia | ]. rewrite Hx.
    apply Z.leb_le. rewrite List.Forall_forall in Hl2. apply Hl2.
    apply list_elem_of_In. eapply list_elem_of_lookup_2. exact Hx. }
  destruct (Search_loop_spec (accounts.urlAtLeast (l1 ++ l2) w)
              (length (l1 ++ l2)) 0 (length (l1 ++ l2)))
    as (Hn & Hfalse & Htrue); [lia | lia | | ].
  { intros a b _ Hab Hb Hfa.
    destruct (Nat.lt_ge_cases a (length l1)) as [Hcase | Hcase].
    - rewrite Hlow in Hfa by exact Hcase. discriminate.
    - apply Hhigh; lia. }
  set (n := Search_loop _ _ _ _) in *.
  rewrite length_app in *.
  destruct (Nat.lt_trichotomy n (length l1)) as [Hlt | [Heq | Hgt]]; [ | exact Heq | ].
  - specialize (Hlow n Hlt). rewrite Htrue in Hlow by lia. discriminate.
  - specialize (Hfalse (length l1) ltac:(lia) Hgt).
    rewrite Hhigh in Hfalse by (rewrite ?length_app; lia). discriminate.
Qed.

(** A sorted slice splits at every URL. *)
Lemma sorted_split (slice : list accounts.AxiaWallet) (w : accounts.AxiaWallet) :
  accounts.sortedByURL slice ->
  exists l1 l2, slice = l1 ++ l2 /\ Forall (accounts.below w) l1 /\ Forall (accounts.notBelow w) l2.
Proof.
  destruct Hcmp as [Hflip Htrans].
  intros Hs. induction Hs as [ | x l Hs IH Hx].
  - exists [], []. repeat split; constructor.
  - destruct (Z.lt_ge_cases
                (accounts.URL_Cmp (accounts.AxiaWallet_URL x) (accounts.AxiaWallet_URL w)) 0)
      as [Hlt | Hge].
    + destruct IH as (l1 & l2 & -> & Hl1 & Hl2).
      exists (x :: l1), l2. repeat split; [constructor; assumption | assumption].
    + exists [], (x :: l). split; [reflexivity | split; [constructor | ]].
      constructor; [exact Hge | ].
      eapply List.Forall_impl; [ | exact Hx]. cbn beta. intros y Hxy.
      apply Hflip. apply (Htrans _ (accounts.AxiaWallet_URL x)); [ | exact Hxy].
      apply Hflip. exact Hge.
Qed.

Lemma merge1_split (l1 l2 : list accounts.AxiaWallet) (w : accounts.AxiaWallet) :
  Forall (accounts.below w) l1 -> Forall (accounts.notBelow w) l2 ->
  accounts.merge1 (l1 ++ l2) w = l1 ++ w :: l2.
Proof.
  intros Hl1 Hl2. unfold accounts.merge1. rewrite (search_split l1 l2 w Hl1 Hl2).
  case_bool_decide as Hn.
  - rewrite length_app in Hn. destruct l2; [ | cbn in Hn; lia].
    rewrite app_nil_r. reflexivity.
  - rewrite take_app_length, drop_app_length. reflexivity.
Qed.

Lemma drop1_split (l1 l2 : list accounts.AxiaWallet) (w : accounts.AxiaWallet) :
  Forall (accounts.below w) l1 -> Forall (accounts.notBelow w) l2 ->
  accounts.drop1 (l1 ++ l2) w = l1 ++ tail l2.
Proof.
  intros Hl1 Hl2. unfold accounts.drop1. rewrite (search_split l1 l2 w Hl1 Hl2).
  case_bool_decide as Hn.
  - rewrite length_app in Hn. destruct l2; [ | cbn in Hn; lia]. reflexivity.
  - rewrite take_app_length, drop_app_add.
    destruct l2; [rewrite length_app, Nat.add_0_r in Hn; contradiction | reflexivity].
Qed.

Lemma cmp_refl (u : accounts.URL) : accounts.URL_Cmp u u = 0.
Proof.
  destruct Hcmp as [Hflip _]. pose proof (Hflip u u) as Hu. lia.
Qed.

Lemma merge1_sorted (slice : list accounts.AxiaWallet) (w : accounts.AxiaWallet) :
  accounts.sortedByURL slice ->
  accounts.sortedByURL (accounts.merge1 slice w)
  /\ accounts.merge1 slice w ≡ₚ slice ++ [w]
  /\ accounts.drop1 (accounts.merge1 slice w) w = slice.
Proof.
  intros Hs. destruct (sorted_split slice w Hs) as (l1 & l2 & -> & Hl1 & Hl2).
  rewrite (merge1_split l1 l2 w Hl1 Hl2). split; [ | split].
  - apply StronglySorted_middle; [exact Hs | | ].
    + eapply List.Forall_impl; [ | exact Hl1]. unfold accounts.below. intros; lia.
    + eapply List.Forall_impl; [ | exact Hl2]. unfold accounts.notBelow. intros x Hx.
      apply (proj1 Hcmp). exact Hx.
  - rewrite <- app_assoc. apply Permutation_app_head.
    apply Permutation_cons_append.
  - rewrite (drop1_split l1 (w :: l2) w Hl1); [reflexivity | ].
    constructor; [unfold accounts.notBelow; rewrite cmp_refl; lia | exact Hl2].
Qed.

Lemma drop1_sorted (slice : list accounts.AxiaWallet) (w : accounts.AxiaWallet) :
  accounts.sortedByURL slice -> accounts.sortedByURL (accounts.drop1 slice w).
Proof.
  intros Hs. destruct (sorted_split slice w Hs) as (l1 & l2 & -> & Hl1 & Hl2).
  rewrite (drop1_split l1 l2 w Hl1 Hl2).
  destruct l2 as [ | x l2]; [exact Hs | ].
  apply (StronglySorted_remove _ l1 l2 x Hs).
Qed.

Lemma merge_sorted (slice ws : list accounts.AxiaWallet) :
  accounts.sortedByURL slice ->
  accounts.sortedByURL (accounts.merge slice ws)
  /\ accounts.merge slice ws ≡ₚ slice ++ ws.
Proof.
  revert slice. induction ws as [ | w ws IH]; intros slice Hs.
  - cbn. rewrite app_nil_r. auto.
  - cbn [accounts.merge foldl].
    destruct (merge1_sorted slice w Hs) as (Hs1 & Hp1 & _).
    destruct (IH _ Hs1) as (Hs2 & Hp2).
    split; [exact Hs2 | ].
    etransitivity; [exact Hp2 | ]. rewrite Hp1, <- app_assoc. reflexivity.
Qed.

Lemma drop_sorted (slice ws : list accounts.AxiaWallet) :
  accounts.sortedByURL slice -> accounts.sortedByURL (accounts.drop slice ws).
Proof.
  revert slice. induction ws as [ | w ws IH]; intros slice Hs; [exact Hs | ].
  cbn [accounts.drop foldl]. apply IH, drop1_sorted, Hs.
Qed.

Lemma drop_merge (slice ws : list accounts.AxiaWallet) :
  accounts.sortedByURL slice ->
  accounts.drop (accounts.merge slice ws) (rev ws) = slice.
Proof.
  revert slice. induction ws as [ | w ws IH]; intros slice Hs; [reflexivity | ].
  cbn [accounts.merge foldl rev]. unfold accounts.drop. rewrite foldl_app.
  destruct (merge1_sorted slice w Hs) as (Hs1 & _ & Hdrop).
  fold (accounts.drop (foldl accounts.merge1 (accounts.merge1 slice w) ws) (rev ws)).
  fold (accounts.merge (accounts.merge1 slice w) ws).
  rewrite (IH _ Hs1). cbn [foldl]. exact Hdrop.
Qed.
End AccountManager.

Lemma testURLs_cmpOrder : @accounts.cmpOrder accounts.testURLs.
Proof.
  split.
  - intros a b. cbn in *.
    destruct (Z.compare_spec a b), (Z.compare_spec b a); lia.
  - intros a b c. cbn in *.
    destruct (Z.compare_spec a b), (Z.compare_spec b c), (Z.compare_spec a c); lia.
Qed.

(** X16: [merge] keeps a slice that is sorted by URL sorted, and adds
    exactly the given wallets: the result is a rearrangement of the slice
    followed by the wallets. *)
Theorem merge_keeps_sorted `{accounts.URLCollaborator}
    (slice axiawallets : list accounts.AxiaWallet)
    (Hcmp : accounts.cmpOrder)
    (Hsorted : accounts.sortedByURL slice) :
  accounts.sortedByURL (accounts.merge slice axiawallets)
  /\ accounts.merge slice axiawallets ≡ₚ slice ++ axiawallets.
Proof. apply merge_sorted; assumption. Qed.

Lemma merge_keeps_sorted_witness :
  map (@accounts.AxiaWallet_URL accounts.testURLs)
      (@accounts.merge accounts.testURLs
         [accounts.testWallet 1 [1%N]; accounts.testWallet 3 [3%N]]
         [accounts.testWallet 4 [4%N]; accounts.testWallet 2 [2%N]])
  = [1; 2; 3; 4]
  /\ @accounts.sortedByURL accounts.testURLs
       (@accounts.merge accounts.testURLs
          [accounts.testWallet 1 [1%N]; accounts.testWallet 3 [3%N]]
          [accounts.testWallet 4 [4%N]; accounts.testWallet 2 [2%N]]).
Proof.
  split; [reflexivity | ].
  apply (@merge_keeps_sorted accounts.testURLs
           [accounts.testWallet 1 [1%N]; accounts.testWallet 3 [3%N]]
           [accounts.testWallet 4 [4%N]; accounts.testWallet 2 [2%N]]
           testURLs_cmpOrder).
  repeat constructor; cbn; lia.
Defined.

(** X17: the wallet cache of the manager is sorted by URL when
    [NewManager] has built it, whatever the backends return and in whatever
    order, and holds the wallets of all backends; it stays sorted when the
    update loop handles an event of any kind or a new backend. *)
Theorem Manager_cache_sorted `{accounts.URLCollaborator}
    (Hcmp : accounts.cmpOrder) :
  (forall backends,
     accounts.sortedByURL (accounts.axiawallets (accounts.NewManager backends))
     /\ accounts.axiawallets (accounts.NewManager backends)
        ≡ₚ concat (map accounts.Backend_AxiaWallets backends))
  /\ (forall am event,
        accounts.sortedByURL (accounts.axiawallets am) ->
        accounts.sortedByURL (accounts.axiawallets (accounts.Manager_onEvent am event)))
  /\ (forall am backend,
        accounts.sortedByURL (accounts.axiawallets am) ->
        accounts.sortedByURL (accounts.axiawallets (accounts.Manager_onNewBackend am backend))).
Proof.
  split; [ | split].
  - intros backends. unfold accounts.NewManager. cbn [accounts.axiawallets].
    assert (Hgen : forall slice,
               accounts.sortedByURL slice ->
               accounts.sortedByURL
                 (foldl (fun ws backend =>
                           accounts.merge ws (accounts.Backend_AxiaWallets backend))
                        slice backends)
               /\ foldl (fun ws backend =>
                           accounts.merge ws (accounts.Backend_AxiaWallets backend))
                        slice backends
                  ≡ₚ slice ++ concat (map accounts.Backend_AxiaWallets backends)).
    { induction backends as [ | b backends IH]; intros slice Hs.
      - cbn. rewrite app_nil_r. auto.
      - cbn [foldl map concat].
        destruct (merge_sorted Hcmp slice (accounts.Backend_AxiaWallets b) Hs) as (Hs1 & Hp1).
        destruct (IH _ Hs1) as (Hs2 & Hp2). split; [exact Hs2 | ].
        rewrite Hp2, Hp1, <- app_assoc. reflexivity. }
    apply (Hgen []). constructor.
  - intros am event Hs. unfold accounts.Manager_onEvent.
    destruct (accounts.Kind event); cbn [accounts.axiawallets].
    + apply merge_sorted; assumption.
    + exact Hs.
    + apply drop_sorted; assumption.
  - intros am backend Hs. cbn. apply merge_sorted; assumption.
Qed.

Lemma Manager_cache_sorted_witness :
  @accounts.sortedByURL accounts.testURLs
    (accounts.axiawallets
       (@accounts.NewManager accounts.testURLs
          [ @accounts.Build_Backend accounts.testURLs
              [accounts.testWallet 3 [3%N]; accounts.testWallet 1 [1%N]];
            @accounts.Build_Backend accounts.testURLs [accounts.testWallet 2 [2%N]] ])).
Proof.
  apply (@Manager_cache_sorted accounts.testURLs testURLs_cmpOrder).
Defined.

(** X18: [drop] undoes [merge]: dropping the merged wallets, last merged
    first, from the result of a merge into a sorted slice gives the slice
    back. *)
Theorem drop_undoes_merge `{accounts.URLCollaborator}
    (slice axiawallets : list accounts.AxiaWallet)
    (Hcmp : accounts.cmpOrder)
    (Hsorted : accounts.sortedByURL slice) :
  accounts.drop (accounts.merge slice axiawallets) (rev axiawallets) = slice.
Proof. apply drop_merge; assumption. Qed.

Lemma drop_undoes_merge_witness :
  @accounts.drop accounts.testURLs
    (@accounts.merge accounts.testURLs
       [accounts.testWallet 1 [1%N]; accounts.testWallet 3 [3%N]]
       [accounts.testWallet 4 [4%N]; accounts.testWallet 2 [2%N]])
    [accounts.testWallet 2 [2%N]; accounts.testWallet 4 [4%N]]
  = [accounts.testWallet 1 [1%N]; accounts.testWallet 3 [3%N]].
Proof.
  apply (@drop_undoes_merge accounts.testURLs
           [accounts.testWallet 1 [1%N]; accounts.testWallet 3 [3%N]]
           [accounts.testWallet 4 [4%N]; accounts.testWallet 2 [2%N]]
           testURLs_cmpOrder).
  repeat constructor; cbn; lia.
Defined.

(** X19: [drop] removes by position, not by identity: from a sorted slice
    it removes the first wallet whose URL is not below the URL of the
    given wallet, whichever wallet that is, and it leaves the slice as it is
    only when every URL is below the given one.  A wallet that is not in
    the slice thus evicts the wallet that follows its place. *)
Theorem drop_removes_first_not_below `{accounts.URLCollaborator}
    (slice : list accounts.AxiaWallet) (axiawallet : accounts.AxiaWallet)
    (Hcmp : accounts.cmpOrder)
    (Hsorted : accounts.sortedByURL slice) :
  (Forall (accounts.below axiawallet) slice ->
   accounts.drop slice [axiawallet] = slice)
  /\ (forall l1 x l2,
        slice = l1 ++ x :: l2 ->
        Forall (accounts.below axiawallet) l1 ->
        accounts.notBelow axiawallet x ->
        accounts.drop slice [axiawallet] = l1 ++ l2).
Proof.
  cbn [accounts.drop foldl]. split.
  - intros Hall.
    pose proof (drop1_split slice [] axiawallet Hall ltac:(constructor)) as Hd.
    cbn [tail] in Hd. rewrite !app_nil_r in Hd. exact Hd.
  - intros l1 x l2 -> Hl1 Hx.
    apply (drop1_split l1 (x :: l2) axiawallet Hl1).
    constructor; [exact Hx | ].
    apply StronglySorted_app_1_r_local in Hsorted.
    apply StronglySorted_inv in Hsorted as [_ Hxs].
    eapply List.Forall_impl; [ | exact Hxs]. cbn beta. intros y Hxy.
    unfold accounts.notBelow in *. destruct Hcmp as [Hflip Htrans].
    apply Hflip. apply (Htrans _ (accounts.AxiaWallet_URL x)); [ | exact Hxy].
    apply Hflip. exact Hx.
Qed.

Lemma drop_removes_first_not_below_witness :
  @accounts.drop accounts.testURLs
    [accounts.testWallet 1 [1%N]; accounts.testWallet 3 [3%N]]
    [accounts.testWallet 2 [2%N]]
  = [accounts.testWallet 1 [1%N]].
Proof.
  apply (proj2 (@drop_removes_first_not_below accounts.testURLs
                  [accounts.testWallet 1 [1%N]; accounts.testWallet 3 [3%N]]
                  (accounts.testWallet 2 [2%N]) testURLs_cmpOrder
                  ltac:(repeat constructor; cbn; lia))
               [accounts.testWallet 1 [1%N]] (accounts.testWallet 3 [3%N]) []).
  - reflexivity.
  - repeat constructor.
  - unfold accounts.notBelow. cbn. lia.
Defined.

(** ** The keystore wallet and the manager *)

Lemma foldl_snoc_map {A B} (f : A -> B) (l : list A) (acc : list B) :
  foldl (fun acc x => acc ++ [f x]) acc l = acc ++ map f l.
Proof.
  revert acc. induction l as [ | x l IH]; intros acc; cbn [foldl map].
  - rewrite app_nil_r. reflexivity.
  - rewrite IH, <- app_assoc. reflexivity.
Qed.

Lemma Manager_Accounts_flat `{accounts.URLCollaborator} (am : accounts.Manager) :
  accounts.Manager_Accounts am
  = flat_map (fun w => map accounts.Account_Address (accounts.AxiaWallet_Accounts w))
             (accounts.axiawallets am).
Proof.
  unfold accounts.Manager_Accounts.
  assert (Hgen : forall l acc,
             foldl (fun addresses axiawallet =>
                      foldl (fun addresses account =>
                               addresses ++ [accounts.Account_Address account])
                            addresses (accounts.AxiaWallet_Accounts axiawallet))
                   acc l
             = acc ++ flat_map (fun w => map accounts.Account_Address
                                             (accounts.AxiaWallet_Accounts w)) l).
  { induction l as [ | w l IH]; intros acc; cbn [foldl flat_map].
    - rewrite app_nil_r. reflexivity.
    - rewrite IH, foldl_snoc_map, <- app_assoc. reflexivity. }
  apply (Hgen _ []).
Qed.

Section KeystoreWallets.
Context `{accounts.URLCollaborator} `{keystore.CryptoCollaborator}.

Lemma Contains_spec (w : keystore.keystoreAxiaWallet) (a : accounts.Account) :
  keystore.Contains w a = true
  <-> accounts.Account_Address a = accounts.Account_Address (keystore.account w)
      /\ (accounts.Account_URL a = accounts.zeroURL
          \/ accounts.Account_URL a = accounts.Account_URL (keystore.account w)).
Proof.
  unfold keystore.Contains.
  rewrite andb_true_iff, orb_true_iff, !bool_decide_eq_true. reflexivity.
Qed.

Lemma findWallet_keystore (ws : list keystore.keystoreAxiaWallet) (address : Bytes) :
  match accounts.findWallet (keystore.accountOf address) (map keystore.asAxiaWallet ws) with
  | accounts.Ok w =>
      exists before kw after,
        ws = before ++ kw :: after
        /\ w = keystore.asAxiaWallet kw
        /\ accounts.Account_Address (keystore.account kw) = address
        /\ Forall (fun kw' => accounts.Account_Address (keystore.account kw') <> address)
                  before
  | accounts.Err e =>
      e = accounts.ErrUnknownAccount
      /\ Forall (fun kw' => accounts.Account_Address (keystore.account kw') <> address) ws
  end.
Proof.
  induction ws as [ | kw ws IH]; cbn [map accounts.findWallet].
  - split; [reflexivity | constructor].
  - cbn [keystore.asAxiaWallet accounts.AxiaWallet_Contains].
    destruct (keystore.Contains kw (keystore.accountOf address)) eqn:Ec.
    + apply Contains_spec in Ec as [Haddr _]. cbn in Haddr.
      exists [], kw, ws. repeat split; [congruence | constructor].
    + assert (Hne : accounts.Account_Address (keystore.account kw) <> address).
      { intros Heq. apply not_true_iff_false in Ec. apply Ec.
        apply Contains_spec. cbn. auto. }
      destruct (accounts.findWallet _ _) as [w | e].
      * destruct IH as (before & kw' & after & -> & -> & Haddr & Hbefore).
        exists (kw :: before), kw', after. repeat split; [exact Haddr | ].
        constructor; assumption.
      * destruct IH as [-> Hall]. split; [reflexivity | constructor; assumption].
Qed.
End KeystoreWallets.

(** X20: in a manager whose cache holds keystore wallets, [Accounts]
    lists the address of every wallet, in the order of the cache, and
    [Find] with an address alone (no URL) returns the first wallet of that
    address when the address is listed and the unknown-account error when
    it is not. *)
Theorem Manager_Find_lists_accounts
    `{accounts.URLCollaborator} `{keystore.CryptoCollaborator}
    (ws : list keystore.keystoreAxiaWallet) (address : Bytes) :
  let am := keystore.managerOf ws in
  accounts.Manager_Accounts am
  = map (fun kw => accounts.Account_Address (keystore.account kw)) ws
  /\ (In address (accounts.Manager_Accounts am) ->
      exists before kw after,
        ws = before ++ kw :: after
        /\ accounts.Manager_Find am (keystore.accountOf address)
           = accounts.Ok (keystore.asAxiaWallet kw)
        /\ accounts.Account_Address (keystore.account kw) = address
        /\ Forall (fun kw' => accounts.Account_Address (keystore.account kw') <> address)
                  before)
  /\ (~ In address (accounts.Manager_Accounts am) ->
      accounts.Manager_Find am (keystore.accountOf address)
      = accounts.Err accounts.ErrUnknownAccount).
Proof.
  cbn zeta.
  assert (Hlist : accounts.Manager_Accounts (keystore.managerOf ws)
                  = map (fun kw => accounts.Account_Address (keystore.account kw)) ws).
  { rewrite Manager_Accounts_flat. unfold keystore.managerOf. cbn [accounts.axiawallets].
    induction ws as [ | kw ws IH]; [reflexivity | ].
    cbn [map flat_map app]. rewrite IH. reflexivity. }
  split; [exact Hlist | ].
  rewrite Hlist. unfold accounts.Manager_Find, keystore.managerOf.
  cbn [accounts.axiawallets].
  pose proof (findWallet_keystore ws address) as Hfind.
  destruct (accounts.findWallet _ _) as [w | e].
  - destruct Hfind as (before & kw & after & Hws & -> & Haddr & Hbefore). split.
    + intros _. exists before, kw, after. auto.
    + intros Hnot. exfalso. apply Hnot. rewrite Hws, map_app. apply in_or_app. right.
      left. exact Haddr.
  - destruct Hfind as [-> Hall]. split; [ | reflexivity].
    intros Hin. exfalso. apply in_map_iff in Hin as (kw & Haddr & Hkw).
    rewrite List.Forall_forall in Hall. apply (Hall kw Hkw Haddr).
Qed.

(** X21: a keystore wallet signs for no account but its own: when the
    address of the account differs from the address of the wallet, or its
    URL is neither empty nor the URL of the wallet, every signing method
    returns the unknown-account error, whatever the key store would
    answer. *)
Theorem keystoreAxiaWallet_signs_only_own
    `{accounts.URLCollaborator} `{accounts.HashCollaborator} `{keystore.CryptoCollaborator}
    (w : keystore.keystoreAxiaWallet) (a : accounts.Account)
    (Hforeign :
       accounts.Account_Address a <> accounts.Account_Address (keystore.account w)
       \/ (accounts.Account_URL a <> accounts.zeroURL
           /\ accounts.Account_URL a <> accounts.Account_URL (keystore.account w))) :
  (forall hash, keystore.signHash w a hash = accounts.Err accounts.ErrUnknownAccount)
  /\ (forall mimeType data,
        keystore.SignData w a mimeType data = accounts.Err accounts.ErrUnknownAccount)
  /\ (forall passphrase mimeType data,
        keystore.SignDataWithPassphrase w a passphrase mimeType data
        = accounts.Err accounts.ErrUnknownAccount)
  /\ (forall text, keystore.SignText w a text = accounts.Err accounts.ErrUnknownAccount)
  /\ (forall passphrase text,
        keystore.SignTextWithPassphrase w a passphrase text
        = accounts.Err accounts.ErrUnknownAccount)
  /\ (forall tx chainID,
        keystore.SignTx_ w a tx chainID = accounts.Err accounts.ErrUnknownAccount)
  /\ (forall passphrase tx chainID,
        keystore.SignTxWithPassphrase_ w a passphrase tx chainID
        = accounts.Err accounts.ErrUnknownAccount).
Proof.
  assert (Hc : keystore.Contains w a = false).
  { apply not_true_iff_false. rewrite Contains_spec. tauto. }
  unfold keystore.SignData, keystore.SignText, keystore.signHash,
    keystore.SignDataWithPassphrase, keystore.SignTextWithPassphrase,
    keystore.SignTx_, keystore.SignTxWithPassphrase_.
  rewrite Hc. cbn [negb]. repeat split.
Qed.

Lemma keystoreAxiaWallet_signs_only_own_witness :
  @keystore.SignText accounts.testURLs testHash testCrypto
    (testKeystoreWallet 1 [1%N]) (@accounts.Build_Account accounts.testURLs [2%N] 0) [7%N]
  = accounts.Err accounts.ErrUnknownAccount.
Proof.
  apply (@keystoreAxiaWallet_signs_only_own accounts.testURLs testHash testCrypto
           (testKeystoreWallet 1 [1%N]) (@accounts.Build_Account accounts.testURLs [2%N] 0)).
  left. cbn. discriminate.
Defined.

(** ** The pairings of the smart-card hub *)

(** X22: after [setPairing] with a pairing, [pairing] returns it for
    every wallet of the same public key and what it returned before for
    every other wallet; after [setPairing] with nil it returns nil for the
    public key.  This holds also when writing the file fails: the error is
    returned and the map stays changed. *)
Theorem setPairing_then_pairing `{scaxiawallet.FileCollaborator}
    (hub : scaxiawallet.Hub) (axiawallet other : scaxiawallet.AxiaWallet)
    (p : option scaxiawallet.smartcardPairing) :
  let hub' := fst (scaxiawallet.setPairing hub axiawallet p) in
  scaxiawallet.pairing hub' other
  = (if bool_decide (scaxiawallet.AxiaWallet_PublicKey other
                     = scaxiawallet.AxiaWallet_PublicKey axiawallet)
     then p else scaxiawallet.pairing hub other)
  /\ snd (scaxiawallet.setPairing hub axiawallet p) = scaxiawallet.writePairings hub'.
Proof.
  cbn zeta. unfold scaxiawallet.setPairing, scaxiawallet.pairing. cbn [fst snd].
  split; [ | reflexivity].
  case_bool_decide as Hkey.
  - rewrite Hkey. destruct p; cbn [scaxiawallet.pairings].
    + apply lookup_insert_eq.
    + apply lookup_delete_eq.
  - destruct p; cbn [scaxiawallet.pairings].
    + apply lookup_insert_ne. congruence.
    + apply lookup_delete_ne. congruence.
Qed.

Lemma foldl_insert_last {V} (key : V -> Bytes) (l : list V) (m : gmap Bytes V) (k : Bytes) :
  foldl (fun m v => <[key v := v]> m) m l !! k
  = match last (filter (fun v => key v = k) l) with
    | Some v => Some v
    | None => m !! k
    end.
Proof.
  revert m. induction l as [ | v l IH]; intros m; [reflexivity | ].
  cbn [foldl]. rewrite IH, filter_cons. case_decide as Hk.
  - destruct (filter (fun v => key v = k) l) as [ | v' l'] eqn:Ef.
    + cbn. rewrite <- Hk. apply lookup_insert_eq.
    + change (last (v :: v' :: l')) with (last (v' :: l')).
      destruct (last (v' :: l')) eqn:El; [reflexivity | ].
      apply last_None in El. discriminate.
  - destruct (last (filter (fun v => key v = k) l)); [reflexivity | ].
    apply lookup_insert_ne. exact Hk.
Qed.

(** X23: [readPairings] forgets the pairings the hub held: whenever it
    returns an error, and when the file does not exist, the hub is left
    with no pairing; when the file is read and decoded, the hub holds for
    every public key the last pairing of the file with that key, and
    nothing else. *)
Theorem readPairings_replaces_pairings `{scaxiawallet.FileCollaborator}
    (hub : scaxiawallet.Hub) :
  let path := scaxiawallet.filepath_Join (scaxiawallet.datadir hub)
                                         scaxiawallet.smartcardsFile in
  let hub' := fst (scaxiawallet.readPairings hub) in
  let err := snd (scaxiawallet.readPairings hub) in
  scaxiawallet.datadir hub' = scaxiawallet.datadir hub
  /\ (err <> None -> scaxiawallet.pairings hub' = ∅)
  /\ (forall e,
        scaxiawallet.os_Open path = accounts.Err e ->
        scaxiawallet.pairings hub' = ∅
        /\ err = if scaxiawallet.os_IsNotExist e then None else Some e)
  /\ (forall pairingFile pairingData pairings,
        scaxiawallet.os_Open path = accounts.Ok pairingFile ->
        scaxiawallet.ioutil_ReadAll pairingFile = accounts.Ok pairingData ->
        scaxiawallet.json_Unmarshal pairingData = accounts.Ok pairings ->
        err = None
        /\ forall publicKey,
             scaxiawallet.pairings hub' !! publicKey
             = last (filter (fun p => scaxiawallet.PublicKey p = publicKey) pairings)).
Proof.
  cbn zeta. unfold scaxiawallet.readPairings. cbn [scaxiawallet.datadir].
  destruct (scaxiawallet.os_Open _) as [pairingFile | e].
  - destruct (scaxiawallet.ioutil_ReadAll pairingFile) as [pairingData | e] eqn:Eread.
    + destruct (scaxiawallet.json_Unmarshal pairingData) as [pairings | e] eqn:Ejson;
        cbn [fst snd].
      * split; [reflexivity | split; [congruence | split; [discriminate | ]]].
        intros f d l [= <-] Hread Hjson.
        rewrite Eread in Hread. injection Hread as <-.
        rewrite Ejson in Hjson. injection Hjson as <-.
        split; [reflexivity | ].
        intros publicKey. cbn [scaxiawallet.pairings].
        rewrite foldl_insert_last.
        destruct (last _); [reflexivity | apply lookup_empty].
      * split; [reflexivity | split; [reflexivity | split; [discriminate | ]]].
        intros f d l [= <-] Hread Hjson.
        rewrite Eread in Hread. injection Hread as <-.
        rewrite Ejson in Hjson. discriminate.
    + cbn [fst snd].
      split; [reflexivity | split; [reflexivity | split; [discriminate | ]]].
      intros f d l [= <-] Hread. rewrite Eread in Hread. discriminate.
  - destruct (scaxiawallet.os_IsNotExist e) eqn:Ene; cbn [fst snd].
    + split; [reflexivity | split; [reflexivity | split]].
      * intros e' [= <-]. rewrite Ene. auto.
      * discriminate.
    + split; [reflexivity | split; [reflexivity | split]].
      * intros e' [= <-]. rewrite Ene. auto.
      * discriminate.
Qed.

(** ** The message of a signed text *)

Lemma decimal_loop_acc (fuel n : nat) (acc : Bytes) :
  accounts.decimal_loop fuel n acc = accounts.decimal_loop fuel n [] ++ acc.
Proof.
  revert n acc. induction fuel as [ | fuel IH]; intros n acc; [reflexivity | ].
  cbn [accounts.decimal_loop]. destruct (n <? 10)%nat; [reflexivity | ].
  rewrite IH, (IH _ [_]), <- app_assoc. reflexivity.
Qed.

Lemma decimal_loop_fuel (fuel1 fuel2 n : nat) (acc : Bytes) :
  (n < fuel1)%nat -> (n < fuel2)%nat ->
  accounts.decimal_loop fuel1 n acc = accounts.decimal_loop fuel2 n acc.
Proof.
  revert fuel2 n acc. induction fuel1 as [ | fuel1 IH]; intros fuel2 n acc H1 H2; [lia | ].
  destruct fuel2 as [ | fuel2]; [lia | ].
  cbn [accounts.decimal_loop]. destruct (Nat.ltb_spec n 10) as [Hlt | Hge]; [reflexivity | ].
  assert (n / 10 < n)%nat by (apply Nat.div_lt; lia).
  apply IH; lia.
Qed.

Lemma decimal_loop_length_mono (fuel n m : nat) :
  (n <= m)%nat -> (m < fuel)%nat ->
  (1 <= length (accounts.decimal_loop fuel n [])
   <= length (accounts.decimal_loop fuel m []))%nat.
Proof.
  revert n m. induction fuel as [ | fuel IH]; intros n m Hnm Hm; [lia | ].
  cbn [accounts.decimal_loop].
  destruct (Nat.ltb_spec m 10) as [Hm10 | Hm10].
  - destruct (Nat.ltb_spec n 10); [cbn; lia | lia].
  - assert (m / 10 < m)%nat by (apply Nat.div_lt; lia).
    rewrite (decimal_loop_acc fuel (m / 10)), length_app. cbn [length].
    destruct (Nat.ltb_spec n 10) as [Hn10 | Hn10].
    + cbn [length].
      destruct (IH (m / 10)%nat (m / 10)%nat) as [Hone _]; lia.
    + rewrite (decimal_loop_acc fuel (n / 10)), length_app. cbn [length].
      assert (n / 10 <= m / 10)%nat by (apply Nat.Div0.div_le_mono; lia).
      destruct (IH (n / 10)%nat (m / 10)%nat); lia.
Qed.

Lemma decimal_length_mono (n m : nat) :
  (n <= m)%nat -> (length (accounts.decimal n) <= length (accounts.decimal m))%nat.
Proof.
  intros Hnm. unfold accounts.decimal.
  rewrite (decimal_loop_fuel (S n) (S m) n) by lia.
  apply decimal_loop_length_mono; lia.
Qed.

(** X24: the message [TextAndHash] builds for a text determines the text:
    two different texts never give the same message to hash, because the
    length of the text stands between the prefix and the text. *)
Theorem TextAndHash_message_injective `{accounts.HashCollaborator}
    (data1 data2 : Bytes)
    (Hdiff : data1 <> data2) :
  snd (accounts.TextAndHash data1) <> snd (accounts.TextAndHash data2).
Proof.
  unfold accounts.TextAndHash. cbn [snd]. intros Heq. apply Hdiff.
  apply app_inv_head in Heq.
  assert (Hlen : length data1 = length data2).
  { pose proof (f_equal length Heq) as Hl. rewrite !length_app in Hl.
    destruct (Nat.lt_trichotomy (length data1) (length data2)) as [Hlt | [Hlen | Hgt]];
      [ | exact Hlen | ].
    - pose proof (decimal_length_mono (length data1) (length data2)). lia.
    - pose proof (decimal_length_mono (length data2) (length data1)). lia. }
  rewrite Hlen in Heq. apply app_inv_head in Heq. exact Heq.
Qed.

Lemma TextAndHash_message_injective_witness :
  snd (@accounts.TextAndHash testHash [1%N]) <> snd (@accounts.TextAndHash testHash [2%N]).
Proof.
  apply (@TextAndHash_message_injective testHash [1%N] [2%N]). discriminate.
Defined.

(** ** Looking a wallet up by its URL *)

Lemma merge1_permutation `{accounts.URLCollaborator}
    (slice : list accounts.AxiaWallet) (w : accounts.AxiaWallet) :
  accounts.merge1 slice w ≡ₚ slice ++ [w].
Proof.
  unfold accounts.merge1. case_bool_decide; [reflexivity | ].
  etransitivity; [apply Permutation_app_swap_app | ].
  rewrite take_drop. cbn [app]. apply Permutation_cons_append.
Qed.

Lemma merge_permutation `{accounts.URLCollaborator}
    (slice ws : list accounts.AxiaWallet) :
  accounts.merge slice ws ≡ₚ slice ++ ws.
Proof.
  revert slice. induction ws as [ | w ws IH]; intros slice.
  - cbn. rewrite app_nil_r. reflexivity.
  - cbn [accounts.merge foldl]. fold (accounts.merge (accounts.merge1 slice w) ws).
    rewrite IH, merge1_permutation, <- app_assoc. reflexivity.
Qed.

Lemma walletByURL_spec `{accounts.URLCollaborator}
    (parsed : accounts.URL) (l : list accounts.AxiaWallet) :
  match accounts.walletByURL parsed l with
  | accounts.Ok w => In w l /\ accounts.AxiaWallet_URL w = parsed
  | accounts.Err e =>
      e = accounts.ErrUnknownAxiaWallet
      /\ Forall (fun w => accounts.AxiaWallet_URL w <> parsed) l
  end.
Proof.
  induction l as [ | w l IH]; cbn [accounts.walletByURL].
  - split; [reflexivity | constructor].
  - case_bool_decide as Hurl.
    + split; [left; reflexivity | exact Hurl].
    + destruct (accounts.walletByURL parsed l) as [w' | e].
      * destruct IH as [Hin Hw]. split; [right; exact Hin | exact Hw].
      * destruct IH as [-> Hall]. split; [reflexivity | constructor; assumption].
Qed.

(** X25: a wallet that has been merged into the cache is found by its
    URL, whatever the order of the cache: when the text parses to a URL,
    [AxiaWallet] on the merged cache returns a wallet of the cache or of
    the merged wallets that has this URL, and it returns the
    unknown-wallet error only when none of them has it. *)
Theorem Manager_AxiaWallet_finds_merged `{accounts.URLCollaborator}
    (am : accounts.Manager) (axiawallets : list accounts.AxiaWallet)
    (url : Bytes) (parsed : accounts.URL)
    (Hparse : accounts.parseURL url = accounts.Ok parsed) :
  let am' := {| accounts.axiawallets := accounts.merge (accounts.axiawallets am) axiawallets |} in
  match accounts.Manager_AxiaWallet am' url with
  | accounts.Ok w =>
      In w (accounts.axiawallets am ++ axiawallets)
      /\ accounts.AxiaWallet_URL w = parsed
  | accounts.Err e =>
      e = accounts.ErrUnknownAxiaWallet
      /\ Forall (fun w => accounts.AxiaWallet_URL w <> parsed)
                (accounts.axiawallets am ++ axiawallets)
  end.
Proof.
  cbn zeta. unfold accounts.Manager_AxiaWallet. rewrite Hparse.
  cbn [accounts.axiawallets].
  pose proof (walletByURL_spec parsed
                (accounts.merge (accounts.axiawallets am) axiawallets)) as Hfind.
  pose proof (merge_permutation (accounts.axiawallets am) axiawallets) as Hperm.
  destruct (accounts.walletByURL parsed _) as [w | e].
  - destruct Hfind as [Hin Hurl]. split; [ | exact Hurl].
    eapply Permutation_in; [exact Hperm | exact Hin].
  - destruct Hfind as [-> Hall]. split; [reflexivity | ].
    rewrite List.Forall_forall in *. intros w Hw. apply Hall.
    eapply Permutation_in; [symmetry; exact Hperm | exact Hw].
Qed.

Lemma Manager_AxiaWallet_finds_merged_witness :
  @accounts.Manager_AxiaWallet accounts.testURLs
    {| accounts.axiawallets :=
         @accounts.merge accounts.testURLs [accounts.testWallet 3 [3%N]]
                         [accounts.testWallet 2 [2%N]] |}
    [2%N]
  = accounts.Ok (accounts.testWallet 2 [2%N]).
Proof.
  pose proof (@Manager_AxiaWallet_finds_merged accounts.testURLs
                (@accounts.Build_Manager accounts.testURLs [accounts.testWallet 3 [3%N]])
                [accounts.testWallet 2 [2%N]] [2%N] 2 eq_refl) as Hfound.
  cbn zeta in Hfound.
  destruct (@accounts.Manager_AxiaWallet accounts.testURLs _ [2%N]) as [w | e].
  - destruct Hfound as [[Hw | [Hw | []]] Hurl]; subst w; [discriminate Hurl | reflexivity].
  - destruct Hfound as [_ Hall]. exfalso.
    apply List.Forall_forall with (x := accounts.testWallet 2 [2%N]) in Hall;
      [apply Hall; reflexivity | right; left; reflexivity].
Defined.
